(** * tg-vpn-bot: provisioning and reconciliation core

    A shallow embedding of the TypeScript sources (helpers.ts, types.ts,
    database.ts, vpn-manager.ts, tariffs.ts, payments.ts, handlers.ts,
    cron.ts) and the properties of the specification stated over it.

    Asynchronous functions are embedded as trees of an inductive free
    monad [Async]: a [Sync] node is a run-to-completion piece of
    JavaScript acting on the process memory (SQLite tables, the session
    map, module-level variables), an [Await] node is a suspension point
    at an external call (fetch, setTimeout, the Telegram API).  The same
    tree is executed either alone ([run]) or interleaved with other
    tasks at its suspension points ([interleave]).

    Conventions of the embedding:
    - JavaScript numbers that hold ids, amounts, counters and epoch
      milliseconds are [Z];
    - TEXT columns are strings, and timestamps are the texts that
      [Date.prototype.toISOString] and SQLite's [datetime] produce;
    - how an external call settles is decided by an [Oracle], from the
      number of calls settled before it and the call itself;
    - texts shown to users are abridged and URL encoding is left out;
      neither is looked at by the code. *)

From Stdlib Require Import ZArith String Ascii List Bool Lia.
From stdpp Require Import gmap strings list pretty.

Open Scope string_scope.
Open Scope Z_scope.

(* ================================================================= *)
(** ** Clock and timestamp texts *)

Module Clock.

(** Decimal rendering with a fixed number of digits (zero padded). *)
Definition digit (n : Z) : ascii := ascii_of_nat (48 + Z.to_nat (n mod 10)).

Fixpoint pad (width : nat) (n : Z) : string :=
  match width with
  | O => EmptyString
  | S w => pad w (n / 10) ++ String (digit n) EmptyString
  end.

(** Proleptic Gregorian date of a day number counted from 1970-01-01. *)
Definition civil_from_days (days : Z) : Z * Z * Z :=
  let z := days + 719468 in
  let era := z / 146097 in
  let doe := z - era * 146097 in
  let yoe := (doe - doe / 1460 + doe / 36524 - doe / 146096) / 365 in
  let doy := doe - (365 * yoe + yoe / 4 - yoe / 100) in
  let mp := (5 * doy + 2) / 153 in
  let d := doy - (153 * mp + 2) / 5 + 1 in
  let m := if mp <? 10 then mp + 3 else mp - 9 in
  let y := yoe + era * 400 + (if m <=? 2 then 1 else 0) in
  (y, m, d).

Definition date_text (days : Z) : string :=
  let '(y, m, d) := civil_from_days days in
  pad 4 y ++ "-" ++ pad 2 m ++ "-" ++ pad 2 d.

Definition time_text (secs : Z) : string :=
  pad 2 (secs / 3600) ++ ":" ++ pad 2 (secs / 60 mod 60) ++ ":" ++ pad 2 (secs mod 60).

(** [new Date(ms).toISOString()]: "YYYY-MM-DDTHH:mm:ss.sssZ". *)
Definition toISOString (ms : Z) : string :=
  let secs := ms / 1000 in
  date_text (secs / 86400) ++ "T" ++ time_text (secs mod 86400)
    ++ "." ++ pad 3 (ms mod 1000) ++ "Z".

(** SQLite [datetime(...)] of an instant: "YYYY-MM-DD HH:MM:SS". *)
Definition sqlite_datetime (ms : Z) : string :=
  let secs := ms / 1000 in
  date_text (secs / 86400) ++ " " ++ time_text (secs mod 86400).

Definition hours (n : Z) : Z := n * 3600 * 1000.

(** SQLite compares two TEXT values bytewise (collation BINARY). *)
Definition text_le (a b : string) : bool := String.leb a b.

End Clock.

(* ================================================================= *)
(** ** helpers.ts *)

Module Helpers.

Definition digit_value (c : ascii) : option Z :=
  let n := Z.of_nat (nat_of_ascii c) in
  if (48 <=? n) && (n <=? 57) then Some (n - 48) else None.

Fixpoint digits_from (acc : Z) (s : string) : option Z :=
  match s with
  | EmptyString => Some acc
  | String c rest =>
      match digit_value c with
      | Some d => digits_from (acc * 10 + d) rest
      | None => None
      end
  end.

(** The decimal number written by the [len] characters from [pos]. *)
Definition number_at (pos len : nat) (s : string) : option Z :=
  if (String.length s <? pos + len)%nat then None
  else digits_from 0 (String.substring pos len s).

Definition char_at (pos : nat) (s : string) : option ascii := String.get pos s.

(** Day number, counted from 1970-01-01, of a proleptic Gregorian date. *)
Definition days_from_civil (y m d : Z) : Z :=
  let y' := if m <=? 2 then y - 1 else y in
  let era := y' / 400 in
  let yoe := y' - era * 400 in
  let mp := (m + 9) mod 12 in
  let doy := (153 * mp + 2) / 5 + d - 1 in
  let doe := yoe * 365 + yoe / 4 - yoe / 100 + doy in
  era * 146097 + doe - 719468.

(** [new Date(text).getTime()] for the two forms the code stores, with
    the trailing "Z": "YYYY-MM-DDTHH:mm:ss.sssZ" and
    "YYYY-MM-DD HH:MM:SSZ".  [None] stands for an invalid date. *)
Definition parse_utc (text : string) : option Z :=
  match number_at 0 4 text, number_at 5 2 text, number_at 8 2 text,
        number_at 11 2 text, number_at 14 2 text, number_at 17 2 text with
  | Some y, Some m, Some d, Some hh, Some mm, Some ss =>
      let ms := match char_at 19 text with
                | Some "."%char =>
                    match number_at 20 3 text with
                    | Some f => f
                    | None => 0
                    end
                | _ => 0
                end in
      Some ((((days_from_civil y m d * 24 + hh) * 60 + mm) * 60 + ss) * 1000 + ms)
  | _, _, _, _, _, _ => None
  end.

(** [iso.endsWith('Z')] *)
Fixpoint ends_with_Z (s : string) : bool :=
  match s with
  | EmptyString => false
  | String c EmptyString => Ascii.eqb c "Z"
  | String _ rest => ends_with_Z rest
  end.

(** 'истекла': "has run out". *)
Definition expired_text : string := "истекла".

(** [formatTimeLeft(iso)] at the instant [now]; an invalid date falls
    through every comparison, as [NaN] does. *)
Definition formatTimeLeft (now : Z) (iso : string) : string :=
  match parse_utc (if ends_with_Z iso then iso else iso ++ "Z") with
  | None => "NaN мин."
  | Some expires =>
      let diff := expires - now in
      if diff <=? 0 then expired_text
      else
        let totalMinutes := diff / 60000 in
        let totalHours := totalMinutes / 60 in
        let days := totalHours / 24 in
        let hours := totalHours mod 24 in
        let minutes := totalMinutes mod 60 in
        if 0 <? days then pretty days ++ " дн. " ++ pretty hours ++ " ч."
        else if 0 <? hours then pretty hours ++ " ч. " ++ pretty minutes ++ " мин."
        else pretty minutes ++ " мин."
  end.

End Helpers.

(* ================================================================= *)
(** ** types.ts *)

Definition Error := string.

Inductive Result (A : Type) : Type :=
| Ok (a : A)
| Err (e : Error).
Arguments Ok {A} a.
Arguments Err {A} e.

Module Types.

Inductive PaymentStatus := pending | completed | expired | refunded.

Definition PaymentStatus_eqb (a b : PaymentStatus) : bool :=
  match a, b with
  | pending, pending | completed, completed
  | expired, expired | refunded, refunded => true
  | _, _ => false
  end.

(** [TariffId] is a string union in TypeScript; the values that reach
    the code at run time (callback data, TEXT columns) are unchecked
    strings. *)
Definition TariffId := string.

Record Server := {
  srv_id : Z;
  srv_code : string;
  srv_name : string;
  srv_emoji : string;
  srv_is_active : Z;
}.

Record User := {
  usr_telegram_id : Z;
  usr_username : string;
  usr_first_name : string;
  usr_is_blocked : Z;
  usr_trial_used : Z;
}.

Record Subscription := {
  sub_id : Z;
  sub_telegram_id : Z;
  sub_server_id : Z;
  client_uuid : string;
  client_email : string;
  sub_tariff_id : TariffId;
  expires_at : string;
  max_devices : Z;
  traffic_limit : Z;
  traffic_used : Z;
  is_active : Z;
  sub_created_at : string;
}.

Record Payment := {
  pay_id : Z;
  pay_telegram_id : Z;
  pay_tariff_id : TariffId;
  pay_server_id : Z;
  amount : Z;
  currency : string;
  status : PaymentStatus;
  invoice_id : option string;
  payload : option string;
  pay_created_at : string;
  completed_at : option string;
}.

Record Alert := { alert_type : string; alert_message : string }.

Record ServerEnvConfig := {
  code : string;
  panelUrl : string;
  panelUsername : string;
  panelPassword : string;
  inboundId : Z;
  serverIp : string;
  serverPort : Z;
  publicKey : string;
  shortId : string;
  sni : string;
}.

Record AppConfig := {
  adminId : Z;
  yoomoneyToken : string;
  yoomoneyWallet : string;
  servers : list ServerEnvConfig;
}.

Record Tariff := {
  id : TariffId;
  label : string;
  price : Z;
  days : Z;
  minutes : option Z;
  maxDevices : Z;
}.

(** A row of a [subscriptions JOIN servers] query. *)
Definition SubscriptionWithServer : Type := Subscription * Server.

End Types.
Import Types.

(* ================================================================= *)
(** ** JSON values carried by HTTP responses *)

Module Json.

#[local] Unset Elimination Schemes.
Inductive t : Type :=
| JNull
| JBool (b : bool)
| JNum (n : Z)
| JStr (s : string)
| JArr (items : list t)
| JObj (fields : list (string * t)).
#[local] Set Elimination Schemes.

(** Property access [v.key]; a missing property reads as a falsy
    value, rendered here as [JNull]. *)
Definition field (key : string) (v : t) : t :=
  match v with
  | JObj fields =>
      match find (fun kv => String.eqb (fst kv) key) fields with
      | Some kv => snd kv
      | None => JNull
      end
  | _ => JNull
  end.

(** JavaScript truthiness. *)
Definition truthy (v : t) : bool :=
  match v with
  | JNull => false
  | JBool b => b
  | JNum n => negb (n =? 0)
  | JStr s => negb (String.eqb s "")
  | JArr _ | JObj _ => true
  end.

(** [v || 0]: a truthy value is kept as it is, whatever its type. *)
Definition or_zero (v : t) : t := if truthy v then v else JNum 0.

(** The integers a double holds exactly: magnitude at most 2^53. *)
Definition safe (n : Z) : bool := (- 2 ^ 53 <=? n) && (n <=? 2 ^ 53).

(** [a + b] of two numbers that are such integers and whose sum is one:
    the addition of doubles is then exact.  For other operands the sum
    rounds, or [+] concatenates or converts; their value is not
    determined here, which [None] stands for. *)
Definition plus (a b : t) : option t :=
  match a, b with
  | JNum x, JNum y =>
      if safe x && safe y && safe (x + y) then Some (JNum (x + y)) else None
  | _, _ => None
  end.

(** [v.length > 0]: an array or a string that is not empty, or an
    object whose [length] property is a positive number or [true].  A
    [length] of another type is converted to a number by the source;
    that conversion is left out here and such a [length] counts as not
    positive. *)
Definition nonempty (v : t) : bool :=
  match v with
  | JArr items => negb (Nat.eqb (length items) 0)
  | JStr s => negb (String.eqb s "")
  | JObj _ =>
      match field "length" v with
      | JNum n => 0 <? n
      | JBool b => b
      | _ => false
      end
  | _ => false
  end.

(** [v[0]]; a missing element reads as [JNull]. *)
Definition first (v : t) : t :=
  match v with
  | JArr (item :: _) => item
  | JStr (String c _) => JStr (String c EmptyString)
  | JObj _ => field "0" v
  | _ => JNull
  end.

(** [String(v)], as a template literal renders a value: an array is its
    elements joined by commas, [null] elements left empty, and an
    object is ["[object Object]"]. *)
Fixpoint to_string (v : t) : string :=
  match v with
  | JNull => "null"
  | JBool b => if b then "true" else "false"
  | JNum n => pretty n
  | JStr s => s
  | JArr items =>
      String.concat ","
        (map (fun item => match item with
                          | JNull => EmptyString
                          | _ => to_string item
                          end) items)
  | JObj _ => "[object Object]"
  end.

(** [`${v || fallback}`] *)
Definition str_or (v : t) (fallback : string) : string :=
  if truthy v then to_string v else fallback.

End Json.

(** The record [getClientTraffic] returns.  Its type declares three
    numbers; at run time [up] and [down] hold whatever the panel sent,
    and [total] what [+] made of them. *)
Record XuiClientTraffic := { up : Json.t; down : Json.t; total : option Json.t }.

(* ================================================================= *)
(** ** database.ts

    The SQLite tables as lists of rows in rowid order, and every
    prepared query as a function on them.  [now] is the instant SQLite
    reads for ['now'], in milliseconds since the epoch.  TEXT columns
    are strings and are compared as SQLite compares them.  The
    connection runs with [foreign_keys = ON], so an insert whose parent
    row is missing throws. *)

Module Database.

Record t := {
  servers : list Server;
  users : list User;
  subscriptions : list Subscription;
  payments : list Payment;
  alerts : list Alert;
  seq_subscriptions : Z;   (* sqlite_sequence of AUTOINCREMENT keys *)
  seq_payments : Z;
}.

Definition with_users (d : t) (us : list User) : t :=
  {| servers := servers d; users := us; subscriptions := subscriptions d;
     payments := payments d; alerts := alerts d;
     seq_subscriptions := seq_subscriptions d; seq_payments := seq_payments d |}.

Definition with_subscriptions (d : t) (ss : list Subscription) : t :=
  {| servers := servers d; users := users d; subscriptions := ss;
     payments := payments d; alerts := alerts d;
     seq_subscriptions := seq_subscriptions d; seq_payments := seq_payments d |}.

Definition with_payments (d : t) (ps : list Payment) : t :=
  {| servers := servers d; users := users d; subscriptions := subscriptions d;
     payments := ps; alerts := alerts d;
     seq_subscriptions := seq_subscriptions d; seq_payments := seq_payments d |}.

(** *** Servers *)

Definition getServers (d : t) : list Server :=
  List.filter (fun s => srv_is_active s =? 1) (servers d).

Definition getServerByCode (c : string) (d : t) : option Server :=
  find (fun s => String.eqb (srv_code s) c) (servers d).

Definition getServerById (i : Z) (d : t) : option Server :=
  find (fun s => srv_id s =? i) (servers d).

(** *** Users *)

Definition getUser (telegramId : Z) (d : t) : option User :=
  find (fun u => usr_telegram_id u =? telegramId) (users d).

Definition set_trial_used (u : User) : User :=
  {| usr_telegram_id := usr_telegram_id u; usr_username := usr_username u;
     usr_first_name := usr_first_name u; usr_is_blocked := usr_is_blocked u;
     usr_trial_used := 1 |}.

Definition markTrialUsed (telegramId : Z) (d : t) : t :=
  with_users d
    (map (fun u => if usr_telegram_id u =? telegramId then set_trial_used u else u)
         (users d)).

Definition upsertUser (telegramId : Z) (username firstName : string) (d : t) : t :=
  match getUser telegramId d with
  | Some _ =>
      with_users d
        (map (fun u =>
                if usr_telegram_id u =? telegramId
                then {| usr_telegram_id := telegramId; usr_username := username;
                        usr_first_name := firstName;
                        usr_is_blocked := usr_is_blocked u;
                        usr_trial_used := usr_trial_used u |}
                else u)
             (users d))
  | None =>
      with_users d
        (users d ++ [ {| usr_telegram_id := telegramId; usr_username := username;
                         usr_first_name := firstName; usr_is_blocked := 0;
                         usr_trial_used := 0 |} ])
  end.

(** Foreign keys of [subscriptions] and [payments]:
    [telegram_id REFERENCES users(telegram_id)] and
    [server_id REFERENCES servers(id)]. *)
Definition fk_ok (telegramId serverId : Z) (d : t) : bool :=
  match getUser telegramId d, getServerById serverId d with
  | Some _, Some _ => true
  | _, _ => false
  end.

Definition fk_error : Error := "FOREIGN KEY constraint failed".

(** *** Subscriptions *)

Definition createSubscription (now : Z)
    (telegramId serverId : Z) (clientUuid clientEmail : string)
    (tariffId : string) (expiresAt : string) (maxDevices trafficLimit : Z)
    (d : t) : Result Subscription * t :=
  if fk_ok telegramId serverId d then
    let row :=
      {| sub_id := seq_subscriptions d + 1;
         sub_telegram_id := telegramId; sub_server_id := serverId;
         client_uuid := clientUuid; client_email := clientEmail;
         sub_tariff_id := tariffId; expires_at := expiresAt;
         max_devices := maxDevices; traffic_limit := trafficLimit;
         traffic_used := 0; is_active := 1;
         sub_created_at := Clock.sqlite_datetime now |} in
    (Ok row,
     {| servers := servers d; users := users d;
        subscriptions := subscriptions d ++ [row];
        payments := payments d; alerts := alerts d;
        seq_subscriptions := seq_subscriptions d + 1;
        seq_payments := seq_payments d |})
  else (Err fk_error, d).

Definition join_server (d : t) (s : Subscription) : list SubscriptionWithServer :=
  match getServerById (sub_server_id s) d with
  | Some srv => [(s, srv)]
  | None => []
  end.

(** [ORDER BY created_at DESC]: stable insertion into a descending list. *)
Fixpoint insert_desc (x : SubscriptionWithServer) (l : list SubscriptionWithServer)
  : list SubscriptionWithServer :=
  match l with
  | [] => [x]
  | y :: l' =>
      if Clock.text_le (sub_created_at (fst x)) (sub_created_at (fst y))
      then y :: insert_desc x l'
      else x :: y :: l'
  end.

Definition order_by_created_desc (l : list SubscriptionWithServer)
  : list SubscriptionWithServer :=
  fold_left (fun acc x => insert_desc x acc) l [].

Definition getActiveSubscriptions (telegramId : Z) (d : t)
  : list SubscriptionWithServer :=
  order_by_created_desc
    (flat_map (join_server d)
       (List.filter (fun s => (sub_telegram_id s =? telegramId) && (is_active s =? 1))
               (subscriptions d))).

Definition getExpiredSubscriptions (now : Z) (d : t) : list SubscriptionWithServer :=
  flat_map (join_server d)
    (List.filter (fun s => (is_active s =? 1)
                      && Clock.text_le (expires_at s) (Clock.sqlite_datetime now))
            (subscriptions d)).

Definition set_inactive (s : Subscription) : Subscription :=
  {| sub_id := sub_id s; sub_telegram_id := sub_telegram_id s;
     sub_server_id := sub_server_id s; client_uuid := client_uuid s;
     client_email := client_email s; sub_tariff_id := sub_tariff_id s;
     expires_at := expires_at s; max_devices := max_devices s;
     traffic_limit := traffic_limit s; traffic_used := traffic_used s;
     is_active := 0; sub_created_at := sub_created_at s |}.

Definition deactivateSubscription (i : Z) (d : t) : t :=
  with_subscriptions d
    (map (fun s => if sub_id s =? i then set_inactive s else s) (subscriptions d)).

(** *** Payments *)

Definition createPayment (now : Z)
    (telegramId : Z) (tariffId : string) (serverId amount : Z)
    (invoiceId payload_ : string) (d : t) : Result Payment * t :=
  if fk_ok telegramId serverId d then
    let row :=
      {| pay_id := seq_payments d + 1;
         pay_telegram_id := telegramId; pay_tariff_id := tariffId;
         pay_server_id := serverId; amount := amount; currency := "RUB";
         status := pending; invoice_id := Some invoiceId;
         payload := Some payload_;
         pay_created_at := Clock.sqlite_datetime now;
         completed_at := None |} in
    (Ok row,
     {| servers := servers d; users := users d;
        subscriptions := subscriptions d;
        payments := payments d ++ [row]; alerts := alerts d;
        seq_subscriptions := seq_subscriptions d;
        seq_payments := seq_payments d + 1 |})
  else (Err fk_error, d).

Definition getPendingPayments (d : t) : list Payment :=
  List.filter (fun p => PaymentStatus_eqb (status p) pending) (payments d).

Definition invoice_is (invoiceId : string) (p : Payment) : bool :=
  match invoice_id p with
  | Some i => String.eqb i invoiceId
  | None => false
  end.

Definition getPaymentByInvoiceId (invoiceId : string) (d : t) : option Payment :=
  find (invoice_is invoiceId) (payments d).

Definition set_status (st : PaymentStatus) (done : option string) (p : Payment)
  : Payment :=
  {| pay_id := pay_id p; pay_telegram_id := pay_telegram_id p;
     pay_tariff_id := pay_tariff_id p; pay_server_id := pay_server_id p;
     amount := amount p; currency := currency p; status := st;
     invoice_id := invoice_id p; payload := payload p;
     pay_created_at := pay_created_at p; completed_at := done |}.

Definition completePayment (now : Z) (i : Z) (d : t) : t :=
  with_payments d
    (map (fun p => if pay_id p =? i
                   then set_status completed (Some (Clock.sqlite_datetime now)) p
                   else p)
         (payments d)).

Definition expirePayment (i : Z) (d : t) : t :=
  with_payments d
    (map (fun p => if pay_id p =? i then set_status expired (completed_at p) p else p)
         (payments d)).

(** The WHERE clause of [expireOldPayments]:
    [status = 'pending' AND created_at <= datetime('now', '-24 hours')]. *)
Definition is_old_pending (now : Z) (p : Payment) : bool :=
  PaymentStatus_eqb (status p) pending
  && Clock.text_le (pay_created_at p) (Clock.sqlite_datetime (now - Clock.hours 24)).

(** Returns [result.changes], the number of rows the UPDATE matched. *)
Definition expireOldPayments (now : Z) (d : t) : Z * t :=
  (Z.of_nat (length (List.filter (is_old_pending now) (payments d))),
   with_payments d
     (map (fun p => if is_old_pending now p
                    then set_status expired (completed_at p) p else p)
          (payments d))).

(** *** Alerts *)

Definition createAlert (type_ message : string) (d : t) : t :=
  {| servers := servers d; users := users d; subscriptions := subscriptions d;
     payments := payments d;
     alerts := alerts d ++ [ {| alert_type := type_; alert_message := message |} ];
     seq_subscriptions := seq_subscriptions d; seq_payments := seq_payments d |}.

End Database.

(* ================================================================= *)
(** ** Process memory and asynchronous programs *)

Inductive LogLevel := LDebug | LInfo | LWarn | LError.

(** Everything the process can read or write between two suspension
    points: the SQLite database, the [sessions] map of vpn-manager.ts,
    the module variables [salesBlocked] and [bot] of payments.ts, the
    logger's output, the wall clock and the random sources. *)
Record Mem := {
  db : Database.t;
  sessions : gmap string string;
  salesBlocked : bool;
  bot : bool;                      (* [bot !== null] *)
  now_ms : Z;                      (* Date.now() and SQLite's 'now' *)
  uuid_source : nat -> string;     (* successive results of uuidv4() *)
  hex_source : nat -> string;      (* successive randomBytes(4).toString('hex') *)
  rand_n : nat;
  log : list (LogLevel * string);
}.

Definition set_db (m : Mem) (d : Database.t) : Mem :=
  {| db := d; sessions := sessions m; salesBlocked := salesBlocked m; bot := bot m;
     now_ms := now_ms m; uuid_source := uuid_source m; hex_source := hex_source m;
     rand_n := rand_n m; log := log m |}.

Definition set_sessions (m : Mem) (s : gmap string string) : Mem :=
  {| db := db m; sessions := s; salesBlocked := salesBlocked m; bot := bot m;
     now_ms := now_ms m; uuid_source := uuid_source m; hex_source := hex_source m;
     rand_n := rand_n m; log := log m |}.

Definition set_salesBlocked (m : Mem) (b : bool) : Mem :=
  {| db := db m; sessions := sessions m; salesBlocked := b; bot := bot m;
     now_ms := now_ms m; uuid_source := uuid_source m; hex_source := hex_source m;
     rand_n := rand_n m; log := log m |}.

Definition set_now (m : Mem) (t : Z) : Mem :=
  {| db := db m; sessions := sessions m; salesBlocked := salesBlocked m; bot := bot m;
     now_ms := t; uuid_source := uuid_source m; hex_source := hex_source m;
     rand_n := rand_n m; log := log m |}.

Definition bump_rand (m : Mem) : Mem :=
  {| db := db m; sessions := sessions m; salesBlocked := salesBlocked m; bot := bot m;
     now_ms := now_ms m; uuid_source := uuid_source m; hex_source := hex_source m;
     rand_n := S (rand_n m); log := log m |}.

Definition add_log (m : Mem) (lvl : LogLevel) (msg : string) : Mem :=
  {| db := db m; sessions := sessions m; salesBlocked := salesBlocked m; bot := bot m;
     now_ms := now_ms m; uuid_source := uuid_source m; hex_source := hex_source m;
     rand_n := rand_n m; log := log m ++ [(lvl, msg)] |}.

(** *** External calls *)

Inductive Body :=
| FormBody (fields : list (string * string))   (* application/x-www-form-urlencoded *)
| JsonBody (v : Json.t).                       (* JSON.stringify(v) *)

Record RequestInit := {
  method : string;
  headers : list (string * string);
  body : option Body;
}.

(** [fetch(url, { ...init, signal })] *)
Record Request := {
  url : string;
  init : RequestInit;
  signal_timeout : option Z;       (* AbortSignal.timeout(ms) *)
}.

Record Response := {
  resp_status : Z;
  status_text : string;            (* res.statusText *)
  set_cookie : option string;      (* headers.get('set-cookie') *)
  resp_text : string;              (* res.text() *)
  resp_json : option Json.t;       (* res.json(); None: the body does not parse *)
}.

(** [res.ok]: the status is in the range 200-299. *)
Definition ok (r : Response) : bool := (200 <=? resp_status r) && (resp_status r <=? 299).

Inductive FetchOutcome :=
| NetworkError (e : Error)         (* fetch rejects: reset, DNS, timeout *)
| Responded (r : Response).

Inductive TgCall :=
| SendMessage (chat : Z) (text : string)
| SendPhoto (chat : Z) (caption : string)
| AnswerCbQuery (text : string)
| Reply (text : string)
| EditMessageText (text : string).

Inductive Cmd :=
| Fetch (req : Request)
| Sleep (ms : Z)
| Telegram (call : TgCall)
| QRCode (text : string)
| Import (module_ : string).

(** What the awaited promise settles with.  [Result] is used where the
    promise can reject. *)
Definition Answer (c : Cmd) : Type :=
  match c with
  | Fetch _ => FetchOutcome
  | Sleep _ => unit
  | Telegram _ => Result unit
  | QRCode _ => Result unit
  | Import _ => unit
  end.

Inductive Async (A : Type) : Type :=
| Ret (a : A)
| Throw (e : Error)
| Sync {X : Type} (f : Mem -> X * Mem) (k : X -> Async A)
| Await (c : Cmd) (k : Answer c -> Async A).
Arguments Ret {A} a.
Arguments Throw {A} e.
Arguments Sync {A X} f k.
Arguments Await {A} c k.

Fixpoint bind {A B} (p : Async A) (q : A -> Async B) : Async B :=
  match p with
  | Ret a => q a
  | Throw e => Throw e
  | Sync f k => Sync f (fun x => bind (k x) q)
  | Await c k => Await c (fun x => bind (k x) q)
  end.

(** [try { p } catch (err) { h err }] *)
Fixpoint try_catch {A} (p : Async A) (h : Error -> Async A) : Async A :=
  match p with
  | Ret a => Ret a
  | Throw e => h e
  | Sync f k => Sync f (fun x => try_catch (k x) h)
  | Await c k => Await c (fun x => try_catch (k x) h)
  end.

Declare Scope async_scope.
Delimit Scope async_scope with async.
Notation "'let*' x ':=' p 'in' q" := (bind p (fun x => q))
  (at level 10, x name, p at level 100, q at level 200) : async_scope.
Notation "'do' p 'then' q" := (bind p (fun _ => q))
  (at level 10, p at level 100, q at level 200) : async_scope.
Open Scope async_scope.

Definition await (c : Cmd) : Async (Answer c) := Await c Ret.
Definition sync {X} (f : Mem -> X * Mem) : Async X := Sync f Ret.
Definition read {X} (f : Mem -> X) : Async X := sync (fun m => (f m, m)).
Definition write (f : Mem -> Mem) : Async unit := sync (fun m => (tt, f m)).
Definition logger (lvl : LogLevel) (msg : string) : Async unit :=
  write (fun m => add_log m lvl msg).

(** A call that returns or throws. *)
Definition of_result {A} (r : Result A) : Async A :=
  match r with
  | Ok a => Ret a
  | Err e => Throw e
  end.

(** [for (const x of xs) { body x }] *)
Fixpoint for_of {X} (xs : list X) (body : X -> Async unit) : Async unit :=
  match xs with
  | [] => Ret tt
  | x :: rest => do body x then for_of rest body
  end.

(** *** Running a program *)

Inductive Event :=
| Called (c : Cmd) (a : Answer c).

(** The environment decides how the [n]-th external call settles. *)
Definition Oracle := nat -> forall c : Cmd, Answer c.

Record World := {
  mem : Mem;
  calls : nat;                     (* external calls settled so far *)
  trace : list Event;
}.

Definition settle_call (env : Oracle) (c : Cmd) (w : World) : Answer c * World :=
  let a := env (calls w) c in
  let m := match c with
           | Sleep ms => set_now (mem w) (now_ms (mem w) + ms)
           | _ => mem w
           end in
  (a, {| mem := m; calls := S (calls w); trace := trace w ++ [Called c a] |}).

(** One task alone, from start to finish. *)
Fixpoint run {A} (env : Oracle) (p : Async A) (w : World) : Result A * World :=
  match p with
  | Ret a => (Ok a, w)
  | Throw e => (Err e, w)
  | Sync f k =>
      let '(x, m) := f (mem w) in
      run env (k x) {| mem := m; calls := calls w; trace := trace w |}
  | Await c k =>
      let '(a, w') := settle_call env c w in
      run env (k a) w'
  end.

(** *** Interleaving tasks

    JavaScript runs a task without preemption until it awaits.  A
    scheduling step picks a suspended task, settles the call it awaits
    and lets it run up to its next suspension point. *)

Fixpoint advance {A} (p : Async A) (m : Mem) : Async A * Mem :=
  match p with
  | Sync f k => let '(x, m') := f m in advance (k x) m'
  | _ => (p, m)
  end.

Definition resume {A} (env : Oracle) (p : Async A) (w : World) : Async A * World :=
  match p with
  | Await c k =>
      let '(a, w') := settle_call env c w in
      let '(p', m') := advance (k a) (mem w') in
      (p', {| mem := m'; calls := calls w'; trace := trace w' |})
  | _ =>
      let '(p', m') := advance p (mem w) in
      (p', {| mem := m'; calls := calls w; trace := trace w |})
  end.

Fixpoint interleave {A} (env : Oracle) (schedule : list nat)
    (tasks : list (Async A)) (w : World) : list (Async A) * World :=
  match schedule with
  | [] => (tasks, w)
  | i :: rest =>
      match tasks !! i with
      | Some p =>
          let '(p', w') := resume env p w in
          interleave env rest (<[i := p']> tasks) w'
      | None => interleave env rest tasks w
      end
  end.

Definition finished {A} (p : Async A) : bool :=
  match p with
  | Ret _ | Throw _ => true
  | _ => false
  end.

(** [p] run through its synchronous steps, up to its next [await] or to
    its end; [cont] goes on from what is left of it. *)
Fixpoint drive {X B} (p : Async X) (cont : Async X -> Async B) : Async B :=
  match p with
  | Sync f k => Sync f (fun x => drive (k x) cont)
  | _ => cont p
  end.

(** [p] awaited to its end; [cont] goes on from its result. *)
Fixpoint complete {X B} (p : Async X) (cont : Result X -> Async B) : Async B :=
  match p with
  | Ret x => cont (Ok x)
  | Throw e => cont (Err e)
  | Sync f k => Sync f (fun x => complete (k x) cont)
  | Await c k => Await c (fun a => complete (k a) cont)
  end.

(* ================================================================= *)
(** ** vpn-manager.ts *)

Module VpnManager.
Section WithConfig.

Variable config : AppConfig.

Definition getServerConfig (serverCode : string) : Result ServerEnvConfig :=
  match find (fun s => String.eqb (code s) serverCode) (servers config) with
  | Some srv => Ok srv
  | None => Err ("Server config not found for code: " ++ serverCode)
  end.

Definition with_signal (url_ : string) (options : RequestInit) : Request :=
  {| url := url_; init := options; signal_timeout := Some 15000 |}.

(** The body of the [for] loop of [fetchWithRetry], for the attempts
    [attempt, attempt + 1, ...] that remain; [left] counts them. *)
Fixpoint fetch_attempts (url_ : string) (options : RequestInit) (retries : nat)
    (left : nat) (attempt : nat) (lastError : option Error) : Async Response :=
  match left with
  | O =>
      match lastError with
      | Some e => Throw e
      | None => Throw "null"
      end
  | S left' =>
      let* outcome := await (Fetch (with_signal url_ options)) in
      match outcome with
      | Responded response => Ret response
      | NetworkError e =>
          do (if Z.of_nat attempt <? Z.of_nat retries - 1 then
                let delay := 2 ^ Z.of_nat attempt * 1000 in
                do logger LWarn "Fetch retry" then
                await (Sleep delay)
              else Ret tt) then
          fetch_attempts url_ options retries left' (S attempt) (Some e)
      end
  end.

Definition fetchWithRetry (url_ : string) (options : RequestInit) (retries : nat)
  : Async Response :=
  fetch_attempts url_ options retries retries 0%nat None.

Definition default_retries : nat := 3.

(** [s.split(';')[0]] *)
Fixpoint before_semicolon (s : string) : string :=
  match s with
  | EmptyString => EmptyString
  | String c rest =>
      if Ascii.eqb c ";" then EmptyString else String c (before_semicolon rest)
  end.

Definition login_init (srv : ServerEnvConfig) : RequestInit :=
  {| method := "POST";
     headers := [("Content-Type", "application/x-www-form-urlencoded")];
     body := Some (FormBody [("username", panelUsername srv);
                             ("password", panelPassword srv)]) |}.

Definition login (serverCode : string) : Async string :=
  let* srv := of_result (getServerConfig serverCode) in
  let url_ := panelUrl srv ++ "/login" in
  let* res := fetchWithRetry url_ (login_init srv) default_retries in
  if negb (ok res) then
    Throw ("Login failed for " ++ serverCode ++ ": " ++ pretty (resp_status res)
             ++ " " ++ status_text res)
  else
    match set_cookie res with
    | None => Throw ("No session cookie returned for " ++ serverCode)
    | Some "" => Throw ("No session cookie returned for " ++ serverCode)
    | Some setCookie =>
        let cookie := before_semicolon setCookie in
        do write (fun m => set_sessions m (<[serverCode := cookie]> (sessions m))) then
        do logger LDebug "3X-UI login successful" then
        Ret cookie
    end.

Definition ensureSession (serverCode : string) : Async string :=
  let* cached := read (fun m => sessions m !! serverCode) in
  match cached with
  | None => login serverCode
  | Some "" => login serverCode
  | Some cookie => Ret cookie
  end.

Definition api_init (method_ sessionCookie : string) (body_ : option Json.t)
  : RequestInit :=
  {| method := method_;
     headers := [("Cookie", sessionCookie); ("Content-Type", "application/json")];
     body := match body_ with
             | Some v => Some (JsonBody v)
             | None => None
             end |}.

Definition api_error (serverCode method_ path : string) (res : Response) : Error :=
  "3X-UI API error [" ++ serverCode ++ "] " ++ method_ ++ " " ++ path ++ ": "
    ++ pretty (resp_status res) ++ " " ++ resp_text res.

Definition api_failed (serverCode method_ path : string) (json : Json.t) : Error :=
  "3X-UI API failed [" ++ serverCode ++ "] " ++ method_ ++ " " ++ path ++ ": "
    ++ Json.str_or (Json.field "msg" json) "unknown error".

(** The tail of [apiRequest], from [if (!res.ok)] on: what becomes of
    the response that is finally kept. *)
Definition envelope_result (serverCode method_ path : string) (res : Response)
  : Result Json.t :=
  if negb (ok res) then Err (api_error serverCode method_ path res)
  else
    match resp_json res with
    | None => Err "Unexpected token in JSON"
    | Some Json.JNull => Err "Cannot read properties of null (reading 'success')"
    | Some json =>
        if negb (Json.truthy (Json.field "success" json))
        then Err (api_failed serverCode method_ path json)
        else Ok (Json.field "obj" json)
    end.

Definition apiRequest (serverCode method_ path : string) (body_ : option Json.t)
  : Async Json.t :=
  let* srv := of_result (getServerConfig serverCode) in
  let url_ := panelUrl srv ++ path in
  let* cookie := ensureSession serverCode in
  let doRequest (sessionCookie : string) : Async Response :=
    fetchWithRetry url_ (api_init method_ sessionCookie body_) default_retries in
  let* res := doRequest cookie in
  let* res :=
    (if resp_status res =? 401 then
       do logger LInfo "Session expired, re-logging in" then
       let* cookie := login serverCode in
       doRequest cookie
     else Ret res) in
  of_result (envelope_result serverCode method_ path res).

(** *** Public API *)

Definition clientSettings (uuid email : string) (limitIp trafficBytes expiry : Z)
  : Json.t :=
  Json.JObj [("id", Json.JStr uuid); ("flow", Json.JStr "xtls-rprx-vision");
             ("email", Json.JStr email); ("limitIp", Json.JNum limitIp);
             ("totalGB", Json.JNum trafficBytes); ("expiryTime", Json.JNum expiry);
             ("enable", Json.JBool true); ("tgId", Json.JStr "");
             ("subId", Json.JStr ""); ("reset", Json.JNum 0)].

(** The [settings] property travels as a JSON-encoded string; here it
    is kept as the value that is encoded. *)
Definition addClient (serverCode uuid email : string)
    (limitIp trafficBytes expiryTimestampMs : Z) : Async unit :=
  let* srv := of_result (getServerConfig serverCode) in
  let* _ := apiRequest serverCode "POST" "/panel/api/inbounds/addClient"
              (Some (Json.JObj
                 [("id", Json.JNum (inboundId srv));
                  ("settings",
                   Json.JObj [("clients",
                     Json.JArr [clientSettings uuid email limitIp trafficBytes
                                  expiryTimestampMs])])])) in
  logger LInfo "Client added to 3X-UI".

Definition removeClient (serverCode clientUuid : string) : Async unit :=
  let* srv := of_result (getServerConfig serverCode) in
  let* _ := apiRequest serverCode "POST"
              ("/panel/api/inbounds/" ++ pretty (inboundId srv) ++ "/delClient/"
                 ++ clientUuid) None in
  logger LInfo "Client removed from 3X-UI".

Definition getClientTraffic (serverCode email : string) : Async XuiClientTraffic :=
  let* obj := apiRequest serverCode "GET"
                ("/panel/api/inbounds/getClientTraffics/" ++ email) None in
  if negb (Json.truthy obj) then
    Ret {| up := Json.JNum 0; down := Json.JNum 0; total := Some (Json.JNum 0) |}
  else
    let u := Json.or_zero (Json.field "up" obj) in
    let d := Json.or_zero (Json.field "down" obj) in
    Ret {| up := u; down := d; total := Json.plus u d |}.

(** The query string and the label are percent-encoded by the source;
    the encoding is left out here. *)
Definition buildVlessLink (serverCode uuid label_ : string) : Result string :=
  match getServerConfig serverCode with
  | Err e => Err e
  | Ok srv =>
      Ok ("vless://" ++ uuid ++ "@" ++ serverIp srv ++ ":" ++ pretty (serverPort srv)
            ++ "?type=tcp&security=reality&pbk=" ++ publicKey srv
            ++ "&fp=chrome&sni=" ++ sni srv ++ "&sid=" ++ shortId srv
            ++ "&flow=xtls-rprx-vision#" ++ label_)
  end.

Definition health_init : RequestInit :=
  {| method := "GET"; headers := []; body := None |}.

Definition healthCheck (serverCode : string) : Async bool :=
  try_catch
    (let* srv := of_result (getServerConfig serverCode) in
     let* res := fetchWithRetry (panelUrl srv ++ "/") health_init 2 in
     Ret (ok res || (resp_status res =? 302)))
    (fun _ => Ret false).

(** One element of [config.servers.map(async (srv) => ...)]: the probe
    of one endpoint, which stores its verdict in the shared
    [results] map when it completes. *)
Definition probe (srv : ServerEnvConfig) : Async (string * bool) :=
  let* up_ := healthCheck (code srv) in
  Ret (code srv, up_).

(** The pool of [healthCheckAll]: the promises that
    [config.servers.map(async (srv) => ...)] made, each at an [await] or
    at its end, and the [results] map they share. *)
Definition Pool : Type := list (Async (string * bool)) * gmap string bool.

(** The probe [i] has reached an [await] or its end; at its end it has
    stored its verdict, [results.set(srv.code, ok)]. *)
Definition store_verdict (i : nat) (p : Async (string * bool)) (pool : Pool) : Pool :=
  (<[i := p]> (fst pool),
   match p with
   | Ret (c, b) => <[c := b]> (snd pool)
   | _ => snd pool
   end).

(** One step of the pool after the other: [op i] for the indexes [i]
    of [order] in turn. *)
Fixpoint each {B} (op : nat -> Pool -> (Pool -> Async B) -> Async B)
    (order : list nat) (pool : Pool) (cont : Pool -> Async B) : Async B :=
  match order with
  | [] => cont pool
  | i :: rest => op i pool (fun pool' => each op rest pool' cont)
  end.

(** What [Promise.all] makes of the probe [i] once it is at an [await]
    or at its end: it rejects when the probe has thrown. *)
Definition settled {B} (i : nat) (p : Async (string * bool)) (pool : Pool)
    (cont : Pool -> Async B) : Async B :=
  match p with
  | Throw e => Throw e
  | _ => cont (store_verdict i p pool)
  end.

(** [config.servers.map(...)] calls the async function of the probe
    [i]: it runs up to its first [await]. *)
Definition start_probe {B} (i : nat) (pool : Pool) (cont : Pool -> Async B) : Async B :=
  match fst pool !! i with
  | Some p => drive p (fun p' => settled i p' pool cont)
  | None => cont pool
  end.

(** The call that the probe [i] awaits settles, and the probe runs up
    to its next [await] or to its end. *)
Definition resume_probe {B} (i : nat) (pool : Pool) (cont : Pool -> Async B)
  : Async B :=
  match fst pool !! i with
  | Some (Await c k) => Await c (fun a => drive (k a) (fun p' => settled i p' pool cont))
  | _ => cont pool
  end.

(** The probe [i], if it is still under way, runs to its end. *)
Definition finish_probe {B} (i : nat) (pool : Pool) (cont : Pool -> Async B)
  : Async B :=
  match fst pool !! i with
  | Some p =>
      if finished p then cont pool
      else complete p (fun r => settled i (of_result r) pool cont)
  | None => cont pool
  end.

(** [healthCheckAll]: [Promise.all] over the probes of the configured
    servers.  The probes are started one after the other; then they run
    side by side, the calls they await settling in the order
    [schedule], which names the probe of each call and which the
    network decides; the probes that are still under way when
    [schedule] is used up settle one after the other. *)
Definition healthCheckAll (schedule : list nat) : Async (gmap string bool) :=
  let probes := map probe (servers config) in
  let all := seq 0 (length probes) in
  each start_probe all (probes, ∅)
    (fun pool =>
       each resume_probe schedule pool
         (fun pool' => each finish_probe all pool' (fun pool'' => Ret (snd pool'')))).

End WithConfig.
End VpnManager.

(* ================================================================= *)
(** ** tariffs.ts *)

Module Tariffs.

Definition mk (i l : string) (p d m : Z) : Tariff :=
  {| id := i; label := l; price := p; days := d; minutes := None; maxDevices := m |}.

Definition ruTariffs : list Tariff :=
  [ mk "trial"   "Попробовать (1 день)"            0    1   1;
    mk "week"    "7 дней — 50 руб"                 50   7   2;
    mk "month"   "30 дней — 150 руб"               150  30  3;
    mk "quarter" "90 дней — 400 руб"               400  90  3;
    mk "year"    "1 год — 1200 руб (100 руб/мес)"  1200 365 3 ].

Definition nlTariffs : list Tariff :=
  [ mk "trial"   "Попробовать (1 день)"            0    1   1;
    mk "week"    "7 дней — 80 руб"                 80   7   2;
    mk "month"   "30 дней — 250 руб"               250  30  3;
    mk "quarter" "90 дней — 650 руб"               650  90  3;
    mk "year"    "1 год — 2000 руб (167 руб/мес)"  2000 365 3 ].

(** The names a plain object inherits from [Object.prototype]. *)
Definition inherited : list string :=
  ["constructor"; "__defineGetter__"; "__defineSetter__"; "hasOwnProperty";
   "__lookupGetter__"; "__lookupSetter__"; "isPrototypeOf"; "propertyIsEnumerable";
   "toString"; "valueOf"; "__proto__"; "toLocaleString"].

(** What [serverTariffs[serverCode]] reads: the list of one of the two
    keys of the table, a function or object inherited from
    [Object.prototype] (truthy, and no array), or [undefined]. *)
Inductive Property :=
| Own (tariffs : list Tariff)
| Inherited
| Absent.

Definition getServerTariffs (serverCode : string) : Property :=
  if String.eqb serverCode "ru" then Own ruTariffs
  else if String.eqb serverCode "nl" then Own nlTariffs
  else if existsb (String.eqb serverCode) inherited then Inherited
  else Absent.

(** [tariffs.find] of an inherited property is [undefined]: calling it
    throws a [TypeError]. *)
Definition getTariff (serverCode : string) (tariffId : TariffId)
  : Result (option Tariff) :=
  match getServerTariffs serverCode with
  | Absent => Ok None
  | Own tariffs => Ok (find (fun t => String.eqb (id t) tariffId) tariffs)
  | Inherited => Err "tariffs.find is not a function"
  end.

End Tariffs.

(* ================================================================= *)
(** ** payments.ts *)

Module Payments.
Section WithConfig.

Variable config : AppConfig.

Definition toggleSales : Async bool :=
  sync (fun m => (negb (salesBlocked m), set_salesBlocked m (negb (salesBlocked m)))).

(** The query string is percent-encoded by the source; the encoding is
    left out here. *)
Definition buildPayUrl (amount_ : Z) (label_ : string) : string :=
  "https://yoomoney.ru/quickpay/confirm?receiver=" ++ yoomoneyWallet config
    ++ "&quickpay-form=button&paymentType=AC&sum=" ++ pretty amount_
    ++ "&label=" ++ label_ ++ "&successURL=https://t.me".

Definition history_request (label_ : string) : Request :=
  {| url := "https://yoomoney.ru/api/operation-history";
     init := {| method := "POST";
                headers := [("Authorization", "Bearer " ++ yoomoneyToken config);
                            ("Content-Type", "application/x-www-form-urlencoded")];
                body := Some (FormBody [("type", "deposition"); ("label", label_);
                                        ("records", "1")]) |};
     signal_timeout := None |}.

Definition yoomoney_error : Async bool :=
  do logger LError "YooMoney API error" then Ret false.

Definition checkYooMoneyPayment (label_ : string) : Async bool :=
  if String.eqb (yoomoneyToken config) "" then Ret false
  else
    let* outcome := await (Fetch (history_request label_)) in
    match outcome with
    | NetworkError _ => yoomoney_error
    | Responded res =>
        match resp_json res with
        | None => yoomoney_error                     (* res.json() rejects *)
        | Some Json.JNull => yoomoney_error          (* data.operations throws *)
        | Some data =>
            let operations := Json.field "operations" data in
            if Json.truthy operations && Json.nonempty operations then
              match Json.first operations with
              | Json.JNull => yoomoney_error         (* operations[0].status throws *)
              | op =>
                  match Json.field "status" op with
                  | Json.JStr st => Ret (String.eqb st "success")
                  | _ => Ret false
                  end
              end
            else Ret false
        end
    end.

Definition generatePaymentLabel (userId : Z) (serverCode tariffId : string)
  : Async string :=
  let* rand := sync (fun m => (hex_source m (rand_n m), bump_rand m)) in
  Ret ("pay_" ++ pretty userId ++ "_" ++ serverCode ++ "_" ++ tariffId ++ "_" ++ rand).

Definition uuidv4 : Async string :=
  sync (fun m => (uuid_source m (rand_n m), bump_rand m)).

Definition upper (c : ascii) : ascii :=
  let n := nat_of_ascii c in
  if ((97 <=? n) && (n <=? 122))%nat then ascii_of_nat (n - 32) else c.

Fixpoint toUpperCase (s : string) : string :=
  match s with
  | EmptyString => EmptyString
  | String c rest => String (upper c) (toUpperCase rest)
  end.

Fixpoint slice_prefix (n : nat) (s : string) : string :=
  match n, s with
  | S n', String c rest => String c (slice_prefix n' rest)
  | _, _ => EmptyString
  end.

(** The text sent to the user, abridged to its variable parts. *)
Definition activation_message (tariff : Tariff) (server : Server)
    (expiresAtIso vlessLink : string) : string :=
  "<b>Подписка активирована!</b> " ++ label tariff ++ " " ++ srv_name server
    ++ " " ++ expiresAtIso ++ " <code>" ++ vlessLink ++ "</code>".

Definition qr_caption : string :=
  "QR-код для быстрого подключения — отсканируй в приложении".

(** "Calculate expiry" *)
Definition expiry_of (tariff : Tariff) (now : Z) : Z :=
  match minutes tariff with
  | Some mins =>
      if mins =? 0 then now + days tariff * 24 * 60 * 60000
      else now + mins * 60000
  | None => now + days tariff * 24 * 60 * 60000
  end.

Definition make_email (payment : Payment) (server : Server) (clientUuid : string)
  : string :=
  "tg_" ++ pretty (pay_telegram_id payment) ++ "_" ++ srv_code server
    ++ "_" ++ slice_prefix 8 clientUuid.

(** "Save subscription in DB", "Mark payment as completed", "Mark trial
    used": three statements with no [await] between them. *)
Definition record_activation (payment : Payment) (server : Server) (tariff : Tariff)
    (clientUuid clientEmail expiresAtIso : string) : Async Subscription :=
  (* Save subscription in DB (traffic_limit=0 = unlimited) *)
  let* created :=
    sync (fun m =>
            let '(r, d) :=
              Database.createSubscription (now_ms m)
                (pay_telegram_id payment) (srv_id server) clientUuid
                clientEmail (id tariff) expiresAtIso (maxDevices tariff) 0
                (db m) in
            (r, set_db m d)) in
  let* sub := of_result created in
  (* Mark payment as completed *)
  do write (fun m =>
              set_db m (Database.completePayment (now_ms m) (pay_id payment) (db m))) then
  (* Mark trial used *)
  do (if String.eqb (id tariff) "trial"
      then write (fun m =>
                    set_db m (Database.markTrialUsed (pay_telegram_id payment) (db m)))
      else Ret tt) then
  Ret sub.

(** "Build vless link", "Notify user", "Send QR code" *)
Definition notify_activation (payment : Payment) (server : Server) (tariff : Tariff)
    (clientUuid expiresAtIso : string) (sub : Subscription) : Async unit :=
  (* Build vless link *)
  let label_ :=
    "VPN-" ++ toUpperCase (srv_code server) ++ "-" ++ pretty (sub_id sub) in
  let* vlessLink :=
    of_result (VpnManager.buildVlessLink config (srv_code server) clientUuid label_) in
  (* Notify user *)
  let msg := activation_message tariff server expiresAtIso vlessLink in
  let* sent := await (Telegram (SendMessage (pay_telegram_id payment) msg)) in
  do of_result sent then
  (* Send QR code *)
  do try_catch
       (let* qr := await (QRCode vlessLink) in
        do of_result qr then
        let* photo := await (Telegram (SendPhoto (pay_telegram_id payment) qr_caption)) in
        of_result photo)
       (fun _ => logger LWarn "Failed to generate QR code") then
  logger LInfo "Subscription activated".

Definition activateSubscription (payment : Payment) : Async unit :=
  let* hasBot := read bot in
  if negb hasBot then Ret tt
  else
    let* server := read (fun m => Database.getServerById (pay_server_id payment) (db m)) in
    match server with
    | None => logger LError "Server not found for payment"
    | Some server =>
        let* found :=
          of_result (Tariffs.getTariff (srv_code server) (pay_tariff_id payment)) in
        match found with
        | None => logger LError "Tariff not found"
        | Some tariff =>
            (* Generate UUID and email *)
            let* clientUuid := uuidv4 in
            let clientEmail := make_email payment server clientUuid in
            (* Calculate expiry *)
            let* now := read now_ms in
            let expiryMs := expiry_of tariff now in
            let expiresAtIso := Clock.toISOString expiryMs in
            (* Add client to 3X-UI (trafficBytes=0 = unlimited) *)
            do VpnManager.addClient config (srv_code server) clientUuid clientEmail
                 (maxDevices tariff) 0 expiryMs then
            let* sub := record_activation payment server tariff clientUuid clientEmail
                          expiresAtIso in
            notify_activation payment server tariff clientUuid expiresAtIso sub
        end
    end.

(** The body of the [for] loop of [pollPendingPayments]. *)
Definition poll_one (payment : Payment) : Async unit :=
  match invoice_id payment with
  | None => Ret tt
  | Some "" => Ret tt
  | Some invoice =>
      try_catch
        (let* paid := checkYooMoneyPayment invoice in
         if paid then
           do logger LInfo "Polling: payment confirmed" then
           activateSubscription payment
         else Ret tt)
        (fun _ => logger LError "Polling check failed")
  end.

Definition pollPendingPayments : Async unit :=
  let* pending_ := read (fun m => Database.getPendingPayments (db m)) in
  for_of pending_ poll_one.

End WithConfig.
End Payments.

(* ================================================================= *)
(** ** handlers.ts *)

Module Handlers.
Section WithConfig.

Variable config : AppConfig.

(** The parts of a Telegraf context the handlers read. *)
Record Context := {
  from : option Z;                 (* ctx.from.id *)
  callbackData : option string;    (* ctx.callbackQuery.data *)
}.

Definition answerCbQuery (text : string) : Async unit :=
  let* r := await (Telegram (AnswerCbQuery text)) in of_result r.

Definition reply (text : string) : Async unit :=
  let* r := await (Telegram (Reply text)) in of_result r.

Definition editMessageText (text : string) : Async unit :=
  let* r := await (Telegram (EditMessageText text)) in of_result r.

(** [s.split(':')] *)
Fixpoint split_colon (s : string) : list string :=
  match s with
  | EmptyString => [EmptyString]
  | String c rest =>
      if Ascii.eqb c ":" then EmptyString :: split_colon rest
      else
        match split_colon rest with
        | [] => [String c EmptyString]
        | part :: parts => String c part :: parts
        end
  end.

(** [parts[i]]; an index past the end reads [undefined], which equals
    no server code and no tariff id.  It is rendered as the empty
    string, which equals none of them either. *)
Definition part (i : nat) (parts : list string) : string := nth i parts "".

Fixpoint drop_chars (n : nat) (s : string) : string :=
  match n, s with
  | S n', String _ rest => drop_chars n' rest
  | _, _ => s
  end.

(** [s.replace(pat, '')]: the first occurrence of [pat] is removed. *)
Fixpoint remove_first (pat s : string) : string :=
  if String.prefix pat s then drop_chars (String.length pat) s
  else
    match s with
    | EmptyString => EmptyString
    | String c rest => String c (remove_first pat rest)
    end.

Definition trial_used (user : option User) : bool :=
  match user with
  | Some u => usr_trial_used u =? 1
  | None => false
  end.

Definition createPayment (telegramId : Z) (tariffId : string) (serverId amount_ : Z)
    (invoiceId payload_ : string) : Async Payment :=
  let* r := sync (fun m =>
                    let '(r, d) :=
                      Database.createPayment (now_ms m) telegramId tariffId serverId
                        amount_ invoiceId payload_ (db m) in
                    (r, set_db m d)) in
  of_result r.

(** The text and buttons of the payment prompt, abridged. *)
Definition pay_prompt (tariff : Tariff) (payUrl label_ : string) : string :=
  "Оплата: " ++ pretty (price tariff) ++ " руб. " ++ payUrl ++ " check:" ++ label_.

Definition handleBuy (ctx : Context) : Async unit :=
  match callbackData ctx, from ctx with
  | None, _ => Ret tt
  | _, None => Ret tt
  | Some data, Some fromId =>
      let parts := split_colon data in
      let serverCode := part 1 parts in
      let tariffId := part 2 parts in
      let* server := read (fun m => Database.getServerByCode serverCode (db m)) in
      match server with
      | None => answerCbQuery "Сервер не найден"
      | Some server =>
          let* found := of_result (Tariffs.getTariff serverCode tariffId) in
          match found with
          | None => answerCbQuery "Тариф не найден"
          | Some tariff =>
              let* blocked := read salesBlocked in
              if blocked && (0 <? price tariff) then
                answerCbQuery "Продажи временно приостановлены"
              else
                let* user := read (fun m => Database.getUser fromId (db m)) in
                (* Trial *)
                if String.eqb (id tariff) "trial" then
                  if trial_used user then answerCbQuery "Триал уже использован"
                  else
                    (* For trial, create a fake payment and activate immediately *)
                    let* now := read now_ms in
                    let* payment :=
                      createPayment fromId (id tariff) (srv_id server) 0
                        ("trial_" ++ pretty fromId ++ "_" ++ pretty now) "" in
                    do Payments.activateSubscription config payment then
                    answerCbQuery "Триал активирован!"
                else
                  (* Paid tariff: create YooMoney payment link *)
                  do answerCbQuery "" then
                  let* label_ := Payments.generatePaymentLabel fromId serverCode tariffId in
                  let payUrl := Payments.buildPayUrl config (price tariff) label_ in
                  (* Save payment in DB (invoice_id = yoomoney label) *)
                  let* _ := createPayment fromId (id tariff) (srv_id server)
                              (price tariff) label_ "" in
                  editMessageText (pay_prompt tariff payUrl label_)
          end
      end
  end.

Definition handleCheckPayment (ctx : Context) : Async unit :=
  match callbackData ctx, from ctx with
  | None, _ => Ret tt
  | _, None => Ret tt
  | Some data, Some _ =>
      let label_ := remove_first "check:" data in
      let* _ := await (Import "./database") in
      let* payment := read (fun m => Database.getPaymentByInvoiceId label_ (db m)) in
      match payment with
      | None => answerCbQuery "Платёж не найден или уже обработан"
      | Some payment =>
          if negb (PaymentStatus_eqb (status payment) pending) then
            answerCbQuery "Платёж не найден или уже обработан"
          else
            do answerCbQuery "Проверяю..." then
            let* paid := Payments.checkYooMoneyPayment config label_ in
            if paid then Payments.activateSubscription config payment
            else reply "Оплата пока не поступила."
      end
  end.

(** [lines.join('\n')] *)
Fixpoint join_lines (lines : list string) : string :=
  match lines with
  | [] => EmptyString
  | [l] => l
  | l :: rest => l ++ String "010"%char (join_lines rest)
  end.

(** The lines [handleStatus] pushes for the subscriptions from the
    [i]-th on. *)
Fixpoint status_lines (now : Z) (i : Z) (subs : list SubscriptionWithServer)
  : list string :=
  match subs with
  | [] => []
  | s :: rest =>
      (pretty (i + 1) ++ ". " ++ srv_emoji (snd s) ++ " " ++ srv_name (snd s) ++ " — "
         ++ Helpers.formatTimeLeft now (expires_at (fst s)))
        :: "" :: status_lines now (i + 1) rest
  end.

Definition handleStatus (ctx : Context) : Async unit :=
  match from ctx with
  | None => Ret tt
  | Some fromId =>
      let* subs := read (fun m => Database.getActiveSubscriptions fromId (db m)) in
      match subs with
      | [] => reply "У тебя нет активных подписок."
      | _ =>
          let* now := read now_ms in
          reply (join_lines ("Твои подписки:" :: "" :: status_lines now 0 subs))
      end
  end.

End WithConfig.
End Handlers.

(* ================================================================= *)
(** ** cron.ts *)

Module Cron.
Section WithConfig.

Variable config : AppConfig.

(** The body of the [for] loop of the every-minute task. *)
Definition expire_one (sub : SubscriptionWithServer) : Async unit :=
  do try_catch
       (VpnManager.removeClient config (srv_code (snd sub)) (client_uuid (fst sub)))
       (fun _ => logger LError "Failed to remove expired client") then
  do write (fun m => set_db m (Database.deactivateSubscription (sub_id (fst sub)) (db m))) then
  do try_catch
       (let* r := await (Telegram (SendMessage (sub_telegram_id (fst sub))
                                     ("Подписка " ++ srv_emoji (snd sub) ++ " "
                                        ++ srv_name (snd sub) ++ " истекла."
                                        ++ String "010"%char "Купить новую: /start")))
        in of_result r)
       (fun _ => Ret tt) then
  logger LInfo "Expired subscription deactivated".

(** Every minute: check expired subscriptions. *)
Definition expirySweep : Async unit :=
  try_catch
    (let* expired_ :=
       read (fun m => Database.getExpiredSubscriptions (now_ms m) (db m)) in
     for_of expired_ expire_one)
    (fun _ => logger LError "Cron: expiry check failed").

Definition alert_one (results : gmap string bool) (srv : Server) : Async unit :=
  match results !! srv_code srv with
  | Some true => Ret tt
  | _ =>
      let msg := "Server " ++ srv_emoji srv ++ " " ++ srv_name srv
                   ++ " (" ++ srv_code srv ++ ") is DOWN" in
      do logger LWarn msg then
      do write (fun m => set_db m (Database.createAlert "server_down" msg (db m))) then
      try_catch
        (let* r := await (Telegram (SendMessage (adminId config) ("[ALERT] " ++ msg)))
         in of_result r)
        (fun _ => Ret tt)
  end.

(** Every 10 minutes: health check all servers.  [schedule] is the
    order in which the calls of the probes settle. *)
Definition healthSweep (schedule : list nat) : Async unit :=
  try_catch
    (let* results := VpnManager.healthCheckAll config schedule in
     let* servers_ := read (fun m => Database.getServers (db m)) in
     for_of servers_ (alert_one results))
    (fun _ => logger LError "Cron: health check failed").

(** Every hour: expire old pending payments. *)
Definition stalePaymentSweep : Async unit :=
  let* count :=
    sync (fun m =>
            let '(n, d) := Database.expireOldPayments (now_ms m) (db m) in
            (n, set_db m d)) in
  if 0 <? count then logger LInfo "Expired old pending payments" else Ret tt.

End WithConfig.
End Cron.

(* ================================================================= *)
(** * Vocabulary of the specification

    What can be observed of a run, the shapes runs are compared with,
    and a concrete deployment to run the code on. *)

Open Scope list_scope.

(** ** What a trace shows *)

(** The events a run added to the trace it started from. *)
Definition new_events (w w' : World) : list Event :=
  drop (length (trace w)) (trace w').

(** The [fetch] calls of a trace, each with how it settled. *)
Definition fetches (evs : list Event) : list (Request * FetchOutcome) :=
  flat_map (fun ev =>
              match ev with
              | Called c a =>
                  match c as c0 return Answer c0 -> list (Request * FetchOutcome) with
                  | Fetch req => fun out => [(req, out)]
                  | _ => fun _ => []
                  end a
              end) evs.

(** The delays of the [sleep] calls of a trace, in milliseconds. *)
Definition delays (evs : list Event) : list Z :=
  flat_map (fun ev =>
              match ev with
              | Called (Sleep ms) _ => [ms]
              | Called _ _ => []
              end) evs.

(** The responses received by the requests that satisfy [sel]. *)
Definition responses (sel : Request -> bool) (evs : list Event) : list Response :=
  flat_map (fun ro =>
              match snd ro with
              | Responded r => if sel (fst ro) then [r] else []
              | NetworkError _ => []
              end) (fetches evs).

(** Selects every request. *)
Definition any_request (_ : Request) : bool := true.

(** A panel API request carries the session in its Cookie header; the
    login request carries none. *)
Definition has_cookie (req : Request) : bool :=
  existsb (fun h => String.eqb (fst h) "Cookie") (headers (init req)).

(** The responses to the panel API requests of a trace. *)
Definition api_responses (evs : list Event) : list Response :=
  responses has_cookie evs.

(** The responses to the login requests of a trace. *)
Definition login_responses (evs : list Event) : list Response :=
  responses (fun req => negb (has_cookie req)) evs.

(** ** The courses a call can take *)

(** The shape of the calls made by the attempts [a, a + 1, ...] of a
    [fetchWithRetry] of budget [n], and the result they lead to. *)
Inductive Attempts (req : Request) (n : nat)
  : nat -> list Event -> Result Response -> Prop :=
| attempt_responded a r :
    Attempts req n a [Called (Fetch req) (Responded r)] (Ok r)
| attempt_exhausted a e :
    S a = n ->
    Attempts req n a [Called (Fetch req) (NetworkError e)] (Err e)
| attempt_retried a e (u : unit) evs res :
    (S a < n)%nat ->
    Attempts req n (S a) evs res ->
    Attempts req n a
      (Called (Fetch req) (NetworkError e)
         :: Called (Sleep (2 ^ Z.of_nat a * 1000)) u :: evs) res.

(** How many logins [ensureSession] needs: none when a session is
    cached, one otherwise. *)
Definition fresh_login (serverCode : string) (m : Mem) : nat :=
  match sessions m !! serverCode with
  | Some c => if String.eqb c "" then 1%nat else 0%nat
  | None => 1%nat
  end.

(** The possible courses of one [apiRequest], seen from the wire:
    the responses its API requests received, the number of responses
    its login requests received, and its result.  [first] is the number
    of logins needed to have a session at all, [unwrap] what becomes of
    the response that is kept. *)
Inductive ApiCourse (first : nat) (unwrap : Response -> Result Json.t)
  : list Response -> nat -> Result Json.t -> Prop :=
| course_unanswered logins e :
    (logins <= first)%nat ->
    ApiCourse first unwrap [] logins (Err e)
| course_settled r logins :
    resp_status r <> 401 -> logins = first ->
    ApiCourse first unwrap [r] logins (unwrap r)
| course_relogin_failed r logins e :
    resp_status r = 401 -> (logins <= first + 1)%nat ->
    ApiCourse first unwrap [r] logins (Err e)
| course_retried r1 r2 logins :
    resp_status r1 = 401 -> logins = (first + 1)%nat ->
    ApiCourse first unwrap [r1; r2] logins (unwrap r2).

(** The request [login] sends to an endpoint, and the request
    [doRequest] sends for an API call with a session cookie. *)
Definition login_request (srv : ServerEnvConfig) : Request :=
  VpnManager.with_signal (panelUrl srv ++ "/login") (VpnManager.login_init srv).

Definition api_request (srv : ServerEnvConfig) (method_ path sessionCookie : string)
    (body_ : option Json.t) : Request :=
  VpnManager.with_signal (panelUrl srv ++ path)
    (VpnManager.api_init method_ sessionCookie body_).

(** The cookie [login] takes from a response: none unless the status is
    2xx and the [set-cookie] header is present and not empty; then the
    header up to its first semicolon. *)
Definition granted (r : Response) : option string :=
  if ok r then
    match set_cookie r with
    | None => None
    | Some EmptyString => None
    | Some setCookie => Some (VpnManager.before_semicolon setCookie)
    end
  else None.

(** The calls of one [login] and what it returns: the attempts of the
    login request under the default budget, and the cookie of the
    response if it grants one. *)
Inductive LoginCourse (srv : ServerEnvConfig) : list Event -> Result string -> Prop :=
| login_granted evs r cookie :
    Attempts (login_request srv) VpnManager.default_retries 0 evs (Ok r) ->
    granted r = Some cookie ->
    LoginCourse srv evs (Ok cookie)
| login_refused evs r e :
    Attempts (login_request srv) VpnManager.default_retries 0 evs (Ok r) ->
    granted r = None ->
    LoginCourse srv evs (Err e)
| login_unreachable evs e :
    Attempts (login_request srv) VpnManager.default_retries 0 evs (Err e) ->
    LoginCourse srv evs (Err e).

(** The calls of [ensureSession]: none when a cookie that is not empty
    is cached, those of a login otherwise. *)
Inductive SessionCourse (srv : ServerEnvConfig) (cached : option string)
  : list Event -> Result string -> Prop :=
| session_cached cookie :
    cached = Some cookie -> cookie <> EmptyString ->
    SessionCourse srv cached [] (Ok cookie)
| session_login evs res :
    cached = None \/ cached = Some EmptyString ->
    LoginCourse srv evs res ->
    SessionCourse srv cached evs res.

(** All the calls of one [apiRequest] to a configured endpoint, in
    order, and its result.  [send cookie] is the API request carrying
    [cookie], [cached] the session cached for the endpoint beforehand,
    [unwrap] what becomes of the response that is kept. *)
Inductive Wire (srv : ServerEnvConfig) (send : string -> Request)
    (cached : option string) (unwrap : Response -> Result Json.t)
  : list Event -> Result Json.t -> Prop :=
| wire_no_session evs e :
    SessionCourse srv cached evs (Err e) ->
    Wire srv send cached unwrap evs (Err e)
| wire_unanswered evs0 cookie evs1 e :
    SessionCourse srv cached evs0 (Ok cookie) ->
    Attempts (send cookie) VpnManager.default_retries 0 evs1 (Err e) ->
    Wire srv send cached unwrap (evs0 ++ evs1) (Err e)
| wire_settled evs0 cookie evs1 r :
    SessionCourse srv cached evs0 (Ok cookie) ->
    Attempts (send cookie) VpnManager.default_retries 0 evs1 (Ok r) ->
    resp_status r <> 401 ->
    Wire srv send cached unwrap (evs0 ++ evs1) (unwrap r)
| wire_relogin_failed evs0 cookie evs1 r evs2 e :
    SessionCourse srv cached evs0 (Ok cookie) ->
    Attempts (send cookie) VpnManager.default_retries 0 evs1 (Ok r) ->
    resp_status r = 401 ->
    LoginCourse srv evs2 (Err e) ->
    Wire srv send cached unwrap (evs0 ++ evs1 ++ evs2) (Err e)
| wire_retry_unanswered evs0 cookie evs1 r evs2 cookie' evs3 e :
    SessionCourse srv cached evs0 (Ok cookie) ->
    Attempts (send cookie) VpnManager.default_retries 0 evs1 (Ok r) ->
    resp_status r = 401 ->
    LoginCourse srv evs2 (Ok cookie') ->
    Attempts (send cookie') VpnManager.default_retries 0 evs3 (Err e) ->
    Wire srv send cached unwrap (evs0 ++ evs1 ++ evs2 ++ evs3) (Err e)
| wire_retried evs0 cookie evs1 r evs2 cookie' evs3 r' :
    SessionCourse srv cached evs0 (Ok cookie) ->
    Attempts (send cookie) VpnManager.default_retries 0 evs1 (Ok r) ->
    resp_status r = 401 ->
    LoginCourse srv evs2 (Ok cookie') ->
    Attempts (send cookie') VpnManager.default_retries 0 evs3 (Ok r') ->
    Wire srv send cached unwrap (evs0 ++ evs1 ++ evs2 ++ evs3) (unwrap r').

(** The session cached for an endpoint after a login that returned
    [res], when [cached] was cached before it. *)
Definition cached_after (cached : option string) (res : Result string) : option string :=
  match res with
  | Ok cookie => Some cookie
  | Err _ => cached
  end.

(** The panel acknowledged an [addClient] for the endpoint: among the
    calls [evs], the request to the endpoint's [addClient] address got
    a 2xx response whose envelope says [success: true]. *)
Definition acknowledged (config : AppConfig) (serverCode : string) (evs : list Event)
  : Prop :=
  exists srv req r obj,
    VpnManager.getServerConfig config serverCode = Ok srv
    /\ In (req, Responded r) (fetches evs)
    /\ url req = (panelUrl srv ++ "/panel/api/inbounds/addClient")%string
    /\ VpnManager.envelope_result serverCode "POST" "/panel/api/inbounds/addClient" r
       = Ok obj.

(** [{ up: 0, down: 0, total: 0 }] *)
Definition zero_usage : XuiClientTraffic :=
  {| up := Json.JNum 0; down := Json.JNum 0; total := Some (Json.JNum 0) |}.

(** The path [getClientTraffic] queries. *)
Definition traffic_path (email : string) : string :=
  ("/panel/api/inbounds/getClientTraffics/" ++ email)%string.

(** ** What a program does on every run *)

(** [keeps R p]: every synchronous step of [p] relates the memory before
    it to the memory after it by [R], whatever the external calls
    answer. *)
Fixpoint keeps {A} (R : Mem -> Mem -> Prop) (p : Async A) : Prop :=
  match p with
  | Ret _ | Throw _ => True
  | Sync f k => (forall m, R m (snd (f m))) /\ (forall x, keeps R (k x))
  | Await c k => forall a, keeps R (k a)
  end.

(** A relation on memories that the passing of time does not break. *)
Record frame (R : Mem -> Mem -> Prop) : Prop := {
  frame_refl : forall m, R m m;
  frame_trans : forall m1 m2 m3, R m1 m2 -> R m2 m3 -> R m1 m3;
  frame_clock : forall m t, R m (set_now m t);
}.

(** The database is left as it was. *)
Definition same_db (m m' : Mem) : Prop := db m' = db m.

(** The cached sessions are left as they were. *)
Definition same_sessions (m m' : Mem) : Prop := sessions m' = sessions m.

(** [always Q p]: whatever the memory holds and whatever the external
    calls answer, [p] ends with a result that satisfies [Q]. *)
Fixpoint always {A} (Q : Result A -> Prop) (p : Async A) : Prop :=
  match p with
  | Ret a => Q (Ok a)
  | Throw e => Q (Err e)
  | Sync f k => forall x, always Q (k x)
  | Await c k => forall a, always Q (k a)
  end.

(** [Steps p tr p']: the task [p] becomes [p'] while the calls of
    [tr] settle, in this order. *)
Fixpoint Steps {X} (p : Async X) (tr : list Event) (p' : Async X) : Prop :=
  (tr = [] /\ p' = p)
  \/ match p with
     | Sync f k => exists y, Steps (k y) tr p'
     | Await c k => exists a tr', tr = Called c a :: tr' /\ Steps (k a) tr' p'
     | _ => False
     end.

(** A task at a suspension point or at its end: no synchronous step is
    pending. *)
Definition suspended_or_finished {A} (p : Async A) : Prop :=
  match p with
  | Sync _ _ => False
  | _ => True
  end.

(** The events of the probe [i] among the events [evs] of a pool, when
    [owners] names the probe that each event belongs to. *)
Fixpoint events_of (i : nat) (owners : list nat) (evs : list Event) : list Event :=
  match owners, evs with
  | o :: owners', ev :: evs' =>
      if (o =? i)%nat then ev :: events_of i owners' evs' else events_of i owners' evs'
  | _, _ => []
  end.

(** The request of the liveness probe of an endpoint. *)
Definition probe_request (srv : ServerEnvConfig) : Request :=
  VpnManager.with_signal (panelUrl srv ++ "/") VpnManager.health_init.

(** The courses of one liveness probe: the calls it makes and its
    verdict. *)
Inductive Probed (req : Request) : list Event -> bool -> Prop :=
| probed_at_once r :
    Probed req [Called (Fetch req) (Responded r)] (ok r || (resp_status r =? 302))
| probed_on_retry e r :
    Probed req [Called (Fetch req) (NetworkError e); Called (Sleep 1000) tt;
                Called (Fetch req) (Responded r)]
      (ok r || (resp_status r =? 302))
| probed_down e1 e2 :
    Probed req [Called (Fetch req) (NetworkError e1); Called (Sleep 1000) tt;
                Called (Fetch req) (NetworkError e2)]
      false.

(** ** The pool of probes *)

(** What holds of the pool of [healthCheckAll] and of the world at every
    step, when the pool started from the tasks [ts0] and the trace
    [before]: each task has come from its initial state by the events
    that are its own, and every entry of [results] is the verdict of a
    task that has finished. *)
Record Good (ts0 : list (Async (string * bool))) (before : list Event)
    (owners : list nat) (evs : list Event) (pool : VpnManager.Pool) (w : World) : Prop := {
  good_trace : trace w = before ++ evs;
  good_owners : length owners = length evs;
  good_valid : Forall (fun o => (o < length ts0)%nat) owners;
  good_length : length (fst pool) = length ts0;
  good_steps : forall i t0, ts0 !! i = Some t0 ->
                 exists t, fst pool !! i = Some t /\ Steps t0 (events_of i owners evs) t;
  good_from : forall c b, snd pool !! c = Some b ->
                exists i, fst pool !! i = Some (Ret (c, b));
}.

(** The verdict of the task [i], if it has finished, is in [results]. *)
Definition stored (i : nat) (pool : VpnManager.Pool) : Prop :=
  forall c b, fst pool !! i = Some (Ret (c, b)) -> is_Some (snd pool !! c).

(** The task [i] has finished. *)
Definition done (i : nat) (pool : VpnManager.Pool) : Prop :=
  forall t, fst pool !! i = Some t -> finished t = true.

(** What a step keeps. *)
Definition grows (pool pool' : VpnManager.Pool) : Prop :=
  (forall j, stored j pool -> stored j pool')
  /\ (forall j, done j pool -> done j pool').

(** ** States of the world and of the store *)

(** The world after one more line of log. *)
Definition with_log (w : World) (lvl : LogLevel) (msg : string) : World :=
  {| mem := add_log (mem w) lvl msg; calls := calls w; trace := trace w |}.

(** The world after [uuidv4()] has drawn from the random source. *)
Definition after_uuid (w : World) : World :=
  {| mem := bump_rand (mem w); calls := calls w; trace := trace w |}.

(** The world with the database replaced. *)
Definition with_db (w : World) (d : Database.t) : World :=
  {| mem := set_db (mem w) d; calls := calls w; trace := trace w |}.

(** The world with the payments table replaced. *)
Definition with_payments (w : World) (ps : list Payment) : World :=
  {| mem := set_db (mem w)
              {| Database.servers := Database.servers (db (mem w));
                 Database.users := Database.users (db (mem w));
                 Database.subscriptions := Database.subscriptions (db (mem w));
                 Database.payments := ps;
                 Database.alerts := Database.alerts (db (mem w));
                 Database.seq_subscriptions := Database.seq_subscriptions (db (mem w));
                 Database.seq_payments := Z.of_nat (length ps) |};
     calls := calls w; trace := trace w |}.

(** The world with the clock set. *)
Definition at_time (t : Z) (w : World) : World :=
  {| mem := set_now (mem w) t; calls := calls w; trace := trace w |}.

(** The invoice key [handleBuy] gives a trial payment. *)
Definition trial_invoice (fromId now : Z) : string :=
  ("trial_" ++ pretty fromId ++ "_" ++ pretty now)%string.

(** What the three statements of [record_activation] leave in the
    database once the subscription row [d1] has been inserted. *)
Definition recorded (payment : Payment) (tariff : Tariff) (now : Z) (d1 : Database.t)
  : Database.t :=
  let d2 := Database.completePayment now (pay_id payment) d1 in
  if String.eqb (id tariff) "trial"
  then Database.markTrialUsed (pay_telegram_id payment) d2
  else d2.

(** [deactivateSubscription] applied for every row of a list. *)
Definition deactivate_all (l : list SubscriptionWithServer) (d : Database.t)
  : Database.t :=
  fold_left (fun d sub => Database.deactivateSubscription (sub_id (fst sub)) d) l d.

(** The rows of the payments table whose status differs between two
    states of the database. *)
Definition changed_payments (d d' : Database.t) : nat :=
  length (List.filter (fun pp => negb (PaymentStatus_eqb (status (fst pp)) (status (snd pp))))
            (combine (Database.payments d) (Database.payments d'))).

(** The payment was pending and was created 24 hours before [now] or
    earlier, in the text order of SQLite timestamps. *)
Definition due (now : Z) (p : Payment) : Prop :=
  status p = pending
  /\ Clock.text_le (pay_created_at p) (Clock.sqlite_datetime (now - Clock.hours 24)) = true.

(** The payment carrying this invoice key is absent or no longer
    pending. *)
Definition settled_or_absent (label_ : string) (d : Database.t) : Prop :=
  match Database.getPaymentByInvoiceId label_ d with
  | Some p => status p <> pending
  | None => True
  end.

(** The two activation paths: a tick of the scheduled poll, and the
    check a user asks for. *)
Inductive Trigger :=
| PollTick
| ManualCheck (ctx : Handlers.Context).

Definition trigger (config : AppConfig) (t : Trigger) : Async unit :=
  match t with
  | PollTick => Payments.pollPendingPayments config
  | ManualCheck ctx => Handlers.handleCheckPayment config ctx
  end.

(** Triggers run in turn: each starts when the one before it has
    returned. *)
Fixpoint in_turn (env : Oracle) (config : AppConfig) (ts : list Trigger) (w : World)
  : World :=
  match ts with
  | [] => w
  | t :: rest => in_turn env config rest (snd (run env (trigger config t) w))
  end.

(** The subscriptions recorded, and the payments that can still lead to
    one. *)
Definition grants_and_pending (d : Database.t) : nat :=
  length (Database.subscriptions d) + length (Database.getPendingPayments d).

(** The keys of the payment rows, in row order. *)
Definition payment_ids (d : Database.t) : list Z := map pay_id (Database.payments d).

(** What a trigger may do to a payment row: leave it as it is, or turn
    it from pending to completed. *)
Definition settles (p p' : Payment) : Prop :=
  p' = p
  \/ (status p = pending /\ exists done, p' = Database.set_status completed done p).

(* ================================================================= *)
(** * A concrete deployment

    One configured endpoint, one registered user, and a few ways the
    outside world can behave.  Used to run the code on explicit
    inputs. *)

Module Scenario.

Definition ru : ServerEnvConfig :=
  {| code := "ru"; panelUrl := "https://ru.example"; panelUsername := "admin";
     panelPassword := "secret"; inboundId := 1; serverIp := "203.0.113.1";
     serverPort := 443; publicKey := "PBK"; shortId := "ab"; sni := "example.com" |}.

Definition config : AppConfig :=
  {| adminId := 1; yoomoneyToken := "token"; yoomoneyWallet := "4100";
     servers := [ru] |}.

Definition srv_ru : Server :=
  {| srv_id := 1; srv_code := "ru"; srv_name := "Russia"; srv_emoji := "RU";
     srv_is_active := 1 |}.

Definition alice : User :=
  {| usr_telegram_id := 42; usr_username := "alice"; usr_first_name := "Alice";
     usr_is_blocked := 0; usr_trial_used := 0 |}.

Definition db0 : Database.t :=
  {| Database.servers := [srv_ru]; Database.users := [alice];
     Database.subscriptions := []; Database.payments := []; Database.alerts := [];
     Database.seq_subscriptions := 0; Database.seq_payments := 0 |}.

(** 2026-10-31 10:00:00 UTC *)
Definition t0 : Z := 1793440800000.

Definition mem0 : Mem :=
  {| db := db0; sessions := <["ru" := "3x-ui=abc"]> ∅; salesBlocked := false;
     bot := true; now_ms := t0;
     uuid_source := fun n => ("0123abcd-0000-4000-8000-00000000000" ++ pretty n)%string;
     hex_source := fun _ => "deadbeef"; rand_n := 0; log := [] |}.

Definition start (m : Mem) : World := {| mem := m; calls := 0; trace := [] |}.

Definition w0 : World := start mem0.

Definition reply_with (st : Z) (j : option Json.t) : Response :=
  {| resp_status := st; status_text := ""; set_cookie := None; resp_text := ""; resp_json := j |}.

Definition panel_ok : Json.t :=
  Json.JObj [("success", Json.JBool true); ("obj", Json.JNull)].

Definition gateway_paid : Json.t :=
  Json.JObj [("operations", Json.JArr [Json.JObj [("status", Json.JStr "success")]])].

(** An oracle from how [fetch] settles; every other call succeeds. *)
Definition oracle (net : nat -> Request -> FetchOutcome) : Oracle :=
  fun n c =>
    match c with
    | Fetch req => net n req
    | Sleep _ => tt
    | Telegram _ => Ok tt
    | QRCode _ => Ok tt
    | Import _ => tt
    end.

(** The panel accepts everything and the gateway reports every deposit. *)
Definition all_well : Oracle :=
  oracle (fun _ req =>
            Responded (if String.prefix "https://yoomoney.ru" (url req)
                       then reply_with 200 (Some gateway_paid)
                       else reply_with 200 (Some panel_ok))).

(** No request gets through. *)
Definition unreachable : Oracle := oracle (fun _ _ => NetworkError "ECONNRESET").

(** The panel answers every request with a server error. *)
Definition panel_broken : Oracle :=
  oracle (fun _ _ => Responded (reply_with 500 None)).

End Scenario.

(** ** Situations of that deployment *)

(** A trial payment of the registered user, as [handleBuy] inserts it. *)
Definition trial_payment : Payment :=
  {| pay_id := 1; pay_telegram_id := 42; pay_tariff_id := "trial"; pay_server_id := 1;
     amount := 0; currency := "RUB"; status := pending;
     invoice_id := Some "trial_42_1793440800000"; payload := Some "";
     pay_created_at := "2026-10-31 10:00:00"; completed_at := None |}.

(** A payment that refers to an endpoint with no row in [servers]. *)
Definition orphan_payment : Payment :=
  {| pay_id := 7; pay_telegram_id := 42; pay_tariff_id := "month"; pay_server_id := 99;
     amount := 150; currency := "RUB"; status := pending;
     invoice_id := Some "pay_42_xx_month_deadbeef"; payload := Some "";
     pay_created_at := "2026-10-31 10:00:00"; completed_at := None |}.

(** A payment created at [Scenario.t0] through [createPayment]. *)
Definition db_with_fresh_payment : Database.t :=
  snd (Database.createPayment Scenario.t0 42 "month" 1 150 "pay_42_ru_month_deadbeef" ""
         Scenario.db0).

(** A paid order of the registered user, still pending, and the manual
    check for it. *)
Definition w_paid : World :=
  {| mem := set_db Scenario.mem0 db_with_fresh_payment; calls := 0; trace := [] |}.

(** The registered user presses the check button of that order. *)
Definition check_paid : Handlers.Context :=
  {| Handlers.from := Some 42;
     Handlers.callbackData := Some "check:pay_42_ru_month_deadbeef" |}.

(** The world after one poll tick that found the order paid. *)
Definition after_poll : World :=
  snd (run Scenario.all_well (Payments.pollPendingPayments Scenario.config) w_paid).

(** The poll task and the manual check, run as two tasks of the event
    loop. *)
Definition poll_and_check : list (Async unit) :=
  [Payments.pollPendingPayments Scenario.config;
   Handlers.handleCheckPayment Scenario.config check_paid].

(** The check reads the payment while the poll awaits the gateway. *)
Definition overlapping : list nat := [0; 1; 1; 0; 0; 0; 0; 0; 1; 1; 1; 1; 1; 1]%nat.

(** The check starts when the poll has finished. *)
Definition one_after_the_other : list nat :=
  [0; 0; 0; 0; 0; 0; 1; 1; 1; 1; 1; 1; 1; 1]%nat.

(** The registered user presses the trial button of the endpoint. *)
Definition buy_trial : Handlers.Context :=
  {| Handlers.from := Some 42; Handlers.callbackData := Some "buy:ru:trial" |}.

(** The world after the registered user took the trial at
    [Scenario.t0], 2026-10-31 10:00:00 UTC. *)
Definition after_trial : World :=
  snd (run Scenario.all_well (Handlers.handleBuy Scenario.config buy_trial) Scenario.w0).

(** 2026-11-01 23:00:00 UTC, thirteen hours after the trial ran out. *)
Definition evening_after : Z := 1793574000000.

(** 2026-11-02 00:00:00 UTC *)
Definition next_midnight : Z := 1793577600000.

(** Three endpoints, the second of them unreachable. *)
Definition three_endpoints : AppConfig :=
  let nl := {| code := "nl"; panelUrl := "https://nl.example"; panelUsername := "admin";
               panelPassword := "secret"; inboundId := 1; serverIp := "203.0.113.2";
               serverPort := 443; publicKey := "PBK"; shortId := "cd";
               sni := "example.com" |} in
  let de := {| code := "de"; panelUrl := "https://de.example"; panelUsername := "admin";
               panelPassword := "secret"; inboundId := 1; serverIp := "203.0.113.3";
               serverPort := 443; publicKey := "PBK"; shortId := "ef";
               sni := "example.com" |} in
  {| adminId := 1; yoomoneyToken := "token"; yoomoneyWallet := "4100";
     servers := [Scenario.ru; nl; de] |}.

Definition nl_down : Oracle :=
  Scenario.oracle
    (fun _ req => if String.prefix "https://nl.example" (url req)
                  then NetworkError "ETIMEDOUT"
                  else Responded (Scenario.reply_with 200 None)).


(* ================================================================= *)
(** * Timestamp texts *)

Example toISOString_sample :
  Clock.toISOString 1793527200123 = "2026-11-01T10:00:00.123Z".
Proof. vm_compute. reflexivity. Qed.

Example sqlite_datetime_sample :
  Clock.sqlite_datetime 1793574000999 = "2026-11-01 23:00:00".
Proof. vm_compute. reflexivity. Qed.

Example sqlite_datetime_leap_day :
  Clock.sqlite_datetime 1709251199000 = "2024-02-29 23:59:59".
Proof. vm_compute. reflexivity. Qed.

Example parse_utc_of_toISOString :
  Helpers.parse_utc (Clock.toISOString 1793527200123) = Some 1793527200123.
Proof. vm_compute. reflexivity. Qed.

Example parse_utc_of_sqlite_datetime :
  Helpers.parse_utc (Clock.sqlite_datetime 1709251199000 ++ "Z")%string
  = Some 1709251199000.
Proof. vm_compute. reflexivity. Qed.


(* ================================================================= *)
(** * Reasoning about runs *)

Section RunLemmas.

Variable env : Oracle.

Lemma run_bind {A B} (p : Async A) (q : A -> Async B) (w : World) :
  run env (bind p q) w =
  match run env p w with
  | (Ok a, w1) => run env (q a) w1
  | (Err e, w1) => (Err e, w1)
  end.
Proof.
  revert w. induction p as [a | e | X f k IH | c k IH]; intros w; simpl.
  - reflexivity.
  - reflexivity.
  - destruct (f (mem w)) as [x m]. apply IH.
  - destruct (settle_call env c w) as [a w1]. apply IH.
Qed.

Lemma run_try_catch {A} (p : Async A) (h : Error -> Async A) (w : World) :
  run env (try_catch p h) w =
  match run env p w with
  | (Ok a, w1) => (Ok a, w1)
  | (Err e, w1) => run env (h e) w1
  end.
Proof.
  revert w. induction p as [a | e | X f k IH | c k IH]; intros w; simpl.
  - reflexivity.
  - reflexivity.
  - destruct (f (mem w)) as [x m]. apply IH.
  - destruct (settle_call env c w) as [a w1]. apply IH.
Qed.

Lemma run_of_result {A} (r : Result A) (w : World) :
  run env (of_result r) w = (r, w).
Proof. destruct r; reflexivity. Qed.

(** A run only ever appends to the trace, one event per settled call. *)
Lemma run_trace {A} (p : Async A) (w : World) :
  exists evs,
    trace (snd (run env p w)) = trace w ++ evs
    /\ calls (snd (run env p w)) = (calls w + length evs)%nat.
Proof.
  revert w. induction p as [a | e | X f k IH | c k IH]; intros w; simpl.
  - exists []. rewrite app_nil_r. simpl. split; [reflexivity | lia].
  - exists []. rewrite app_nil_r. simpl. split; [reflexivity | lia].
  - destruct (f (mem w)) as [x m].
    destruct (IH x {| mem := m; calls := calls w; trace := trace w |})
      as (evs & Ht & Hc).
    exists evs. split; assumption.
  - unfold settle_call.
    destruct (IH (env (calls w) c)
                {| mem := match c with
                          | Sleep ms => set_now (mem w) (now_ms (mem w) + ms)
                          | _ => mem w
                          end;
                   calls := S (calls w);
                   trace := trace w ++ [Called c (env (calls w) c)] |})
      as (evs & Ht & Hc).
    exists (Called c (env (calls w) c) :: evs). simpl in *. split.
    + rewrite Ht. rewrite <- app_assoc. reflexivity.
    + rewrite Hc. simpl. lia.
Qed.

End RunLemmas.

Lemma new_events_run {A} env (p : Async A) (w : World) :
  trace (snd (run env p w)) = trace w ++ new_events w (snd (run env p w)).
Proof.
  destruct (run_trace env p w) as (evs & Ht & _).
  unfold new_events. rewrite Ht. rewrite drop_app_length. reflexivity.
Qed.

(** *** What a trace shows *)

Lemma fetches_app evs1 evs2 : fetches (evs1 ++ evs2) = fetches evs1 ++ fetches evs2.
Proof. unfold fetches. apply flat_map_app. Qed.

Lemma delays_app evs1 evs2 : delays (evs1 ++ evs2) = delays evs1 ++ delays evs2.
Proof. unfold delays. apply flat_map_app. Qed.

Lemma responses_app sel evs1 evs2 :
  responses sel (evs1 ++ evs2) = responses sel evs1 ++ responses sel evs2.
Proof. unfold responses. rewrite fetches_app. apply flat_map_app. Qed.

(** *** fetchWithRetry *)

Section FetchLemmas.

Variable env : Oracle.

Lemma fetch_attempts_shape url_ options retries left attempt lastError w res w' :
  (attempt + left = retries)%nat -> (1 <= left)%nat ->
  run env (VpnManager.fetch_attempts url_ options retries left attempt lastError) w
    = (res, w') ->
  exists evs,
    trace w' = trace w ++ evs
    /\ Attempts (VpnManager.with_signal url_ options) retries attempt evs res.
Proof.
  revert attempt lastError w.
  induction left as [| left' IH]; intros attempt lastError w Hsum Hpos Hrun; [lia |].
  cbn [VpnManager.fetch_attempts] in Hrun. rewrite run_bind in Hrun.
  cbn [await run] in Hrun. unfold settle_call in Hrun. cbn [mem] in Hrun.
  destruct (env (calls w) (Fetch (VpnManager.with_signal url_ options)))
    as [e | r] eqn:Hout; cbn [run] in Hrun.
  - (* the attempt is rejected *)
    destruct (Z.of_nat attempt <? Z.of_nat retries - 1) eqn:Hlt.
    + apply Z.ltb_lt in Hlt.
      rewrite !run_bind in Hrun. cbn in Hrun.
      apply IH in Hrun; [| lia | lia].
      destruct Hrun as (evs & Ht & Hs).
      eexists. split.
      * rewrite Ht. cbn. rewrite <- !app_assoc. reflexivity.
      * apply attempt_retried; [lia | exact Hs].
    + apply Z.ltb_ge in Hlt.
      assert (left' = 0%nat) by lia. subst left'.
      rewrite run_bind in Hrun. cbn in Hrun. inversion Hrun; subst.
      eexists. split; [reflexivity |].
      apply attempt_exhausted. lia.
  - (* the attempt gets a response *)
    inversion Hrun; subst.
    eexists. split; [reflexivity |].
    apply attempt_responded.
Qed.

End FetchLemmas.

(** *** Frames: what a program leaves alone *)

Lemma keeps_bind {A B} R (p : Async A) (q : A -> Async B) :
  keeps R p -> (forall a, keeps R (q a)) -> keeps R (bind p q).
Proof.
  intros Hp Hq. induction p as [a | e | X f k IH | c k IH]; simpl in *.
  - apply Hq.
  - exact I.
  - destruct Hp as [Hf Hk]. split; [exact Hf | intros x; apply IH, Hk].
  - intros a. apply IH, Hp.
Qed.

Lemma keeps_try_catch {A} R (p : Async A) (h : Error -> Async A) :
  keeps R p -> (forall e, keeps R (h e)) -> keeps R (try_catch p h).
Proof.
  intros Hp Hh. induction p as [a | e | X f k IH | c k IH]; simpl in *.
  - exact I.
  - apply Hh.
  - destruct Hp as [Hf Hk]. split; [exact Hf | intros x; apply IH, Hk].
  - intros a. apply IH, Hp.
Qed.

Lemma keeps_for_of {X} R (xs : list X) (body : X -> Async unit) :
  (forall x, keeps R (body x)) -> keeps R (for_of xs body).
Proof.
  intros Hb. induction xs as [| x rest IH]; simpl; [exact I |].
  apply keeps_bind; [apply Hb | intros _; exact IH].
Qed.

Lemma keeps_of_result {A} R (r : Result A) : keeps R (of_result r).
Proof. destruct r; exact I. Qed.

Lemma run_keeps {A} R env (p : Async A) (w : World) :
  frame R -> keeps R p -> R (mem w) (mem (snd (run env p w))).
Proof.
  intros HR. revert w.
  induction p as [a | e | X f k IH | c k IH]; intros w Hp; simpl in *.
  - apply (frame_refl R HR).
  - apply (frame_refl R HR).
  - destruct Hp as [Hf Hk]. specialize (Hf (mem w)).
    destruct (f (mem w)) as [x m]. simpl in Hf.
    eapply (frame_trans R HR); [exact Hf |].
    apply (IH x {| mem := m; calls := calls w; trace := trace w |}), Hk.
  - unfold settle_call.
    eapply (frame_trans R HR); [| apply IH, Hp]. simpl.
    destruct c; try apply (frame_refl R HR). apply (frame_clock R HR).
Qed.

Lemma frame_same_db : frame same_db.
Proof.
  split; unfold same_db.
  - reflexivity.
  - intros m1 m2 m3 H12 H23. congruence.
  - reflexivity.
Qed.


Section VpnFrames.

Variable config : AppConfig.

Lemma keeps_db_logger lvl msg : keeps same_db (logger lvl msg).
Proof. cbn. split; [intros m; reflexivity | intros; exact I]. Qed.

Lemma keeps_db_fetch_attempts url_ options retries left attempt lastError :
  keeps same_db (VpnManager.fetch_attempts url_ options retries left attempt lastError).
Proof.
  revert attempt lastError.
  induction left as [| left' IH]; intros attempt lastError.
  - cbn. destruct lastError; exact I.
  - cbn [VpnManager.fetch_attempts]. apply keeps_bind; [cbn; intros; exact I |].
    intros [e | r]; [| exact I].
    apply keeps_bind; [| intros; apply IH].
    destruct (Z.of_nat attempt <? Z.of_nat retries - 1); [| exact I].
    apply keeps_bind; [apply keeps_db_logger | intros; cbn; intros; exact I].
Qed.

Lemma frame_same_sessions : frame same_sessions.
Proof.
  split; unfold same_sessions.
  - reflexivity.
  - intros m1 m2 m3 H12 H23. congruence.
  - reflexivity.
Qed.

Lemma keeps_sessions_fetchWithRetry url_ options retries :
  keeps same_sessions (VpnManager.fetchWithRetry url_ options retries).
Proof.
  unfold VpnManager.fetchWithRetry.
  generalize 0%nat at 1. generalize (@None Error). generalize retries at 2.
  intros left. induction left as [| left' IH]; intros lastError attempt.
  - cbn. destruct lastError; exact I.
  - cbn [VpnManager.fetch_attempts]. apply keeps_bind; [cbn; intros; exact I |].
    intros [e | r]; [| exact I].
    apply keeps_bind; [| intros; apply IH].
    destruct (Z.of_nat attempt <? Z.of_nat retries - 1); [| exact I].
    apply keeps_bind; [| intros; cbn; intros; exact I].
    cbn. split; [intros m; reflexivity | intros; exact I].
Qed.

Lemma keeps_db_login serverCode : keeps same_db (VpnManager.login config serverCode).
Proof.
  unfold VpnManager.login. apply keeps_bind; [apply keeps_of_result |].
  intros srv. apply keeps_bind; [apply keeps_db_fetch_attempts |].
  intros res. destruct (negb (ok res)); [exact I |].
  destruct (set_cookie res) as [[| c s] |]; try exact I.
  apply keeps_bind; [cbn; split; [intros m; reflexivity | intros; exact I] |].
  intros _. apply keeps_bind; [apply keeps_db_logger | intros; exact I].
Qed.

Lemma keeps_db_ensureSession serverCode :
  keeps same_db (VpnManager.ensureSession config serverCode).
Proof.
  unfold VpnManager.ensureSession. apply keeps_bind.
  - cbn. split; [intros m; reflexivity | intros; exact I].
  - intros [[| c s] |]; try apply keeps_db_login. exact I.
Qed.

Lemma keeps_db_apiRequest serverCode method_ path body_ :
  keeps same_db (VpnManager.apiRequest config serverCode method_ path body_).
Proof.
  unfold VpnManager.apiRequest. apply keeps_bind; [apply keeps_of_result |].
  intros srv. apply keeps_bind; [apply keeps_db_ensureSession |].
  intros cookie. apply keeps_bind; [apply keeps_db_fetch_attempts |].
  intros res. apply keeps_bind; [| intros; apply keeps_of_result].
  destruct (resp_status res =? 401); [| exact I].
  apply keeps_bind; [apply keeps_db_logger |].
  intros _. apply keeps_bind; [apply keeps_db_login |].
  intros c. apply keeps_db_fetch_attempts.
Qed.

Lemma keeps_db_addClient serverCode uuid email limitIp trafficBytes expiry :
  keeps same_db
    (VpnManager.addClient config serverCode uuid email limitIp trafficBytes expiry).
Proof.
  unfold VpnManager.addClient. apply keeps_bind; [apply keeps_of_result |].
  intros srv. apply keeps_bind; [apply keeps_db_apiRequest |].
  intros _. apply keeps_db_logger.
Qed.

Lemma keeps_db_removeClient serverCode clientUuid :
  keeps same_db (VpnManager.removeClient config serverCode clientUuid).
Proof.
  unfold VpnManager.removeClient. apply keeps_bind; [apply keeps_of_result |].
  intros srv. apply keeps_bind; [apply keeps_db_apiRequest |].
  intros _. apply keeps_db_logger.
Qed.

End VpnFrames.

(** *** Sessions and panel calls on the wire *)

Lemma api_responses_app evs1 evs2 :
  api_responses (evs1 ++ evs2) = api_responses evs1 ++ api_responses evs2.
Proof. apply responses_app. Qed.

Lemma login_responses_app evs1 evs2 :
  login_responses (evs1 ++ evs2) = login_responses evs1 ++ login_responses evs2.
Proof. apply responses_app. Qed.

Lemma Attempts_responses sel req n a evs res :
  Attempts req n a evs res ->
  responses sel evs =
  match res with
  | Ok r => if sel req then [r] else []
  | Err _ => []
  end.
Proof.
  induction 1 as [a r | a e Ha | a e u evs res Hlt Hrest IH].
  - unfold responses. cbn. destruct (sel req); reflexivity.
  - reflexivity.
  - exact IH.
Qed.

Lemma Attempts_requests req n a evs res :
  Attempts req n a evs res -> Forall (fun ro => fst ro = req) (fetches evs).
Proof.
  induction 1 as [a r | a e Ha | a e u evs res Hlt Hrest IH]; cbn.
  - repeat constructor.
  - repeat constructor.
  - constructor; [reflexivity | exact IH].
Qed.

Lemma has_cookie_login url_ srv :
  has_cookie (VpnManager.with_signal url_ (VpnManager.login_init srv)) = false.
Proof. reflexivity. Qed.

Lemma has_cookie_api url_ method_ sessionCookie body_ :
  has_cookie (VpnManager.with_signal url_ (VpnManager.api_init method_ sessionCookie body_))
  = true.
Proof. reflexivity. Qed.

Section ApiLemmas.

Variable config : AppConfig.
Variable env : Oracle.

Lemma fetchWithRetry_shape url_ options retries w res w' :
  (1 <= retries)%nat ->
  run env (VpnManager.fetchWithRetry url_ options retries) w = (res, w') ->
  exists evs,
    trace w' = trace w ++ evs
    /\ Attempts (VpnManager.with_signal url_ options) retries 0 evs res.
Proof.
  intros Hn Hrun. unfold VpnManager.fetchWithRetry in Hrun.
  eapply fetch_attempts_shape; [| | exact Hrun]; lia.
Qed.

Lemma login_shape serverCode w res w' :
  run env (VpnManager.login config serverCode) w = (res, w') ->
  exists evs,
    trace w' = trace w ++ evs
    /\ api_responses evs = []
    /\ (length (login_responses evs) <= 1)%nat
    /\ (forall c, res = Ok c -> length (login_responses evs) = 1%nat)
    /\ Forall (fun ro => has_cookie (fst ro) = false) (fetches evs).
Proof.
  intros Hrun. unfold VpnManager.login in Hrun.
  rewrite run_bind, run_of_result in Hrun.
  destruct (VpnManager.getServerConfig config serverCode) as [srv | e].
  2:{ inversion Hrun; subst. exists []. rewrite app_nil_r.
      repeat split; cbn; try lia; try discriminate. constructor. }
  rewrite run_bind in Hrun.
  destruct (run env (VpnManager.fetchWithRetry (panelUrl srv ++ "/login")
                       (VpnManager.login_init srv) VpnManager.default_retries) w)
    as [fr w1] eqn:Hfetch.
  apply fetchWithRetry_shape in Hfetch; [| unfold VpnManager.default_retries; lia].
  destruct Hfetch as (evs & Ht & Hatt).
  pose proof (Attempts_responses has_cookie _ _ _ _ _ Hatt) as Hapi.
  pose proof (Attempts_responses (fun req => negb (has_cookie req)) _ _ _ _ _ Hatt)
    as Hlog.
  pose proof (Attempts_requests _ _ _ _ _ Hatt) as Hreq.
  cbv beta in Hlog. rewrite has_cookie_login in Hapi, Hlog. cbn [negb] in Hlog.
  assert (Hsilent : trace w' = trace w1 /\
                    (forall c, res = Ok c -> exists r, fr = Ok r)).
  { destruct fr as [r | e].
    - destruct (negb (ok r)); [inversion Hrun; subst; split; [reflexivity | discriminate] |].
      destruct (set_cookie r) as [[| c s] |];
        cbn in Hrun; inversion Hrun; subst; cbn; split; eauto; discriminate.
    - inversion Hrun; subst. split; [reflexivity | discriminate]. }
  destruct Hsilent as [Htr Hok].
  exists evs. rewrite Htr, Ht. split; [reflexivity |].
  split; [| split; [| split]].
  - unfold api_responses. rewrite Hapi. destruct fr; reflexivity.
  - unfold login_responses. rewrite Hlog. destruct fr; cbn; lia.
  - intros c Hc. destruct (Hok c Hc) as [r ->].
    unfold login_responses. rewrite Hlog. reflexivity.
  - eapply Forall_impl; [exact Hreq |]. intros ro ->. reflexivity.
Qed.

Lemma ensureSession_shape serverCode w res w' :
  run env (VpnManager.ensureSession config serverCode) w = (res, w') ->
  exists evs,
    trace w' = trace w ++ evs
    /\ api_responses evs = []
    /\ (length (login_responses evs) <= fresh_login serverCode (mem w))%nat
    /\ (forall c, res = Ok c ->
         length (login_responses evs) = fresh_login serverCode (mem w))
    /\ Forall (fun ro => has_cookie (fst ro) = false) (fetches evs).
Proof.
  intros Hrun. unfold VpnManager.ensureSession in Hrun.
  rewrite run_bind in Hrun. cbn [read sync run] in Hrun.
  unfold fresh_login.
  destruct (sessions (mem w) !! serverCode) as [[| ch s] |] eqn:Hcached;
    cbn [String.eqb] in *.
  - destruct w; apply login_shape in Hrun. exact Hrun.
  - cbn in Hrun. inversion Hrun; subst. exists []. rewrite app_nil_r.
    destruct w; cbn. repeat split; try lia; try constructor.
  - destruct w; apply login_shape in Hrun. exact Hrun.
Qed.

Lemma doRequest_shape url_ method_ sessionCookie body_ w res w' :
  run env (VpnManager.fetchWithRetry url_
             (VpnManager.api_init method_ sessionCookie body_)
             VpnManager.default_retries) w = (res, w') ->
  exists evs,
    trace w' = trace w ++ evs
    /\ api_responses evs = match res with Ok r => [r] | Err _ => [] end
    /\ login_responses evs = []
    /\ Forall (fun ro => url (fst ro) = url_) (fetches evs).
Proof.
  intros Hrun.
  apply fetchWithRetry_shape in Hrun; [| unfold VpnManager.default_retries; lia].
  destruct Hrun as (evs & Ht & Hatt).
  pose proof (Attempts_responses has_cookie _ _ _ _ _ Hatt) as Hapi.
  pose proof (Attempts_responses (fun req => negb (has_cookie req)) _ _ _ _ _ Hatt)
    as Hlog.
  pose proof (Attempts_requests _ _ _ _ _ Hatt) as Hreq.
  cbv beta in Hlog. rewrite has_cookie_api in Hapi, Hlog. cbn [negb] in Hlog.
  exists evs. split; [exact Ht |]. split; [exact Hapi |]. split.
  - unfold login_responses. rewrite Hlog. destruct res; reflexivity.
  - eapply Forall_impl; [exact Hreq |]. intros ro ->. reflexivity.
Qed.

(** The calls of a [login], exactly. *)
Lemma login_wire serverCode srv w res w' :
  VpnManager.getServerConfig config serverCode = Ok srv ->
  run env (VpnManager.login config serverCode) w = (res, w') ->
  exists evs,
    trace w' = trace w ++ evs
    /\ LoginCourse srv evs res
    /\ sessions (mem w') !! serverCode
       = cached_after (sessions (mem w) !! serverCode) res.
Proof.
  intros Hsrv Hrun. unfold VpnManager.login in Hrun.
  rewrite run_bind, run_of_result, Hsrv in Hrun.
  rewrite run_bind in Hrun.
  destruct (run env (VpnManager.fetchWithRetry (panelUrl srv ++ "/login")
                       (VpnManager.login_init srv) VpnManager.default_retries) w)
    as [fr w1] eqn:Hfetch.
  pose proof (run_keeps same_sessions env _ w frame_same_sessions
                (keeps_sessions_fetchWithRetry (panelUrl srv ++ "/login")
                   (VpnManager.login_init srv) VpnManager.default_retries)) as Hsame.
  rewrite Hfetch in Hsame. cbn [snd] in Hsame. unfold same_sessions in Hsame.
  apply fetchWithRetry_shape in Hfetch; [| unfold VpnManager.default_retries; lia].
  destruct Hfetch as (evs & Ht & Hatt).
  exists evs. fold (login_request srv) in Hatt.
  destruct fr as [r | e].
  - destruct (ok r) eqn:Hok; cbn [negb] in Hrun.
    + destruct (set_cookie r) as [[| c s] |] eqn:Hc.
      * inversion Hrun; subst. split; [exact Ht |]. split.
        -- eapply login_refused; [exact Hatt |]. unfold granted. rewrite Hok, Hc. reflexivity.
        -- cbn. rewrite Hsame. reflexivity.
      * cbn in Hrun. inversion Hrun; subst. cbn. split; [exact Ht |]. split.
        -- eapply login_granted; [exact Hatt |]. unfold granted. rewrite Hok, Hc. reflexivity.
        -- rewrite lookup_insert_eq. reflexivity.
      * inversion Hrun; subst. split; [exact Ht |]. split.
        -- eapply login_refused; [exact Hatt |]. unfold granted. rewrite Hok, Hc. reflexivity.
        -- cbn. rewrite Hsame. reflexivity.
    + inversion Hrun; subst. split; [exact Ht |]. split.
      * eapply login_refused; [exact Hatt |]. unfold granted. rewrite Hok. reflexivity.
      * cbn. rewrite Hsame. reflexivity.
  - inversion Hrun; subst. split; [exact Ht |]. split.
    + apply login_unreachable. exact Hatt.
    + cbn. rewrite Hsame. reflexivity.
Qed.

(** The calls of an [ensureSession], exactly. *)
Lemma ensureSession_wire serverCode srv w res w' :
  VpnManager.getServerConfig config serverCode = Ok srv ->
  run env (VpnManager.ensureSession config serverCode) w = (res, w') ->
  exists evs,
    trace w' = trace w ++ evs
    /\ SessionCourse srv (sessions (mem w) !! serverCode) evs res.
Proof.
  intros Hsrv Hrun. unfold VpnManager.ensureSession in Hrun.
  rewrite run_bind in Hrun. cbn [read sync run] in Hrun.
  destruct (sessions (mem w) !! serverCode) as [[| ch s] |] eqn:Hcached.
  - destruct w; apply (login_wire _ _ _ _ _ Hsrv) in Hrun.
    destruct Hrun as (evs & Ht & Hc & _). exists evs. split; [exact Ht |].
    apply session_login; [right; reflexivity | exact Hc].
  - cbn in Hrun. inversion Hrun; subst. exists []. rewrite app_nil_r.
    destruct w; cbn. split; [reflexivity |].
    eapply session_cached; [reflexivity | discriminate].
  - destruct w; apply (login_wire _ _ _ _ _ Hsrv) in Hrun.
    destruct Hrun as (evs & Ht & Hc & _). exists evs. split; [exact Ht |].
    apply session_login; [left; reflexivity | exact Hc].
Qed.

(** The calls of an [apiRequest] to a configured endpoint, exactly. *)
Lemma apiRequest_wire serverCode srv method_ path body_ w res w' :
  VpnManager.getServerConfig config serverCode = Ok srv ->
  run env (VpnManager.apiRequest config serverCode method_ path body_) w = (res, w') ->
  exists evs,
    trace w' = trace w ++ evs
    /\ Wire srv (fun cookie => api_request srv method_ path cookie body_)
         (sessions (mem w) !! serverCode)
         (VpnManager.envelope_result serverCode method_ path) evs res.
Proof.
  intros Hsrv Hrun. unfold VpnManager.apiRequest in Hrun.
  rewrite run_bind, run_of_result, Hsrv in Hrun.
  rewrite run_bind in Hrun.
  destruct (run env (VpnManager.ensureSession config serverCode) w) as [rs w1] eqn:Hs.
  apply (ensureSession_wire _ _ _ _ _ Hsrv) in Hs.
  destruct Hs as (evs0 & Ht0 & Hc0).
  destruct rs as [cookie | e1].
  2:{ inversion Hrun; subst. exists evs0. split; [exact Ht0 |].
      apply wire_no_session. exact Hc0. }
  rewrite run_bind in Hrun.
  destruct (run env (VpnManager.fetchWithRetry (panelUrl srv ++ path)
                       (VpnManager.api_init method_ cookie body_)
                       VpnManager.default_retries) w1) as [r1 w2] eqn:Hf1.
  apply fetchWithRetry_shape in Hf1; [| unfold VpnManager.default_retries; lia].
  destruct Hf1 as (evs1 & Ht1 & Ha1). fold (api_request srv method_ path cookie body_) in Ha1.
  destruct r1 as [r | e].
  2:{ inversion Hrun; subst. exists (evs0 ++ evs1).
      split; [rewrite Ht1, Ht0, app_assoc; reflexivity |].
      eapply (wire_unanswered srv (fun c => api_request srv method_ path c body_));
        [exact Hc0 | exact Ha1]. }
  rewrite run_bind in Hrun.
  destruct (resp_status r =? 401) eqn:H401.
  2:{ apply Z.eqb_neq in H401. cbn [run] in Hrun. rewrite run_of_result in Hrun.
      inversion Hrun; subst. exists (evs0 ++ evs1).
      split; [rewrite Ht1, Ht0, app_assoc; reflexivity |].
      eapply (wire_settled srv (fun c => api_request srv method_ path c body_));
        [exact Hc0 | exact Ha1 | exact H401]. }
  apply Z.eqb_eq in H401.
  rewrite !run_bind in Hrun. cbn [logger write sync run] in Hrun.
  rewrite run_bind in Hrun.
  match type of Hrun with
  | context [run env (VpnManager.login config serverCode) ?w0] =>
      destruct (run env (VpnManager.login config serverCode) w0) as [rl w3] eqn:Hl
  end.
  apply (login_wire _ _ _ _ _ Hsrv) in Hl. cbn [trace] in Hl.
  destruct Hl as (evs2 & Ht2 & Hc2 & _).
  destruct rl as [cookie' | e2].
  2:{ inversion Hrun; subst. exists (evs0 ++ evs1 ++ evs2).
      split; [rewrite Ht2, Ht1, Ht0, <- !app_assoc; reflexivity |].
      eapply (wire_relogin_failed srv (fun c => api_request srv method_ path c body_));
        [exact Hc0 | exact Ha1 | exact H401 | exact Hc2]. }
  destruct (run env (VpnManager.fetchWithRetry (panelUrl srv ++ path)
                       (VpnManager.api_init method_ cookie' body_)
                       VpnManager.default_retries) w3) as [r2 w4] eqn:Hf2.
  apply fetchWithRetry_shape in Hf2; [| unfold VpnManager.default_retries; lia].
  destruct Hf2 as (evs3 & Ht3 & Ha3). fold (api_request srv method_ path cookie' body_) in Ha3.
  destruct r2 as [r' | e3].
  - cbn [run] in Hrun. rewrite run_of_result in Hrun. inversion Hrun; subst.
    exists (evs0 ++ evs1 ++ evs2 ++ evs3).
    split; [rewrite Ht3, Ht2, Ht1, Ht0, <- !app_assoc; reflexivity |].
    eapply (wire_retried srv (fun c => api_request srv method_ path c body_));
      [exact Hc0 | exact Ha1 | exact H401 | exact Hc2 | exact Ha3].
  - inversion Hrun; subst. exists (evs0 ++ evs1 ++ evs2 ++ evs3).
    split; [rewrite Ht3, Ht2, Ht1, Ht0, <- !app_assoc; reflexivity |].
    eapply (wire_retry_unanswered srv (fun c => api_request srv method_ path c body_));
      [exact Hc0 | exact Ha1 | exact H401 | exact Hc2 | exact Ha3].
Qed.

(** Every course of [apiRequest] is one of the four of [ApiCourse]. *)
Lemma apiRequest_course serverCode method_ path body_ w res w' :
  run env (VpnManager.apiRequest config serverCode method_ path body_) w = (res, w') ->
  exists evs,
    trace w' = trace w ++ evs
    /\ ApiCourse (fresh_login serverCode (mem w))
         (VpnManager.envelope_result serverCode method_ path)
         (api_responses evs) (length (login_responses evs)) res
    /\ (forall srv, VpnManager.getServerConfig config serverCode = Ok srv ->
         Forall (fun ro => has_cookie (fst ro) = true ->
                           url (fst ro) = (panelUrl srv ++ path)%string)
                (fetches evs)).
Proof.
  intros Hrun. unfold VpnManager.apiRequest in Hrun.
  rewrite run_bind, run_of_result in Hrun.
  destruct (VpnManager.getServerConfig config serverCode) as [srv | e0].
  2:{ inversion Hrun; subst. exists []. rewrite app_nil_r.
      split; [reflexivity |]. split; [apply course_unanswered; cbn; lia |].
      intros srv Hsrv. discriminate. }
  rewrite run_bind in Hrun.
  destruct (run env (VpnManager.ensureSession config serverCode) w) as [rs w1] eqn:Hs.
  apply ensureSession_shape in Hs.
  destruct Hs as (evs0 & Ht0 & Hapi0 & Hle0 & Heq0 & Hnc0).
  assert (Hurl0 : Forall (fun ro => has_cookie (fst ro) = true ->
                                    url (fst ro) = (panelUrl srv ++ path)%string)
                         (fetches evs0)).
  { eapply Forall_impl; [exact Hnc0 |]. intros ro Hf Ht. congruence. }
  destruct rs as [cookie | e1].
  2:{ inversion Hrun; subst. exists evs0. split; [exact Ht0 |].
      split; [rewrite Hapi0; apply course_unanswered; exact Hle0 |].
      intros srv' Hsrv'. inversion Hsrv'; subst. exact Hurl0. }
  specialize (Heq0 cookie eq_refl).
  rewrite run_bind in Hrun.
  destruct (run env (VpnManager.fetchWithRetry (panelUrl srv ++ path)
                       (VpnManager.api_init method_ cookie body_)
                       VpnManager.default_retries) w1) as [rr1 w2] eqn:Hr1.
  apply doRequest_shape in Hr1.
  destruct Hr1 as (evs1 & Ht1 & Hapi1 & Hlog1 & Hurl1).
  assert (Hurl1' : Forall (fun ro => has_cookie (fst ro) = true ->
                                     url (fst ro) = (panelUrl srv ++ path)%string)
                          (fetches evs1)).
  { eapply Forall_impl; [exact Hurl1 |]. intros ro Hf _. exact Hf. }
  destruct rr1 as [r1 | e2].
  2:{ inversion Hrun; subst. exists (evs0 ++ evs1).
      split; [rewrite Ht1, Ht0, app_assoc; reflexivity |].
      split.
      - rewrite api_responses_app, login_responses_app, Hapi0, Hapi1, Hlog1,
          length_app.
        apply course_unanswered. cbn. lia.
      - intros srv' Hsrv'. inversion Hsrv'; subst.
        rewrite fetches_app. apply Forall_app. split; assumption. }
  rewrite run_bind in Hrun.
  destruct (resp_status r1 =? 401) eqn:H401.
  - (* the session was rejected *)
    apply Z.eqb_eq in H401.
    rewrite run_bind in Hrun. cbn [logger write sync run] in Hrun.
    rewrite run_bind in Hrun.
    match type of Hrun with
    | context [run env (VpnManager.login config serverCode) ?w3] =>
        destruct (run env (VpnManager.login config serverCode) w3) as [rl w4] eqn:Hl
    end.
    apply login_shape in Hl. cbn [trace] in Hl.
    destruct Hl as (evs2 & Ht2 & Hapi2 & Hle2 & Heq2 & Hnc2).
    assert (Hurl2 : Forall (fun ro => has_cookie (fst ro) = true ->
                                      url (fst ro) = (panelUrl srv ++ path)%string)
                           (fetches evs2)).
    { eapply Forall_impl; [exact Hnc2 |]. intros ro Hf Ht. congruence. }
    destruct rl as [cookie2 | e3].
    2:{ inversion Hrun; subst. exists (evs0 ++ evs1 ++ evs2).
        split; [rewrite Ht2, Ht1, Ht0, <- !app_assoc; reflexivity |].
        split.
        - rewrite !api_responses_app, !login_responses_app, Hapi0, Hapi1, Hapi2,
            Hlog1, !length_app.
          apply course_relogin_failed; [exact H401 | cbn; lia].
        - intros srv' Hsrv'. inversion Hsrv'; subst.
          rewrite !fetches_app. rewrite !Forall_app. repeat split; assumption. }
    specialize (Heq2 cookie2 eq_refl).
    destruct (run env (VpnManager.fetchWithRetry (panelUrl srv ++ path)
                         (VpnManager.api_init method_ cookie2 body_)
                         VpnManager.default_retries) w4) as [rr2 w5] eqn:Hr2.
    apply doRequest_shape in Hr2.
    destruct Hr2 as (evs3 & Ht3 & Hapi3 & Hlog3 & Hurl3).
    assert (Hurl3' : Forall (fun ro => has_cookie (fst ro) = true ->
                                       url (fst ro) = (panelUrl srv ++ path)%string)
                            (fetches evs3)).
    { eapply Forall_impl; [exact Hurl3 |]. intros ro Hf _. exact Hf. }
    exists (evs0 ++ evs1 ++ evs2 ++ evs3).
    split; [| split].
    + destruct rr2; rewrite ?run_of_result in Hrun; inversion Hrun; subst;
        rewrite Ht3, Ht2, Ht1, Ht0, <- !app_assoc; reflexivity.
    + rewrite !api_responses_app, !login_responses_app, Hapi0, Hapi1, Hapi2, Hapi3,
        Hlog1, Hlog3, !length_app.
      destruct rr2 as [r2 | e4]; rewrite ?run_of_result in Hrun; inversion Hrun; subst.
      * apply course_retried; [exact H401 | cbn; lia].
      * apply course_relogin_failed; [exact H401 | cbn; lia].
    + intros srv' Hsrv'. inversion Hsrv'; subst.
      rewrite !fetches_app. rewrite !Forall_app. repeat split; assumption.
  - (* any other status *)
    apply Z.eqb_neq in H401.
    cbn [run] in Hrun. rewrite run_of_result in Hrun. inversion Hrun; subst.
    exists (evs0 ++ evs1).
    split; [rewrite Ht1, Ht0, app_assoc; reflexivity |].
    split.
    + rewrite api_responses_app, login_responses_app, Hapi0, Hapi1, Hlog1, length_app.
      apply course_settled; [exact H401 | cbn; lia].
    + intros srv' Hsrv'. inversion Hsrv'; subst.
      rewrite fetches_app. apply Forall_app. split; assumption.
Qed.

End ApiLemmas.

(* ================================================================= *)
(** * The Remote Session Client *)

Section SessionClient.

Variable config : AppConfig.
Variable env : Oracle.

(** C4, as the code has it: a [fetchWithRetry] with the default budget
    makes at most three attempts, each under a 15 s abort signal; it
    waits 1 s after the first failed attempt and 2 s after the second,
    and does not wait after the third; the first response ends it, and
    when all three attempts fail the error of the third is thrown. *)
Theorem fetchWithRetry_default_budget url_ options w :
  let req := VpnManager.with_signal url_ options in
  let res := fst (run env (VpnManager.fetchWithRetry url_ options
                             VpnManager.default_retries) w) in
  let evs := new_events w (snd (run env (VpnManager.fetchWithRetry url_ options
                                           VpnManager.default_retries) w)) in
  signal_timeout req = Some 15000
  /\ ((exists r, res = Ok r /\ evs = [Called (Fetch req) (Responded r)])
      \/ (exists e0 r,
            res = Ok r
            /\ evs = [Called (Fetch req) (NetworkError e0); Called (Sleep 1000) tt;
                      Called (Fetch req) (Responded r)])
      \/ (exists e0 e1 r,
            res = Ok r
            /\ evs = [Called (Fetch req) (NetworkError e0); Called (Sleep 1000) tt;
                      Called (Fetch req) (NetworkError e1); Called (Sleep 2000) tt;
                      Called (Fetch req) (Responded r)])
      \/ (exists e0 e1 e2,
            res = Err e2
            /\ evs = [Called (Fetch req) (NetworkError e0); Called (Sleep 1000) tt;
                      Called (Fetch req) (NetworkError e1); Called (Sleep 2000) tt;
                      Called (Fetch req) (NetworkError e2)])).
Proof.
  intros req res evs. split; [reflexivity |].
  subst res evs.
  destruct (run env (VpnManager.fetchWithRetry url_ options VpnManager.default_retries) w)
    as [res w'] eqn:Hrun.
  apply fetchWithRetry_shape in Hrun; [| unfold VpnManager.default_retries; lia].
  destruct Hrun as (evs & Ht & Hatt). cbn [fst snd].
  unfold new_events. rewrite Ht, drop_app_length.
  unfold VpnManager.default_retries in Hatt. fold req in Hatt.
  inversion Hatt as [a r | a e Ha | a e0 u0 evs1 res1 Hlt1 Hatt1]; subst.
  - left. eauto.
  - lia.
  - destruct u0.
    inversion Hatt1 as [a r | a e Ha | a e1 u1 evs2 res2 Hlt2 Hatt2]; subst.
    + right; left. eauto.
    + lia.
    + destruct u1.
      inversion Hatt2 as [a r | a e Ha | a e2 u2 evs3 res3 Hlt3 Hatt3]; subst.
      * right; right; left. eauto.
      * right; right; right. eauto.
      * lia.
Qed.

(** C3: all the calls of an [apiRequest] and its result, whatever the
    network answers ([Wire]).  For a configured endpoint the client
    first logs in unless a cookie is cached, then sends the request with
    the session cookie.  A first response other than 401 is kept and
    nothing follows.  After a 401 it logs in once: if the login grants
    a cookie the request is sent once more, with that cookie, and the
    response to it is kept whatever its status (401 included); if the
    login fails the call fails and the request is not sent again.  A
    kept response that is not 2xx or whose envelope has no true
    [success] is an error, and a kept 2xx response with [success: true]
    yields its [obj].  Each login and each sending is a
    [fetchWithRetry] of the default budget. *)
Theorem apiRequest_reauthenticates_once serverCode method_ path body_ w :
  let res := fst (run env (VpnManager.apiRequest config serverCode method_ path body_) w) in
  let evs := new_events w
               (snd (run env (VpnManager.apiRequest config serverCode method_ path body_) w)) in
  let unwrap := VpnManager.envelope_result serverCode method_ path in
  match VpnManager.getServerConfig config serverCode with
  | Ok srv =>
      Wire srv (fun cookie => api_request srv method_ path cookie body_)
        (sessions (mem w) !! serverCode) unwrap evs res
  | Err _ => evs = [] /\ exists e, res = Err e
  end
  /\ ApiCourse (fresh_login serverCode (mem w)) unwrap
       (api_responses evs) (length (login_responses evs)) res
  /\ (forall r, ok r = false -> exists e, unwrap r = Err e)
  /\ (forall r, resp_status r = 401 -> exists e, unwrap r = Err e)
  /\ (forall r j, resp_json r = Some j ->
                  Json.truthy (Json.field "success" j) = false ->
                  exists e, unwrap r = Err e)
  /\ (forall r j, ok r = true -> resp_json r = Some j ->
                  Json.truthy (Json.field "success" j) = true ->
                  unwrap r = Ok (Json.field "obj" j)).
Proof.
  intros res evs unwrap. subst res evs.
  destruct (run env (VpnManager.apiRequest config serverCode method_ path body_) w)
    as [res w'] eqn:Hrun.
  cbn [fst snd]. split.
  { destruct (VpnManager.getServerConfig config serverCode) as [srv | e0] eqn:Hsrv.
    - eapply apiRequest_wire in Hrun; [| exact Hsrv].
      destruct Hrun as (evs & Ht & Hwire).
      unfold new_events. rewrite Ht, drop_app_length. exact Hwire.
    - unfold VpnManager.apiRequest in Hrun.
      rewrite run_bind, run_of_result, Hsrv in Hrun. inversion Hrun; subst.
      unfold new_events. rewrite drop_all. eauto. }
  apply apiRequest_course in Hrun. destruct Hrun as (evs & Ht & Hcourse & _).
  unfold new_events. rewrite Ht, drop_app_length.
  split; [exact Hcourse |].
  assert (Hnot_ok : forall r, ok r = false -> exists e, unwrap r = Err e).
  { intros r Hr. unfold unwrap, VpnManager.envelope_result. rewrite Hr. cbn. eauto. }
  split; [exact Hnot_ok |]. split; [| split].
  - intros r Hr. apply Hnot_ok. unfold ok. rewrite Hr. reflexivity.
  - intros r j Hj Hs. unfold unwrap, VpnManager.envelope_result.
    destruct (negb (ok r)); [eauto |]. rewrite Hj.
    destruct j; cbn in Hs |- *; try rewrite Hs; cbn; eauto; discriminate.
  - intros r j Hr Hj Hs. unfold unwrap, VpnManager.envelope_result.
    rewrite Hr, Hj. cbn [negb].
    destruct j; cbn in Hs |- *; try discriminate; rewrite ?Hs; reflexivity.
Qed.

End SessionClient.

(** The session has run out and the panel refuses the login that
    follows: the request was sent once, the login once, and the call
    fails without the request being sent again. *)
Lemma apiRequest_relogin_refused_no_retry :
  let net := Scenario.oracle
               (fun n _ =>
                  match n with
                  | 0%nat => Responded (Scenario.reply_with 401 None)
                  | 1%nat => Responded (Scenario.reply_with 500 None)
                  | _ => Responded (Scenario.reply_with 200 (Some Scenario.panel_ok))
                  end) in
  let out := run net (VpnManager.apiRequest Scenario.config "ru" "POST"
                        "/panel/api/inbounds/1/delClient/0123abcd" None) Scenario.w0 in
  (exists e, fst out = Err e)
  /\ map resp_status (api_responses (trace (snd out))) = [401]
  /\ map resp_status (login_responses (trace (snd out))) = [500]
  /\ length (fetches (trace (snd out))) = 2%nat.
Proof. vm_compute. split; [eexists; reflexivity |]. repeat split; reflexivity. Qed.

(** The session has run out: the first request is refused with 401, the
    login hands out a new cookie, and the repeated request, sent with
    that cookie, is accepted. *)
Example apiRequest_relogin_then_success :
  let net := Scenario.oracle
               (fun n _ =>
                  match n with
                  | 0%nat => Responded (Scenario.reply_with 401 None)
                  | 1%nat => Responded {| resp_status := 200; status_text := "OK";
                                          set_cookie := Some "3x-ui=new; Path=/; HttpOnly";
                                          resp_text := ""; resp_json := None |}
                  | _ => Responded (Scenario.reply_with 200 (Some Scenario.panel_ok))
                  end) in
  let out := run net (VpnManager.apiRequest Scenario.config "ru" "POST"
                        "/panel/api/inbounds/1/delClient/0123abcd" None) Scenario.w0 in
  fst out = Ok Json.JNull
  /\ map resp_status (api_responses (trace (snd out))) = [401; 200]
  /\ length (login_responses (trace (snd out))) = 1%nat
  /\ map (fun ro => headers (init (fst ro))) (fetches (trace (snd out)))
     = [[("Cookie", "3x-ui=abc"); ("Content-Type", "application/json")];
        [("Content-Type", "application/x-www-form-urlencoded")];
        [("Cookie", "3x-ui=new"); ("Content-Type", "application/json")]]
  /\ sessions (mem (snd out)) !! "ru" = Some "3x-ui=new".
Proof. vm_compute. repeat split; reflexivity. Qed.

(** A second 401 is not answered by another login. *)
Example apiRequest_second_401_is_final :
  let net := Scenario.oracle
               (fun n _ =>
                  match n with
                  | 1%nat => Responded {| resp_status := 200; status_text := "OK";
                                          set_cookie := Some "3x-ui=new; Path=/";
                                          resp_text := ""; resp_json := None |}
                  | _ => Responded (Scenario.reply_with 401 None)
                  end) in
  let out := run net (VpnManager.apiRequest Scenario.config "ru" "POST"
                        "/panel/api/inbounds/1/delClient/0123abcd" None) Scenario.w0 in
  fst out = Err "3X-UI API error [ru] POST /panel/api/inbounds/1/delClient/0123abcd: 401 "
  /\ length (fetches (trace (snd out))) = 3%nat.
Proof. vm_compute. split; reflexivity. Qed.

(** C4 as the specification words it does not hold: with three
    attempts there are two waits, of 1 s and 2 s; no wait of 4 s is
    ever made. *)
Lemma fetchWithRetry_waits_twice :
  let w' := snd (run Scenario.unreachable
                   (VpnManager.fetchWithRetry "https://ru.example/" VpnManager.health_init
                      VpnManager.default_retries) Scenario.w0) in
  length (fetches (trace w')) = 3%nat
  /\ delays (trace w') = [1000; 2000]
  /\ delays (trace w') <> [1000; 2000; 4000].
Proof. vm_compute. repeat split; try reflexivity. discriminate. Qed.

(* ================================================================= *)
(** * The Panel Provisioning Adapter *)

Section Adapter.

Variable config : AppConfig.
Variable env : Oracle.

(** C7, as the code has it: [getClientTraffic] makes no call of its
    own and throws every error of the panel call.  When the call
    succeeds with no record ([obj] falsy: null or absent) it returns
    the zero record.  When it succeeds with a record, [up] and [down]
    are the counters of the record, each replaced by 0 when it is
    absent or falsy and passed through as it is otherwise; and when
    both are integers of magnitude at most 2^53, as is their sum,
    [total] is that sum. *)
Theorem getClientTraffic_zero_or_error serverCode email w :
  let call := run env (VpnManager.apiRequest config serverCode "GET"
                         (traffic_path email) None) w in
  let got := run env (VpnManager.getClientTraffic config serverCode email) w in
  snd got = snd call
  /\ (forall e, fst call = Err e -> fst got = Err e)
  /\ (forall obj, fst call = Ok obj -> Json.truthy obj = false ->
                  fst got = Ok zero_usage)
  /\ (forall obj, fst call = Ok obj -> Json.truthy obj = true ->
        exists usage,
          fst got = Ok usage
          /\ up usage = Json.or_zero (Json.field "up" obj)
          /\ down usage = Json.or_zero (Json.field "down" obj)
          /\ (Json.truthy (Json.field "up" obj) = false -> up usage = Json.JNum 0)
          /\ (Json.truthy (Json.field "down" obj) = false -> down usage = Json.JNum 0)
          /\ (forall x y,
                up usage = Json.JNum x -> down usage = Json.JNum y ->
                Json.safe x = true -> Json.safe y = true -> Json.safe (x + y) = true ->
                total usage = Some (Json.JNum (x + y)))).
Proof.
  intros call got. subst call got.
  unfold VpnManager.getClientTraffic, traffic_path. rewrite run_bind.
  destruct (run env (VpnManager.apiRequest config serverCode "GET"
                       ("/panel/api/inbounds/getClientTraffics/" ++ email)%string None) w)
    as [[obj | e] w1]; cbn [fst snd].
  - destruct (Json.truthy obj) eqn:Htruthy; cbn [negb run fst snd];
      (split; [reflexivity |]); (split; [discriminate |]); split;
      intros obj' Hobj Ht; inversion Hobj; subst obj'; try congruence;
      try reflexivity.
    eexists. split; [reflexivity |]. cbn [up down total].
    split; [reflexivity |]. split; [reflexivity |].
    split; [intros Hup; unfold Json.or_zero; rewrite Hup; reflexivity |].
    split; [intros Hdown; unfold Json.or_zero; rewrite Hdown; reflexivity |].
    intros x y Hx Hy Hsx Hsy Hsum. rewrite Hx, Hy. cbn [Json.plus].
    rewrite Hsx, Hsy, Hsum. reflexivity.
  - split; [reflexivity |]. split; [intros e' He; inversion He; reflexivity |].
    split; discriminate.
Qed.

(** An endpoint that is not configured: every panel operation throws
    the error of [getServerConfig] at once, before any call is made. *)
Lemma unknown_server_throws serverCode w :
  find (fun s => String.eqb (code s) serverCode) (servers config) = None ->
  let e := ("Server config not found for code: " ++ serverCode)%string in
  VpnManager.getServerConfig config serverCode = Err e
  /\ (forall method_ path body_,
        run env (VpnManager.apiRequest config serverCode method_ path body_) w
        = (Err e, w))
  /\ (forall uuid email limitIp trafficBytes expiry,
        run env (VpnManager.addClient config serverCode uuid email limitIp
                   trafficBytes expiry) w = (Err e, w))
  /\ (forall uuid, run env (VpnManager.removeClient config serverCode uuid) w = (Err e, w))
  /\ (forall email,
        run env (VpnManager.getClientTraffic config serverCode email) w = (Err e, w)).
Proof.
  intros Hfind e.
  assert (Hcfg : VpnManager.getServerConfig config serverCode = Err e).
  { unfold VpnManager.getServerConfig. rewrite Hfind. reflexivity. }
  assert (Hapi : forall method_ path body_,
             run env (VpnManager.apiRequest config serverCode method_ path body_) w
             = (Err e, w)).
  { intros. unfold VpnManager.apiRequest. rewrite run_bind, run_of_result, Hcfg.
    reflexivity. }
  split; [exact Hcfg |]. split; [exact Hapi |]. split; [| split].
  - intros. unfold VpnManager.addClient. rewrite run_bind, run_of_result, Hcfg.
    reflexivity.
  - intros. unfold VpnManager.removeClient. rewrite run_bind, run_of_result, Hcfg.
    reflexivity.
  - intros. unfold VpnManager.getClientTraffic. rewrite run_bind, Hapi. reflexivity.
Qed.

End Adapter.

(** C7 as the specification words it does not hold: a panel that
    answers the traffic query with a server error makes
    [getClientTraffic] throw. *)
Lemma getClientTraffic_throws_on_panel_error :
  fst (run Scenario.panel_broken
         (VpnManager.getClientTraffic Scenario.config "ru" "tg_42_ru_0123abcd")
         Scenario.w0)
  = Err "3X-UI API error [ru] GET /panel/api/inbounds/getClientTraffics/tg_42_ru_0123abcd: 500 ".
Proof. vm_compute. reflexivity. Qed.

(** The panel reports no record for the name: zero usage. *)
Example getClientTraffic_no_record :
  fst (run Scenario.all_well
         (VpnManager.getClientTraffic Scenario.config "ru" "nobody") Scenario.w0)
  = Ok zero_usage.
Proof. vm_compute. reflexivity. Qed.

(* ================================================================= *)
(** * Activation *)

Section Activation.

Variable config : AppConfig.
Variable env : Oracle.

(** [activateSubscription], step by step. *)
Lemma activateSubscription_steps payment w :
  run env (Payments.activateSubscription config payment) w =
  if negb (bot (mem w)) then (Ok tt, w)
  else
    match Database.getServerById (pay_server_id payment) (db (mem w)) with
    | None => (Ok tt, with_log w LError "Server not found for payment")
    | Some server =>
        match Tariffs.getTariff (srv_code server) (pay_tariff_id payment) with
        | Err e => (Err e, w)
        | Ok None => (Ok tt, with_log w LError "Tariff not found")
        | Ok (Some tariff) =>
            let uuid := uuid_source (mem w) (rand_n (mem w)) in
            let email := Payments.make_email payment server uuid in
            let expiry := Payments.expiry_of tariff (now_ms (mem w)) in
            match run env (VpnManager.addClient config (srv_code server) uuid email
                             (maxDevices tariff) 0 expiry) (after_uuid w) with
            | (Err e, w1) => (Err e, w1)
            | (Ok _, w1) =>
                match run env (Payments.record_activation payment server tariff uuid
                                 email (Clock.toISOString expiry)) w1 with
                | (Err e, w2) => (Err e, w2)
                | (Ok sub, w2) =>
                    run env (Payments.notify_activation config payment server tariff
                               uuid (Clock.toISOString expiry) sub) w2
                end
            end
        end
    end.
Proof.
  destruct w as [m n tr]. unfold Payments.activateSubscription.
  rewrite run_bind. cbn [read sync run mem calls trace].
  destruct (bot m); cbn [negb]; [| reflexivity].
  rewrite run_bind. cbn [read sync run mem calls trace].
  destruct (Database.getServerById (pay_server_id payment) (db m)) as [server |];
    [| reflexivity].
  rewrite run_bind, run_of_result.
  destruct (Tariffs.getTariff (srv_code server) (pay_tariff_id payment))
    as [[tariff |] | e0]; [| reflexivity | reflexivity].
  rewrite run_bind. cbn [Payments.uuidv4 sync run mem calls trace].
  rewrite run_bind. cbn [read sync run mem calls trace bump_rand now_ms].
  rewrite run_bind. unfold after_uuid. cbn [mem calls trace uuid_source rand_n now_ms].
  destruct (run env _ _) as [[[] | e] w1]; [| reflexivity].
  rewrite run_bind. reflexivity.
Qed.

Lemma set_db_same m : set_db m (db m) = m.
Proof. destruct m; reflexivity. Qed.

Lemma record_activation_run payment server tariff uuid email iso w :
  run env (Payments.record_activation payment server tariff uuid email iso) w =
  match Database.createSubscription (now_ms (mem w)) (pay_telegram_id payment)
          (srv_id server) uuid email (id tariff) iso (maxDevices tariff) 0 (db (mem w))
  with
  | (Err e, _) => (Err e, w)
  | (Ok sub, d1) =>
      (Ok sub, {| mem := set_db (mem w) (recorded payment tariff (now_ms (mem w)) d1);
                  calls := calls w; trace := trace w |})
  end.
Proof.
  destruct w as [m n tr]. unfold Payments.record_activation, recorded.
  rewrite run_bind. cbn [sync run mem calls trace].
  unfold Database.createSubscription.
  destruct (Database.fk_ok (pay_telegram_id payment) (srv_id server) (db m)).
  - cbn [of_result]. rewrite run_bind. cbn [of_result run].
    rewrite run_bind. cbn [write sync run mem calls trace].
    rewrite run_bind.
    destruct (String.eqb (id tariff) "trial"); cbn; destruct m; reflexivity.
  - cbn. rewrite set_db_same. reflexivity.
Qed.

Lemma keeps_db_notify_activation payment server tariff uuid iso sub :
  keeps same_db (Payments.notify_activation config payment server tariff uuid iso sub).
Proof.
  unfold Payments.notify_activation.
  apply keeps_bind; [apply keeps_of_result |]. intros link.
  apply keeps_bind; [cbn; intros; exact I |]. intros sent.
  apply keeps_bind; [apply keeps_of_result |]. intros _.
  apply keeps_bind; [| intros; apply keeps_db_logger].
  apply keeps_try_catch; [| intros; apply keeps_db_logger].
  apply keeps_bind; [cbn; intros; exact I |]. intros qr.
  apply keeps_bind; [apply keeps_of_result |]. intros _.
  apply keeps_bind; [cbn; intros; exact I |]. intros photo.
  apply keeps_of_result.
Qed.

Lemma ApiCourse_ok first unwrap A logins obj :
  ApiCourse first unwrap A logins (Ok obj) ->
  exists r, In r A /\ unwrap r = Ok obj.
Proof.
  intros H. inversion H; subst.
  - exists r. split; [left; reflexivity | congruence].
  - exists r2. split; [right; left; reflexivity | congruence].
Qed.

Lemma responses_In sel r evs :
  In r (responses sel evs) ->
  exists req, In (req, Responded r) (fetches evs) /\ sel req = true.
Proof.
  unfold responses. intros H. apply in_flat_map in H.
  destruct H as ([req out] & Hin & Hr). cbn [fst snd] in Hr.
  destruct out as [e | r']; [contradiction |].
  destruct (sel req) eqn:Hsel; [| contradiction].
  destruct Hr as [-> | []]. exists req. split; [exact Hin | exact Hsel].
Qed.

Lemma addClient_acknowledged serverCode uuid email limitIp trafficBytes expiry w w1 :
  run env (VpnManager.addClient config serverCode uuid email limitIp trafficBytes expiry) w
    = (Ok tt, w1) ->
  exists evs,
    trace w1 = trace w ++ evs
    /\ acknowledged config serverCode evs.
Proof.
  intros Hrun. unfold VpnManager.addClient in Hrun.
  rewrite run_bind, run_of_result in Hrun.
  destruct (VpnManager.getServerConfig config serverCode) as [srv | e] eqn:Hcfg;
    [| discriminate].
  rewrite run_bind in Hrun.
  destruct (run env (VpnManager.apiRequest config serverCode "POST"
                       "/panel/api/inbounds/addClient" _) w) as [[obj | e] w2] eqn:Hapi;
    [| discriminate].
  apply apiRequest_course in Hapi. destruct Hapi as (evs & Ht & Hcourse & Hurl).
  cbn [logger write sync run] in Hrun. inversion Hrun; subst. cbn [trace].
  apply ApiCourse_ok in Hcourse. destruct Hcourse as (r & Hin & Hr).
  apply responses_In in Hin. destruct Hin as (req & Hreq & Hcookie).
  exists evs. split; [exact Ht |].
  exists srv, req, r, obj. split; [exact Hcfg |]. split; [exact Hreq |].
  split; [| exact Hr].
  specialize (Hurl srv Hcfg). rewrite Forall_forall in Hurl.
  apply (Hurl (req, Responded r)); [apply list_elem_of_In; exact Hreq | exact Hcookie].
Qed.

Lemma acknowledged_app serverCode evs rest :
  acknowledged config serverCode evs -> acknowledged config serverCode (evs ++ rest).
Proof.
  intros (srv & req & r & obj & Hcfg & Hin & Hurl & Hr).
  exists srv, req, r, obj. split; [exact Hcfg |]. split; [| split; assumption].
  rewrite fetches_app. apply in_or_app. left. exact Hin.
Qed.

(** C1: the panel call comes first.  Whenever a run of
    [activateSubscription] changes the database at all, the panel has
    acknowledged the [addClient] of that run; and when that [addClient]
    throws, [activateSubscription] throws the same error, stops there,
    and the database is as it was: no subscription row, no completed
    payment. *)
Theorem activateSubscription_provisions_first payment w :
  let res := fst (run env (Payments.activateSubscription config payment) w) in
  let w' := snd (run env (Payments.activateSubscription config payment) w) in
  (db (mem w') <> db (mem w) ->
   exists server,
     Database.getServerById (pay_server_id payment) (db (mem w)) = Some server
     /\ acknowledged config (srv_code server) (new_events w w'))
  /\ (forall server tariff e w1,
        bot (mem w) = true ->
        Database.getServerById (pay_server_id payment) (db (mem w)) = Some server ->
        Tariffs.getTariff (srv_code server) (pay_tariff_id payment) = Ok (Some tariff) ->
        let uuid := uuid_source (mem w) (rand_n (mem w)) in
        run env (VpnManager.addClient config (srv_code server) uuid
                   (Payments.make_email payment server uuid) (maxDevices tariff) 0
                   (Payments.expiry_of tariff (now_ms (mem w)))) (after_uuid w)
        = (Err e, w1) ->
        res = Err e /\ w' = w1 /\ db (mem w') = db (mem w)).
Proof.
  intros res w'. subst res w'. rewrite activateSubscription_steps. split.
  - (* a change to the database *)
    destruct (bot (mem w)); cbn [negb]; [| intros H; contradiction H; reflexivity].
    destruct (Database.getServerById (pay_server_id payment) (db (mem w)))
      as [server |]; [| intros H; contradiction H; reflexivity].
    destruct (Tariffs.getTariff (srv_code server) (pay_tariff_id payment))
      as [[tariff |] | e0];
      [| intros H; contradiction H; reflexivity | intros H; contradiction H; reflexivity].
    cbv zeta.
    destruct (run env (VpnManager.addClient config _ _ _ _ _ _) (after_uuid w))
      as [[[] | e] w1] eqn:Hadd.
    + intros _. apply addClient_acknowledged in Hadd.
      destruct Hadd as (evs & Ht & Hack).
      exists server. split; [reflexivity |].
      match goal with
      | |- context [new_events w (snd ?x)] =>
          assert (Hrest : exists rest, trace (snd x) = trace w1 ++ rest)
      end.
      { rewrite record_activation_run.
        destruct (Database.createSubscription _ _ _ _ _ _ _ _ _ _) as [[sub | e] d1].
        - match goal with
          | |- context [run env ?p ?w2] =>
              destruct (run_trace env p w2) as (rest & Hr & _)
          end.
          exists rest. exact Hr.
        - exists []. rewrite app_nil_r. reflexivity. }
      destruct Hrest as (rest & Hrest).
      unfold new_events. rewrite Hrest, Ht. cbn [after_uuid trace].
      rewrite <- app_assoc, drop_app_length.
      apply acknowledged_app. exact Hack.
    + intros H. contradiction H. cbn [snd].
      pose proof (run_keeps same_db env _ (after_uuid w) frame_same_db
                    (keeps_db_addClient config (srv_code server)
                       (uuid_source (mem w) (rand_n (mem w)))
                       (Payments.make_email payment server
                          (uuid_source (mem w) (rand_n (mem w))))
                       (maxDevices tariff) 0
                       (Payments.expiry_of tariff (now_ms (mem w))))) as Hk.
      rewrite Hadd in Hk. exact Hk.
  - (* addClient throws *)
    intros server tariff e w1 Hbot Hsrv Htar uuid Hadd.
    rewrite Hbot, Hsrv, Htar. cbn [negb]. cbv zeta. subst uuid. rewrite Hadd.
    cbn [fst snd]. split; [reflexivity |]. split; [reflexivity |].
    pose proof (run_keeps same_db env _ (after_uuid w) frame_same_db
                  (keeps_db_addClient config (srv_code server)
                     (uuid_source (mem w) (rand_n (mem w)))
                     (Payments.make_email payment server
                        (uuid_source (mem w) (rand_n (mem w))))
                     (maxDevices tariff) 0
                     (Payments.expiry_of tariff (now_ms (mem w))))) as Hk.
    rewrite Hadd in Hk. exact Hk.
Qed.

End Activation.

Lemma activateSubscription_provisions_first_witness :
  let w := with_payments Scenario.w0 [trial_payment] in
  fst (run Scenario.unreachable
         (Payments.activateSubscription Scenario.config trial_payment) w)
  = Err "ECONNRESET"
  /\ db (mem (snd (run Scenario.unreachable
                     (Payments.activateSubscription Scenario.config trial_payment) w)))
     = db (mem w).
Proof.
  intros w.
  destruct (activateSubscription_provisions_first Scenario.config Scenario.unreachable
              trial_payment w) as [_ Hthrow].
  destruct (Hthrow Scenario.srv_ru
              (Tariffs.mk "trial" "Попробовать (1 день)" 0 1 1) "ECONNRESET"
              (snd (run Scenario.unreachable
                      (Payments.activateSubscription Scenario.config trial_payment) w)))
    as (Hres & _ & Hdb).
  - reflexivity.
  - reflexivity.
  - reflexivity.
  - vm_compute. reflexivity.
  - split; [exact Hres | exact Hdb].
Defined.

(** The three outcomes of the tariff lookup. *)
Lemma getServerTariffs_inherited serverCode :
  In serverCode Tariffs.inherited
  <-> Tariffs.getServerTariffs serverCode = Tariffs.Inherited.
Proof.
  unfold Tariffs.getServerTariffs. split.
  - intros Hin.
    assert (Hex : existsb (String.eqb serverCode) Tariffs.inherited = true).
    { apply existsb_exists. exists serverCode. split; [exact Hin | apply String.eqb_refl]. }
    rewrite Hex.
    cbn in Hin. repeat (destruct Hin as [<- | Hin]; [reflexivity |]). contradiction.
  - destruct (String.eqb serverCode "ru"); [discriminate |].
    destruct (String.eqb serverCode "nl"); [discriminate |].
    destruct (existsb (String.eqb serverCode) Tariffs.inherited) eqn:Hex; [| discriminate].
    intros _. apply existsb_exists in Hex. destruct Hex as (c & Hc & Heq).
    apply String.eqb_eq in Heq. subst c. exact Hc.
Qed.

Lemma getTariff_cases serverCode tariffId :
  (In serverCode Tariffs.inherited
   <-> exists e, Tariffs.getTariff serverCode tariffId = Err e)
  /\ (Tariffs.getTariff serverCode tariffId = Ok None
      <-> ~ In serverCode Tariffs.inherited
          /\ forall tariffs t,
               Tariffs.getServerTariffs serverCode = Tariffs.Own tariffs ->
               In t tariffs -> id t <> tariffId).
Proof.
  rewrite getServerTariffs_inherited. unfold Tariffs.getTariff.
  destruct (Tariffs.getServerTariffs serverCode) as [tariffs | |] eqn:Hlookup.
  - split.
    + split; [discriminate | intros [e He]; discriminate].
    + split.
      * intros Hnone. split; [discriminate |].
        intros tariffs' t Htariffs Ht Hid. inversion Htariffs; subst tariffs'.
        inversion Hnone as [Hfind].
        apply (find_none _ _ Hfind) in Ht. rewrite Hid, String.eqb_refl in Ht.
        discriminate.
      * intros [_ Hall]. f_equal.
        destruct (find (fun t => String.eqb (id t) tariffId) tariffs) as [t |] eqn:Hfind;
          [| reflexivity].
        apply find_some in Hfind. destruct Hfind as [Hin Hid].
        apply String.eqb_eq in Hid. exfalso. apply (Hall tariffs t eq_refl Hin Hid).
  - split.
    + split; [intros _; eexists; reflexivity | reflexivity].
    + split; [discriminate | intros [Hne _]; contradiction Hne; reflexivity].
  - split.
    + split; [discriminate | intros [e He]; discriminate].
    + split; [| reflexivity]. intros _. split; [discriminate |].
      intros tariffs t Htariffs. discriminate.
Qed.

Section MissingReference.

Variable config : AppConfig.
Variable env : Oracle.

(** C9, as the code has it.  An endpoint without configuration makes
    every panel operation throw the error of [getServerConfig] at once,
    with no call and no retry.  [activateSubscription] on a payment
    whose endpoint row cannot be resolved, or whose tariff the lookup
    reports as missing, does not throw: it writes an error to the log
    and returns normally, having made no call and no change to the
    database.  The tariff lookup itself throws, for the server codes
    that name a property which the table of tariffs inherits
    ([constructor] and the like) and for no others; that error
    [activateSubscription] throws to its caller at once, nothing
    logged, called or changed. *)
Theorem missing_reference_behaviour payment w :
  (forall serverCode,
      find (fun s => String.eqb (code s) serverCode) (servers config) = None ->
      let e := ("Server config not found for code: " ++ serverCode)%string in
      VpnManager.getServerConfig config serverCode = Err e
      /\ (forall uuid email limitIp trafficBytes expiry,
            run env (VpnManager.addClient config serverCode uuid email limitIp
                       trafficBytes expiry) w = (Err e, w))
      /\ (forall uuid,
            run env (VpnManager.removeClient config serverCode uuid) w = (Err e, w))
      /\ (forall email,
            run env (VpnManager.getClientTraffic config serverCode email) w = (Err e, w)))
  /\ (bot (mem w) = true ->
      Database.getServerById (pay_server_id payment) (db (mem w)) = None ->
      run env (Payments.activateSubscription config payment) w
      = (Ok tt, with_log w LError "Server not found for payment"))
  /\ (forall server,
        bot (mem w) = true ->
        Database.getServerById (pay_server_id payment) (db (mem w)) = Some server ->
        Tariffs.getTariff (srv_code server) (pay_tariff_id payment) = Ok None ->
        run env (Payments.activateSubscription config payment) w
        = (Ok tt, with_log w LError "Tariff not found"))
  /\ (forall server e,
        bot (mem w) = true ->
        Database.getServerById (pay_server_id payment) (db (mem w)) = Some server ->
        Tariffs.getTariff (srv_code server) (pay_tariff_id payment) = Err e ->
        run env (Payments.activateSubscription config payment) w = (Err e, w))
  /\ (forall serverCode tariffId,
        (In serverCode Tariffs.inherited
         <-> exists e, Tariffs.getTariff serverCode tariffId = Err e)
        /\ (Tariffs.getTariff serverCode tariffId = Ok None
            <-> ~ In serverCode Tariffs.inherited
                /\ forall tariffs t,
                     Tariffs.getServerTariffs serverCode = Tariffs.Own tariffs ->
                     In t tariffs -> id t <> tariffId)).
Proof.
  split; [| split; [| split; [| split]]].
  - intros serverCode Hfind e.
    destruct (unknown_server_throws config env serverCode w Hfind)
      as (Hcfg & _ & Hadd & Hdel & Htraffic).
    repeat split; assumption.
  - intros Hbot Hsrv. rewrite activateSubscription_steps, Hbot, Hsrv. reflexivity.
  - intros server Hbot Hsrv Htar.
    rewrite activateSubscription_steps, Hbot, Hsrv, Htar. reflexivity.
  - intros server e Hbot Hsrv Htar.
    rewrite activateSubscription_steps, Hbot, Hsrv, Htar. reflexivity.
  - intros serverCode tariffId. apply getTariff_cases.
Qed.

End MissingReference.

Lemma missing_reference_behaviour_witness :
  run Scenario.all_well
    (Payments.activateSubscription Scenario.config orphan_payment) Scenario.w0
  = (Ok tt, with_log Scenario.w0 LError "Server not found for payment")
  /\ run Scenario.all_well
       (VpnManager.removeClient Scenario.config "de" "0123abcd") Scenario.w0
     = (Err "Server config not found for code: de", Scenario.w0).
Proof.
  destruct (missing_reference_behaviour Scenario.config Scenario.all_well
              orphan_payment Scenario.w0) as (Hcfg & Hsrv & _).
  split.
  - apply Hsrv; reflexivity.
  - destruct (Hcfg "de" eq_refl) as (_ & _ & Hdel & _). apply Hdel.
Defined.

(** C9 as the specification words it does not hold: activating a
    payment whose endpoint row is missing returns normally; the caller
    sees no error, only the log does. *)
Lemma activateSubscription_swallows_missing_server :
  let out := run Scenario.all_well
               (Payments.activateSubscription Scenario.config orphan_payment)
               Scenario.w0 in
  fst out = Ok tt
  /\ log (mem (snd out)) = [(LError, "Server not found for payment")]
  /\ trace (snd out) = []
  /\ db (mem (snd out)) = Scenario.db0.
Proof. vm_compute. repeat split; reflexivity. Qed.

(* ================================================================= *)
(** * The Subscription Lifecycle Store *)

Lemma PaymentStatus_eqb_eq a b : PaymentStatus_eqb a b = true <-> a = b.
Proof. destruct a, b; cbn; split; intros H; try reflexivity; discriminate. Qed.

Lemma is_old_pending_due now p : Database.is_old_pending now p = true <-> due now p.
Proof.
  unfold Database.is_old_pending, due. rewrite andb_true_iff, PaymentStatus_eqb_eq.
  reflexivity.
Qed.

Lemma expired_not_due now done p :
  Database.is_old_pending now (Database.set_status expired done p) = false.
Proof. reflexivity. Qed.

Lemma changed_count now (ps : list Payment) :
  length (List.filter
            (fun pp => negb (PaymentStatus_eqb (status (fst pp)) (status (snd pp))))
            (combine ps
               (map (fun p => if Database.is_old_pending now p
                              then Database.set_status expired (completed_at p) p
                              else p) ps)))
  = length (List.filter (Database.is_old_pending now) ps).
Proof.
  induction ps as [| p ps IH]; [reflexivity |].
  cbn [map combine List.filter fst snd].
  destruct (Database.is_old_pending now p) eqn:Hold.
  - apply is_old_pending_due in Hold. destruct Hold as [Hst _].
    cbn [Database.set_status status]. rewrite Hst. cbn. rewrite IH. reflexivity.
  - assert (Hsame : PaymentStatus_eqb (status p) (status p) = true)
      by (apply PaymentStatus_eqb_eq; reflexivity).
    rewrite Hsame. cbn. exact IH.
Qed.

(** C5, as the code has it: [expireOldPayments] turns into [expired]
    exactly the payments that are [pending] and whose [created_at] is
    not later than 24 hours before now (an age of exactly 24 hours
    included), changes nothing else in those rows, leaves every other
    row and every other table as it was, returns the number of rows it
    changed, and run again at the same instant changes nothing and
    returns 0. *)
Theorem expireOldPayments_spec now d :
  let n := fst (Database.expireOldPayments now d) in
  let d' := snd (Database.expireOldPayments now d) in
  length (Database.payments d') = length (Database.payments d)
  /\ (forall i p,
        Database.payments d !! i = Some p ->
        (due now p ->
         Database.payments d' !! i = Some (Database.set_status expired (completed_at p) p))
        /\ (~ due now p -> Database.payments d' !! i = Some p))
  /\ n = Z.of_nat (changed_payments d d')
  /\ Database.servers d' = Database.servers d
  /\ Database.users d' = Database.users d
  /\ Database.subscriptions d' = Database.subscriptions d
  /\ Database.alerts d' = Database.alerts d
  /\ Database.expireOldPayments now d' = (0, d').
Proof.
  intros n d'. subst n d'. unfold Database.expireOldPayments. cbn [fst snd].
  unfold Database.with_payments. cbn [Database.payments Database.servers Database.users
    Database.subscriptions Database.alerts].
  split; [apply length_map |].
  split.
  { intros i p Hi. rewrite list_lookup_fmap, Hi. cbn.
    split; intros Hdue.
    - apply is_old_pending_due in Hdue. rewrite Hdue. reflexivity.
    - destruct (Database.is_old_pending now p) eqn:Hold; [| reflexivity].
      apply is_old_pending_due in Hold. contradiction. }
  split.
  { unfold changed_payments. cbn [Database.payments]. rewrite changed_count.
    reflexivity. }
  repeat (split; [reflexivity |]).
  cbn [Database.payments Database.servers Database.users Database.subscriptions
         Database.alerts Database.seq_subscriptions Database.seq_payments].
  assert (Hfix : forall ps : list Payment,
             let ps' := map (fun p => if Database.is_old_pending now p
                                      then Database.set_status expired (completed_at p) p
                                      else p) ps in
             List.filter (Database.is_old_pending now) ps' = []
             /\ map (fun p => if Database.is_old_pending now p
                              then Database.set_status expired (completed_at p) p
                              else p) ps' = ps').
  { induction ps as [| p ps [IH1 IH2]]; [split; reflexivity |].
    cbn [map List.filter].
    destruct (Database.is_old_pending now p) eqn:Hold.
    - rewrite expired_not_due. split; [exact IH1 | f_equal; exact IH2].
    - rewrite Hold. split; [exact IH1 | f_equal; exact IH2]. }
  destruct (Hfix (Database.payments d)) as [Hnone Hsame].
  rewrite Hnone, Hsame. reflexivity.
Qed.

(** C5 as the specification words it does not hold: a pending payment
    whose age is exactly 24 hours, and so not over 24 hours, is
    expired. *)
Lemma expireOldPayments_expires_at_24h :
  let now := Scenario.t0 + Clock.hours 24 in
  map status (Database.payments db_with_fresh_payment) = [pending]
  /\ now - Scenario.t0 = Clock.hours 24
  /\ Database.expireOldPayments now db_with_fresh_payment
     = (1, Database.with_payments db_with_fresh_payment
             (map (Database.set_status expired None)
                (Database.payments db_with_fresh_payment))).
Proof. vm_compute. repeat split; reflexivity. Qed.

(** One second earlier the payment is left pending. *)
Example expireOldPayments_keeps_younger :
  Database.expireOldPayments (Scenario.t0 + Clock.hours 24 - 1000) db_with_fresh_payment
  = (0, db_with_fresh_payment).
Proof. vm_compute. reflexivity. Qed.

(* ================================================================= *)
(** * The Scheduler: expiry sweep *)

Section ExpirySweep.

Variable config : AppConfig.
Variable env : Oracle.

Lemma expire_one_run sub w :
  exists w',
    run env (Cron.expire_one config sub) w = (Ok tt, w')
    /\ db (mem w') = Database.deactivateSubscription (sub_id (fst sub)) (db (mem w)).
Proof.
  unfold Cron.expire_one. rewrite run_bind, run_try_catch.
  pose proof (run_keeps same_db env
                (VpnManager.removeClient config (srv_code (snd sub)) (client_uuid (fst sub)))
                w frame_same_db (keeps_db_removeClient config _ _)) as Hkeep.
  destruct (run env (VpnManager.removeClient config (srv_code (snd sub))
                       (client_uuid (fst sub))) w) as [[[] | e] w1];
    cbn [snd] in Hkeep; unfold same_db in Hkeep.
  - rewrite run_bind. cbn [write sync run mem calls trace].
    rewrite run_bind, run_try_catch, run_bind. cbn [await run settle_call mem].
    match goal with
    | |- context [env ?n (Telegram ?c)] => destruct (env n (Telegram c)) as [[] | e]
    end; cbn [of_result run logger write sync mem calls trace];
      eexists; (split; [reflexivity |]); cbn [mem db set_db add_log]; congruence.
  - cbn [logger write sync run mem calls trace].
    rewrite run_bind. cbn [write sync run mem calls trace].
    rewrite run_bind, run_try_catch, run_bind. cbn [await run settle_call mem].
    match goal with
    | |- context [env ?n (Telegram ?c)] => destruct (env n (Telegram c)) as [[] | e']
    end; cbn [of_result run logger write sync mem calls trace];
      eexists; (split; [reflexivity |]); cbn [mem db set_db add_log]; congruence.
Qed.

Lemma expire_loop_run l w :
  exists w',
    run env (for_of l (Cron.expire_one config)) w = (Ok tt, w')
    /\ db (mem w') = deactivate_all l (db (mem w)).
Proof.
  revert w. induction l as [| sub rest IH]; intros w.
  - exists w. split; reflexivity.
  - cbn [for_of]. rewrite run_bind.
    destruct (expire_one_run sub w) as (w1 & Hrun & Hdb). rewrite Hrun.
    destruct (IH w1) as (w' & Hrest & Hdb'). exists w'.
    split; [exact Hrest |]. rewrite Hdb', Hdb. reflexivity.
Qed.

(** One tick of the expiry sweep never throws, and leaves the database
    as [deactivateSubscription] leaves it for every row that
    [getExpiredSubscriptions] listed: whether the panel removed the
    client or not has no part in it. *)
Lemma expirySweep_run w :
  exists w',
    run env (Cron.expirySweep config) w = (Ok tt, w')
    /\ db (mem w')
       = deactivate_all (Database.getExpiredSubscriptions (now_ms (mem w)) (db (mem w)))
           (db (mem w)).
Proof.
  unfold Cron.expirySweep. rewrite run_try_catch, run_bind.
  cbn [read sync run mem calls trace].
  destruct (expire_loop_run
              (Database.getExpiredSubscriptions (now_ms (mem w)) (db (mem w)))
              {| mem := mem w; calls := calls w; trace := trace w |})
    as (w' & Hrun & Hdb).
  rewrite Hrun. exists w'. split; [reflexivity | exact Hdb].
Qed.

End ExpirySweep.

Lemma deactivate_all_subscriptions l d :
  Database.subscriptions (deactivate_all l d)
  = map (fun s => if existsb (fun x => sub_id (fst x) =? sub_id s) l
                  then Database.set_inactive s else s)
        (Database.subscriptions d).
Proof.
  revert d. induction l as [| x rest IH]; intros d.
  - cbn. rewrite map_id. reflexivity.
  - cbn [deactivate_all fold_left]. fold (deactivate_all rest).
    rewrite IH. cbn [Database.deactivateSubscription Database.with_subscriptions
                       Database.subscriptions].
    rewrite map_map. apply map_ext. intros s. cbn [existsb].
    rewrite (Z.eqb_sym (sub_id (fst x)) (sub_id s)).
    destruct (sub_id s =? sub_id (fst x)) eqn:Hid; cbn [orb].
    + cbn [Database.set_inactive sub_id].
      match goal with |- context [existsb ?f rest] => destruct (existsb f rest) end;
        reflexivity.
    + reflexivity.
Qed.

Lemma deactivate_all_servers l d :
  Database.servers (deactivate_all l d) = Database.servers d.
Proof.
  revert d. induction l as [| x rest IH]; intros d; [reflexivity |].
  cbn [deactivate_all fold_left]. fold (deactivate_all rest). rewrite IH. reflexivity.
Qed.

Lemma In_insert_desc x y l : In x (Database.insert_desc y l) -> x = y \/ In x l.
Proof.
  induction l as [| z l IH]; cbn.
  - intros [H | []]. left. congruence.
  - destruct (Clock.text_le _ _); cbn.
    + intros [H | H]; [right; left; exact H |].
      destruct (IH H) as [H' | H']; [left; exact H' | right; right; exact H'].
    + intros [H | H]; [left; congruence | right; exact H].
Qed.

Lemma In_order_by_created_desc x l :
  In x (Database.order_by_created_desc l) -> In x l.
Proof.
  unfold Database.order_by_created_desc.
  assert (Hgen : forall acc, In x (fold_left (fun acc y => Database.insert_desc y acc) l acc)
                             -> In x acc \/ In x l).
  { induction l as [| y l IH]; intros acc; cbn; [left; assumption |].
    intros H. destruct (IH _ H) as [H' | H'].
    - apply In_insert_desc in H'. destruct H' as [-> | H']; [right; left; reflexivity |].
      left. exact H'.
    - right. right. exact H'. }
  intros H. destruct (Hgen [] H) as [[] | H']. exact H'.
Qed.

(** Rows listed by [getActiveSubscriptions] are rows of the table with
    [is_active = 1]. *)
Lemma getActiveSubscriptions_active x telegramId d :
  In x (Database.getActiveSubscriptions telegramId d) ->
  In (fst x) (Database.subscriptions d) /\ is_active (fst x) = 1.
Proof.
  unfold Database.getActiveSubscriptions. intros H.
  apply In_order_by_created_desc in H. apply in_flat_map in H.
  destruct H as (s & Hs & Hx). apply filter_In in Hs. destruct Hs as [Hin Hact].
  unfold Database.join_server in Hx.
  destruct (Database.getServerById (sub_server_id s) d); [| contradiction].
  destruct Hx as [<- | []]. cbn [fst]. split; [exact Hin |].
  apply andb_true_iff in Hact. destruct Hact as [_ Hact]. apply Z.eqb_eq in Hact.
  exact Hact.
Qed.

Section ExpirySweepEffect.

Variable config : AppConfig.
Variable env : Oracle.

(** The part of C6 that the code satisfies: every subscription that the
    tick's query lists is inactive after the tick and absent from its
    owner's active subscriptions, whatever the panel and Telegram
    answered. *)
Lemma expirySweep_deactivates_listed w sub :
  In sub (Database.getExpiredSubscriptions (now_ms (mem w)) (db (mem w))) ->
  let out := run env (Cron.expirySweep config) w in
  fst out = Ok tt
  /\ (forall s, In s (Database.subscriptions (db (mem (snd out)))) ->
                sub_id s = sub_id (fst sub) -> is_active s = 0)
  /\ (forall telegramId x,
        In x (Database.getActiveSubscriptions telegramId (db (mem (snd out)))) ->
        sub_id (fst x) <> sub_id (fst sub)).
Proof.
  intros Hlisted out. subst out.
  destruct (expirySweep_run config env w) as (w' & Hrun & Hdb). rewrite Hrun.
  cbn [fst snd]. split; [reflexivity |].
  assert (Hinactive : forall s, In s (Database.subscriptions (db (mem w'))) ->
                                sub_id s = sub_id (fst sub) -> is_active s = 0).
  { intros s Hs Hid. rewrite Hdb, deactivate_all_subscriptions in Hs.
    apply in_map_iff in Hs. destruct Hs as (s0 & Hs0 & _).
    destruct (existsb _ _) eqn:Hex in Hs0.
    - subst s. reflexivity.
    - subst s0. exfalso.
      assert (Htrue : existsb (fun x => sub_id (fst x) =? sub_id s)
                        (Database.getExpiredSubscriptions (now_ms (mem w)) (db (mem w)))
                      = true).
      { apply existsb_exists. exists sub. split; [exact Hlisted |].
        apply Z.eqb_eq. symmetry. exact Hid. }
      congruence. }
  split; [exact Hinactive |].
  intros telegramId x Hx Hid.
  apply getActiveSubscriptions_active in Hx. destruct Hx as [Hin Hact].
  specialize (Hinactive (fst x) Hin Hid). lia.
Qed.

End ExpirySweepEffect.

(** *** The sweep and the two timestamp formats *)

(** C6 on the code: the subscription written by [activateSubscription]
    carries [expires_at] in the ISO form ("...T10:00:00.000Z"), the
    sweep compares it as text with SQLite's "... 23:00:00" form, and
    "T" sorts after the blank.  A subscription that ran out earlier on
    the same UTC day is therefore not listed: the tick makes no panel
    call and leaves it active, while [formatTimeLeft], which parses the
    date, already reports it as run out.  It is swept once the date
    has changed. *)
Theorem expirySweep_misses_expiry_of_today :
  map expires_at (Database.subscriptions (db (mem after_trial)))
    = ["2026-11-01T10:00:00.000Z"]
  /\ Clock.sqlite_datetime evening_after = "2026-11-01 23:00:00"
  /\ Scenario.t0 + 24 * 60 * 60000 < evening_after
  /\ (let out := run Scenario.all_well (Cron.expirySweep Scenario.config)
                   (at_time evening_after after_trial) in
      fst out = Ok tt
      /\ new_events after_trial (snd out) = []
      /\ map is_active (Database.subscriptions (db (mem (snd out)))) = [1]
      /\ length (Database.getActiveSubscriptions 42 (db (mem (snd out)))) = 1%nat
      /\ map (fun s => Helpers.formatTimeLeft evening_after (expires_at s))
           (Database.subscriptions (db (mem (snd out))))
         = [Helpers.expired_text])
  /\ (let out := run Scenario.all_well (Cron.expirySweep Scenario.config)
                   (at_time next_midnight after_trial) in
      map is_active (Database.subscriptions (db (mem (snd out)))) = [0]
      /\ Database.getActiveSubscriptions 42 (db (mem (snd out))) = []).
Proof. vm_compute. repeat split; reflexivity. Qed.

(** [/status] on the evening after: the subscription is listed, as run
    out. *)
Example status_lists_run_out_subscription :
  new_events after_trial
    (snd (run Scenario.all_well
            (Handlers.handleStatus {| Handlers.from := Some 42;
                                      Handlers.callbackData := None |})
            (at_time evening_after after_trial)))
  = [Called (Telegram (Reply (Handlers.join_lines
                                ["Твои подписки:"; ""; "1. RU Russia — истекла"; ""])))
       (Ok tt)].
Proof. vm_compute. reflexivity. Qed.


(* ================================================================= *)
(** * The Payment Reconciler: who may activate a payment *)

Section Reconciler.

Variable config : AppConfig.
Variable env : Oracle.

Lemma handleCheckPayment_rejects ctx data fromId w :
  Handlers.callbackData ctx = Some data ->
  Handlers.from ctx = Some fromId ->
  settled_or_absent (Handlers.remove_first "check:" data) (db (mem w)) ->
  let out := run env (Handlers.handleCheckPayment config ctx) w in
  db (mem (snd out)) = db (mem w)
  /\ fetches (new_events w (snd out)) = []
  /\ length (new_events w (snd out)) = 2%nat.
Proof.
  intros Hdata Hfrom Hstale out. subst out.
  unfold Handlers.handleCheckPayment. rewrite Hdata, Hfrom.
  rewrite run_bind. cbn [await run settle_call].
  rewrite run_bind. cbn [read sync run mem calls trace].
  unfold settled_or_absent in Hstale.
  assert (Hanswer : forall text w1,
             let out := run env (Handlers.answerCbQuery text) w1 in
             mem (snd out) = mem w1
             /\ exists ev, trace (snd out) = trace w1 ++ [Called (Telegram (AnswerCbQuery text)) ev]).
  { intros text w1. unfold Handlers.answerCbQuery. rewrite run_bind.
    cbn [await run settle_call].
    destruct (env (calls w1) (Telegram (AnswerCbQuery text))) as [[] | e];
      cbn [of_result run snd mem trace]; split; eauto. }
  destruct (Database.getPaymentByInvoiceId (Handlers.remove_first "check:" data)
              (db (mem w))) as [p |].
  - destruct (PaymentStatus_eqb (status p) pending) eqn:Hst.
    + apply PaymentStatus_eqb_eq in Hst. contradiction.
    + cbn [negb].
      match goal with
      | |- context [run env (Handlers.answerCbQuery ?t) ?w1] =>
          destruct (Hanswer t w1) as (Hm & ev & Ht)
      end.
      rewrite Hm. cbn [mem]. split; [reflexivity |].
      unfold new_events. rewrite Ht. cbn [trace].
      rewrite <- app_assoc, drop_app_length. split; reflexivity.
  - match goal with
    | |- context [run env (Handlers.answerCbQuery ?t) ?w1] =>
        destruct (Hanswer t w1) as (Hm & ev & Ht)
    end.
    rewrite Hm. cbn [mem]. split; [reflexivity |].
    unfold new_events. rewrite Ht. cbn [trace].
    rewrite <- app_assoc, drop_app_length. split; reflexivity.
Qed.

Lemma pollPendingPayments_idle w :
  Database.getPendingPayments (db (mem w)) = [] ->
  run env (Payments.pollPendingPayments config) w = (Ok tt, w).
Proof.
  intros Hnone. unfold Payments.pollPendingPayments. rewrite run_bind.
  cbn [read sync run mem calls trace]. rewrite Hnone. destruct w; reflexivity.
Qed.

Lemma activateSubscription_completes payment w :
  let w' := snd (run env (Payments.activateSubscription config payment) w) in
  Database.subscriptions (db (mem w')) <> Database.subscriptions (db (mem w)) ->
  (exists sub,
      Database.subscriptions (db (mem w')) = Database.subscriptions (db (mem w)) ++ [sub])
  /\ (forall p, In p (Database.payments (db (mem w'))) ->
                pay_id p = pay_id payment -> status p = completed).
Proof.
  intros w'. subst w'. rewrite activateSubscription_steps.
  destruct (bot (mem w)); cbn [negb]; [| intros H; contradiction H; reflexivity].
  destruct (Database.getServerById (pay_server_id payment) (db (mem w)))
    as [server |]; [| intros H; contradiction H; reflexivity].
  destruct (Tariffs.getTariff (srv_code server) (pay_tariff_id payment))
    as [[tariff |] | e0];
    [| intros H; contradiction H; reflexivity | intros H; contradiction H; reflexivity].
  cbv zeta.
  pose proof (run_keeps same_db env _ (after_uuid w) frame_same_db
                (keeps_db_addClient config (srv_code server)
                   (uuid_source (mem w) (rand_n (mem w)))
                   (Payments.make_email payment server
                      (uuid_source (mem w) (rand_n (mem w))))
                   (maxDevices tariff) 0
                   (Payments.expiry_of tariff (now_ms (mem w))))) as Hadd.
  unfold same_db in Hadd. cbn [after_uuid mem bump_rand db] in Hadd.
  destruct (run env (VpnManager.addClient config _ _ _ _ _ _) (after_uuid w))
    as [[[] | e] w1]; cbn [snd] in Hadd.
  2:{ intros H. contradiction H. cbn [snd]. rewrite Hadd. reflexivity. }
  rewrite record_activation_run. unfold Database.createSubscription.
  destruct (Database.fk_ok _ _ _).
  2:{ intros H. contradiction H. cbn [snd]. rewrite Hadd. reflexivity. }
  match goal with
  | |- context [run env (Payments.notify_activation ?c ?p ?s ?t ?u ?i ?sub) ?w2] =>
      pose proof (run_keeps same_db env _ w2 frame_same_db
                    (keeps_db_notify_activation c p s t u i sub)) as Hnotify
  end.
  unfold same_db in Hnotify. cbn [mem set_db db] in Hnotify.
  intros _. rewrite Hnotify, Hadd. unfold recorded.
  split.
  - eexists.
    destruct (String.eqb (id tariff) "trial"); cbn; reflexivity.
  - intros p Hp Hid.
    assert (Hcompleted :
              In p (Database.payments
                      (Database.completePayment (now_ms (mem w1)) (pay_id payment)
                         {| Database.servers := Database.servers (db (mem w));
                            Database.users := Database.users (db (mem w));
                            Database.subscriptions := Database.subscriptions (db (mem w));
                            Database.payments := Database.payments (db (mem w));
                            Database.alerts := Database.alerts (db (mem w));
                            Database.seq_subscriptions :=
                              Database.seq_subscriptions (db (mem w));
                            Database.seq_payments := Database.seq_payments (db (mem w)) |}))).
    { destruct (String.eqb (id tariff) "trial"); cbn in Hp |- *; exact Hp. }
    cbn in Hcompleted. apply in_map_iff in Hcompleted.
    destruct Hcompleted as (p0 & Hp0 & _).
    destruct (pay_id p0 =? pay_id payment) eqn:Hp0id.
    + subst p. reflexivity.
    + subst p0. apply Z.eqb_neq in Hp0id. contradiction.
Qed.

(** What one activation and one manual check can do to the database. *)

Lemma keeps_db_answerCbQuery text : keeps same_db (Handlers.answerCbQuery text).
Proof. intros r. apply keeps_of_result. Qed.

Lemma keeps_db_reply text : keeps same_db (Handlers.reply text).
Proof. intros r. apply keeps_of_result. Qed.

Lemma keeps_db_checkYooMoneyPayment label_ :
  keeps same_db (Payments.checkYooMoneyPayment config label_).
Proof.
  unfold Payments.checkYooMoneyPayment.
  destruct (String.eqb _ _); [exact I |].
  intros outcome.
  assert (Herr : keeps same_db Payments.yoomoney_error).
  { unfold Payments.yoomoney_error. apply keeps_bind; [apply keeps_db_logger |].
    intros _. exact I. }
  cbn [bind].
  destruct outcome as [e | res]; [exact Herr |].
  destruct (resp_json res) as [data |]; [| exact Herr].
  destruct data; try exact Herr;
    repeat match goal with
           | |- keeps _ (match ?x with _ => _ end) => destruct x
           end; try exact Herr; exact I.
Qed.

Lemma activateSubscription_effect payment w :
  let w' := snd (run env (Payments.activateSubscription config payment) w) in
  db (mem w') = db (mem w)
  \/ exists sub now,
      Database.subscriptions (db (mem w')) = Database.subscriptions (db (mem w)) ++ [sub]
      /\ Database.payments (db (mem w'))
         = Database.payments (Database.completePayment now (pay_id payment) (db (mem w))).
Proof.
  intros w'. subst w'. rewrite activateSubscription_steps.
  destruct (bot (mem w)); cbn [negb]; [| left; reflexivity].
  destruct (Database.getServerById (pay_server_id payment) (db (mem w)))
    as [server |]; [| left; reflexivity].
  destruct (Tariffs.getTariff (srv_code server) (pay_tariff_id payment))
    as [[tariff |] | e0]; [| left; reflexivity | left; reflexivity].
  cbv zeta.
  pose proof (run_keeps same_db env _ (after_uuid w) frame_same_db
                (keeps_db_addClient config (srv_code server)
                   (uuid_source (mem w) (rand_n (mem w)))
                   (Payments.make_email payment server
                      (uuid_source (mem w) (rand_n (mem w))))
                   (maxDevices tariff) 0
                   (Payments.expiry_of tariff (now_ms (mem w))))) as Hadd.
  unfold same_db in Hadd. cbn [after_uuid mem bump_rand db] in Hadd.
  destruct (run env (VpnManager.addClient config _ _ _ _ _ _) (after_uuid w))
    as [[[] | e] w1]; cbn [snd] in Hadd.
  2:{ left. cbn [snd]. exact Hadd. }
  rewrite record_activation_run. unfold Database.createSubscription.
  destruct (Database.fk_ok _ _ _).
  2:{ left. cbn [snd]. exact Hadd. }
  match goal with
  | |- context [run env (Payments.notify_activation ?c ?p ?s ?t ?u ?i ?sub) ?w2] =>
      pose proof (run_keeps same_db env _ w2 frame_same_db
                    (keeps_db_notify_activation c p s t u i sub)) as Hnotify
  end.
  unfold same_db in Hnotify. cbn [mem set_db db] in Hnotify.
  right. rewrite Hnotify, Hadd. unfold recorded.
  eexists. exists (now_ms (mem w1)).
  destruct (String.eqb (id tariff) "trial"); cbn; split; reflexivity.
Qed.

Lemma handleCheckPayment_effect ctx w :
  let w' := snd (run env (Handlers.handleCheckPayment config ctx) w) in
  db (mem w') = db (mem w)
  \/ exists data p w1,
      Handlers.callbackData ctx = Some data
      /\ Database.getPaymentByInvoiceId (Handlers.remove_first "check:" data) (db (mem w))
         = Some p
      /\ status p = pending
      /\ db (mem w1) = db (mem w)
      /\ w' = snd (run env (Payments.activateSubscription config p) w1).
Proof.
  intros w'. subst w'. unfold Handlers.handleCheckPayment.
  destruct (Handlers.callbackData ctx) as [data |]; [| left; reflexivity].
  destruct (Handlers.from ctx) as [fromId |]; [| left; reflexivity].
  rewrite run_bind. cbn [await run settle_call].
  rewrite run_bind. cbn [read sync run mem calls trace].
  destruct (Database.getPaymentByInvoiceId (Handlers.remove_first "check:" data)
              (db (mem w))) as [p |] eqn:Hfind.
  2:{ left.
      match goal with
      | |- context [run env (Handlers.answerCbQuery ?t) ?w1] =>
          exact (run_keeps same_db env _ w1 frame_same_db (keeps_db_answerCbQuery t))
      end. }
  destruct (PaymentStatus_eqb (status p) pending) eqn:Hst; cbn [negb].
  2:{ left.
      match goal with
      | |- context [run env (Handlers.answerCbQuery ?t) ?w1] =>
          exact (run_keeps same_db env _ w1 frame_same_db (keeps_db_answerCbQuery t))
      end. }
  apply PaymentStatus_eqb_eq in Hst.
  rewrite run_bind.
  match goal with
  | |- context [run env (Handlers.answerCbQuery ?t) ?w1] =>
      pose proof (run_keeps same_db env _ w1 frame_same_db (keeps_db_answerCbQuery t))
        as Hanswer;
      destruct (run env (Handlers.answerCbQuery t) w1) as [[[] | e] w2]
  end; cbn [snd mem] in Hanswer; unfold same_db in Hanswer; cbn [mem db] in Hanswer.
  2:{ left. exact Hanswer. }
  rewrite run_bind.
  pose proof (run_keeps same_db env _ w2 frame_same_db
                (keeps_db_checkYooMoneyPayment (Handlers.remove_first "check:" data)))
    as Hquery.
  destruct (run env (Payments.checkYooMoneyPayment config _) w2) as [[paid | e] w3];
    cbn [snd] in Hquery; unfold same_db in Hquery.
  2:{ left. cbn [snd]. congruence. }
  destruct paid.
  - right. exists data, p, w3.
    split; [reflexivity |]. split; [exact Hfind |]. split; [exact Hst |].
    split; [congruence | reflexivity].
  - left.
    pose proof (run_keeps same_db env _ w3 frame_same_db
                  (keeps_db_reply "Оплата пока не поступила.")) as Hreply.
    unfold same_db in Hreply. congruence.
Qed.

Lemma getPaymentByInvoiceId_completePayment label_ now i d p :
  Database.getPaymentByInvoiceId label_ d = Some p ->
  pay_id p = i ->
  exists p', Database.getPaymentByInvoiceId label_ (Database.completePayment now i d)
             = Some p'
             /\ status p' = completed.
Proof.
  unfold Database.getPaymentByInvoiceId, Database.completePayment.
  destruct d as [srvs usrs subs pays alerts n1 n2].
  cbn [Database.payments Database.with_payments].
  induction pays as [| q rest IH]; cbn [find map]; [discriminate |].
  intros Hfind Hid.
  assert (Hinv : forall st done, Database.invoice_is label_ (Database.set_status st done q)
                                 = Database.invoice_is label_ q) by reflexivity.
  destruct (Database.invoice_is label_ q) eqn:Hq.
  - inversion Hfind; subst q.
    destruct (pay_id p =? i) eqn:Hi; [| apply Z.eqb_neq in Hi; contradiction].
    rewrite Hinv. eexists. split; reflexivity.
  - destruct (pay_id q =? i); [rewrite Hinv | rewrite Hq]; apply IH; assumption.
Qed.

End Reconciler.

(** Two manual checks of one invoice, the second started after the first
    has finished, record at most one subscription: when the first one
    recorded it, it also completed the payment, so the second one finds
    the payment settled. *)

Lemma activation_adds_at_most_one config env payment w :
  (length (Database.subscriptions
             (db (mem (snd (run env (Payments.activateSubscription config payment) w)))))
   <= length (Database.subscriptions (db (mem w))) + 1)%nat.
Proof.
  destruct (activateSubscription_effect config env payment w)
    as [Hsame | (sub & now & Hsubs & _)].
  - rewrite Hsame. lia.
  - rewrite Hsubs, length_app. cbn [length]. lia.
Qed.

Lemma check_adds_at_most_one config env ctx w :
  (length (Database.subscriptions
             (db (mem (snd (run env (Handlers.handleCheckPayment config ctx) w)))))
   <= length (Database.subscriptions (db (mem w))) + 1)%nat.
Proof.
  destruct (handleCheckPayment_effect config env ctx w)
    as [Hsame | (data & p & w1 & _ & _ & _ & Hdb & Hrun)].
  - rewrite Hsame. lia.
  - rewrite Hrun, <- Hdb. apply activation_adds_at_most_one.
Qed.

Lemma handleCheckPayment_twice config env env2 ctx w :
  let w1 := snd (run env (Handlers.handleCheckPayment config ctx) w) in
  let w2 := snd (run env2 (Handlers.handleCheckPayment config ctx) w1) in
  (length (Database.subscriptions (db (mem w2)))
   <= length (Database.subscriptions (db (mem w))) + 1)%nat.
Proof.
  intros w1 w2.
  destruct (handleCheckPayment_effect config env ctx w)
    as [Hsame | (data & p & wa & Hdata & Hfind & Hst & Hdb & Hrun)]; fold w1 in Hsame || fold w1 in Hrun.
  - (* the first check changed nothing *)
    rewrite <- Hsame. apply check_adds_at_most_one.
  - destruct (activateSubscription_effect config env p wa)
      as [Hsame | (sub & now & Hsubs & Hpays)]; rewrite <- Hrun in *.
    + rewrite <- Hdb, <- Hsame. apply check_adds_at_most_one.
    + (* the first check recorded a subscription: the payment is settled *)
      assert (Hlen : length (Database.subscriptions (db (mem w1)))
                     = (length (Database.subscriptions (db (mem w))) + 1)%nat).
      { rewrite Hsubs, Hdb, length_app. reflexivity. }
      rewrite <- Hlen.
      destruct (handleCheckPayment_effect config env2 ctx w1)
        as [Hsame2 | (data2 & p2 & wb & Hdata2 & Hfind2 & Hst2 & _)]; [fold w2 in Hsame2 |].
      * rewrite Hsame2. lia.
      * exfalso. rewrite Hdata in Hdata2. inversion Hdata2; subst data2.
        rewrite <- Hdb in Hfind.
        destruct (getPaymentByInvoiceId_completePayment _ now (pay_id p) _ p
                    Hfind eq_refl) as (p' & Hfind' & Hdone).
        unfold Database.getPaymentByInvoiceId in Hfind2, Hfind'.
        rewrite Hpays, Hfind' in Hfind2. inversion Hfind2; subst p2.
        rewrite Hdone in Hst2. discriminate.
Qed.

Section InTurn.

Variable config : AppConfig.
Variable env : Oracle.

Lemma getPendingPayments_status d p :
  In p (Database.getPendingPayments d)
  <-> In p (Database.payments d) /\ status p = pending.
Proof.
  unfold Database.getPendingPayments.
  rewrite List.filter_In, PaymentStatus_eqb_eq. reflexivity.
Qed.

Lemma pending_after_complete now i ps :
  List.filter (fun p => PaymentStatus_eqb (status p) pending)
    (map (fun p => if pay_id p =? i
                   then Database.set_status completed (Some (Clock.sqlite_datetime now)) p
                   else p) ps)
  = List.filter (fun p => negb (pay_id p =? i))
      (List.filter (fun p => PaymentStatus_eqb (status p) pending) ps).
Proof.
  induction ps as [| q ps IH]; [reflexivity |].
  cbn [map List.filter]. destruct (pay_id q =? i) eqn:Hi.
  - cbn [status Database.set_status PaymentStatus_eqb]. rewrite IH.
    destruct (PaymentStatus_eqb (status q) pending); [| reflexivity].
    cbn [List.filter]. rewrite Hi. reflexivity.
  - rewrite IH. destruct (PaymentStatus_eqb (status q) pending); [| reflexivity].
    cbn [List.filter]. rewrite Hi. reflexivity.
Qed.

Lemma ids_after_complete now i ps :
  map pay_id
    (map (fun p => if pay_id p =? i
                   then Database.set_status completed (Some (Clock.sqlite_datetime now)) p
                   else p) ps)
  = map pay_id ps.
Proof.
  induction ps as [| q ps IH]; [reflexivity |].
  cbn [map]. rewrite IH. destruct (pay_id q =? i); reflexivity.
Qed.

Lemma NoDup_pending d :
  List.NoDup (payment_ids d) -> List.NoDup (map pay_id (Database.getPendingPayments d)).
Proof.
  unfold payment_ids, Database.getPendingPayments.
  induction (Database.payments d) as [| q ps IH]; intros Hdup; [constructor |].
  cbn [map] in Hdup. apply List.NoDup_cons_iff in Hdup. destruct Hdup as [Hq Hdup].
  cbn [List.filter]. destruct (PaymentStatus_eqb (status q) pending); [| apply IH, Hdup].
  cbn [map]. apply List.NoDup_cons_iff. split; [| apply IH, Hdup].
  intros Hin. apply Hq. apply List.in_map_iff in Hin. destruct Hin as (r & Hid & Hr).
  apply List.filter_In in Hr. apply List.in_map_iff. exists r. tauto.
Qed.

Lemma keep_others i (l : list Payment) :
  ~ In i (map pay_id l) -> List.filter (fun p => negb (pay_id p =? i)) l = l.
Proof.
  induction l as [| q l IH]; intros Hout; [reflexivity |].
  cbn [map In] in Hout. cbn [List.filter].
  destruct (pay_id q =? i) eqn:Hi.
  - apply Z.eqb_eq in Hi. tauto.
  - cbn [negb]. rewrite IH by tauto. reflexivity.
Qed.

Lemma drop_own pre q rest :
  List.NoDup (map pay_id (pre ++ q :: rest)) ->
  List.filter (fun p => negb (pay_id p =? pay_id q)) (pre ++ q :: rest) = pre ++ rest.
Proof.
  intros Hdup. rewrite List.map_app in Hdup. cbn [map] in Hdup.
  pose proof (List.NoDup_remove_2 _ _ _ Hdup) as Hout.
  rewrite List.filter_app. cbn [List.filter]. rewrite Z.eqb_refl. cbn [negb].
  rewrite !keep_others; [reflexivity | |];
    intros Hin; apply Hout, List.in_app_iff; tauto.
Qed.

Lemma settles_refl ps : Forall2 settles ps ps.
Proof. induction ps; constructor; [left; reflexivity | assumption]. Qed.

Lemma settles_trans l1 : forall l2 l3,
  Forall2 settles l1 l2 -> Forall2 settles l2 l3 -> Forall2 settles l1 l3.
Proof.
  induction l1 as [| p l1 IH]; intros l2 l3 H12 H23.
  - inversion H12; subst. inversion H23; subst. constructor.
  - inversion H12 as [| ? p2 ? l2' Hp12 Hl12]; subst.
    inversion H23 as [| ? p3 ? l3' Hp23 Hl23]; subst.
    constructor; [| eapply IH; eassumption].
    destruct Hp12 as [-> | (Hst & done & ->)]; [exact Hp23 |].
    destruct Hp23 as [-> | (Hst' & _)]; [right; eauto |].
    cbn in Hst'. discriminate.
Qed.

Lemma settles_ids l1 : forall l2,
  Forall2 settles l1 l2 -> map pay_id l2 = map pay_id l1.
Proof.
  induction l1 as [| p l1 IH]; intros l2 H; inversion H as [| ? p2 ? l2' Hp Hl]; subst.
  - reflexivity.
  - cbn [map]. rewrite (IH _ Hl).
    destruct Hp as [-> | (_ & done & ->)]; reflexivity.
Qed.

Lemma same_key_same_row (ps : list Payment) q r :
  List.NoDup (map pay_id ps) -> In q ps -> In r ps -> pay_id r = pay_id q -> r = q.
Proof.
  induction ps as [| x ps IH]; intros Hdup Hq Hr Hid; [contradiction |].
  cbn [map] in Hdup. apply List.NoDup_cons_iff in Hdup. destruct Hdup as [Hx Hdup].
  destruct Hq as [-> | Hq], Hr as [-> | Hr].
  - reflexivity.
  - exfalso. apply Hx, List.in_map_iff. exists r. tauto.
  - exfalso. apply Hx, List.in_map_iff. exists q. split; [congruence | exact Hq].
  - apply IH; assumption.
Qed.

Lemma complete_settles now q (ps : list Payment) :
  List.NoDup (map pay_id ps) -> In q ps -> status q = pending ->
  Forall2 settles ps
    (map (fun p => if pay_id p =? pay_id q
                   then Database.set_status completed (Some (Clock.sqlite_datetime now)) p
                   else p) ps).
Proof.
  intros Hdup Hq Hst.
  assert (Hall : forall r, In r ps -> pay_id r = pay_id q -> r = q).
  { intros r Hr Hid. exact (same_key_same_row ps q r Hdup Hq Hr Hid). }
  clear Hdup Hq. induction ps as [| x ps IH]; [constructor |].
  cbn [map]. constructor.
  - destruct (pay_id x =? pay_id q) eqn:Hi; [| left; reflexivity].
    apply Z.eqb_eq in Hi. rewrite (Hall x (or_introl eq_refl) Hi).
    right. split; [exact Hst | eauto].
  - apply IH. intros r Hr. apply Hall. right. exact Hr.
Qed.

(** What an activation of a pending payment does to the store: nothing,
    or one subscription more and that payment, and no other, turned
    from pending to completed. *)
Lemma activation_step pre q rest w :
  List.NoDup (payment_ids (db (mem w))) ->
  Database.getPendingPayments (db (mem w)) = pre ++ q :: rest ->
  let w' := snd (run env (Payments.activateSubscription config q) w) in
  Forall2 settles (Database.payments (db (mem w))) (Database.payments (db (mem w')))
  /\ (grants_and_pending (db (mem w')) <= grants_and_pending (db (mem w)))%nat
  /\ exists pre', Database.getPendingPayments (db (mem w')) = pre' ++ rest.
Proof.
  intros Hdup Hpend w'.
  destruct (activateSubscription_effect config env q w)
    as [Hsame | (sub & now & Hsubs & Hpays)]; fold w' in Hsame || fold w' in Hsubs, Hpays.
  - rewrite Hsame. split; [apply settles_refl |]. split; [lia |].
    exists (pre ++ [q]). rewrite Hpend, <- app_assoc. reflexivity.
  - assert (Hnow : Database.getPendingPayments (db (mem w')) = pre ++ rest).
    { unfold Database.getPendingPayments at 1. rewrite Hpays.
      unfold Database.completePayment. cbn [Database.payments Database.with_payments].
      rewrite pending_after_complete.
      fold (Database.getPendingPayments (db (mem w))). rewrite Hpend.
      apply drop_own. rewrite <- Hpend. apply NoDup_pending, Hdup. }
    assert (Hq : In q (Database.payments (db (mem w))) /\ status q = pending).
    { apply getPendingPayments_status. rewrite Hpend.
      apply List.in_app_iff. right. left. reflexivity. }
    split; [| split].
    + rewrite Hpays.
      unfold Database.completePayment. cbn [Database.payments Database.with_payments].
      apply complete_settles; [exact Hdup | tauto | tauto].
    + unfold grants_and_pending. rewrite Hnow, Hsubs, Hpend, !length_app.
      cbn [length]. lia.
    + exists pre. exact Hnow.
Qed.

Lemma poll_one_effect q w :
  let w' := snd (run env (Payments.poll_one config q) w) in
  db (mem w') = db (mem w)
  \/ exists w1, db (mem w1) = db (mem w)
       /\ db (mem w') = db (mem (snd (run env (Payments.activateSubscription config q) w1))).
Proof.
  intros w'. subst w'. unfold Payments.poll_one.
  destruct (invoice_id q) as [[| c s] |]; [left; reflexivity | | left; reflexivity].
  rewrite run_try_catch, run_bind.
  pose proof (run_keeps same_db env _ w frame_same_db
                (keeps_db_checkYooMoneyPayment config (String c s))) as Hquery.
  destruct (run env (Payments.checkYooMoneyPayment config (String c s)) w)
    as [[paid | e] w2]; cbn [snd] in Hquery; unfold same_db in Hquery.
  2:{ left. cbn. exact Hquery. }
  destruct paid; [| left; exact Hquery].
  rewrite run_bind. cbn [logger write sync run mem calls trace].
  right.
  match goal with
  | |- context [run env (Payments.activateSubscription config q) ?w0] =>
      exists w0; split; [cbn; exact Hquery |];
      destruct (run env (Payments.activateSubscription config q) w0) as [[[] | e] w3]
  end; reflexivity.
Qed.

Lemma NoDup_settled l1 l2 :
  Forall2 settles l1 l2 -> List.NoDup (map pay_id l1) -> List.NoDup (map pay_id l2).
Proof. intros H Hdup. rewrite (settles_ids _ _ H). exact Hdup. Qed.

Lemma poll_loop_potential rest : forall pre w,
  List.NoDup (payment_ids (db (mem w))) ->
  Database.getPendingPayments (db (mem w)) = pre ++ rest ->
  let w' := snd (run env (for_of rest (Payments.poll_one config)) w) in
  Forall2 settles (Database.payments (db (mem w))) (Database.payments (db (mem w')))
  /\ (grants_and_pending (db (mem w')) <= grants_and_pending (db (mem w)))%nat.
Proof.
  induction rest as [| q rest IH]; intros pre w Hdup Hpend w'.
  - subst w'. cbn. split; [apply settles_refl | lia].
  - subst w'. cbn [for_of]. rewrite run_bind.
    assert (Hone : Forall2 settles (Database.payments (db (mem w)))
                     (Database.payments
                        (db (mem (snd (run env (Payments.poll_one config q) w)))))
                   /\ (grants_and_pending
                         (db (mem (snd (run env (Payments.poll_one config q) w))))
                       <= grants_and_pending (db (mem w)))%nat
                   /\ exists pre',
                        Database.getPendingPayments
                          (db (mem (snd (run env (Payments.poll_one config q) w))))
                        = pre' ++ rest).
    { destruct (poll_one_effect q w) as [Hsame | (w1 & Hdb & Hact)].
      - rewrite Hsame. split; [apply settles_refl |]. split; [lia |].
        exists (pre ++ [q]). rewrite Hpend, <- app_assoc. reflexivity.
      - rewrite Hact, <- Hdb. apply (activation_step pre).
        + rewrite Hdb. exact Hdup.
        + rewrite Hdb. exact Hpend. }
    destruct (run env (Payments.poll_one config q) w) as [[[] | e] w1];
      cbn [snd] in Hone |- *; destruct Hone as (Hrows & Hle & pre' & Hpend').
    + destruct (IH pre' w1) as [Hrows2 Hle2];
        [exact (NoDup_settled _ _ Hrows Hdup) | exact Hpend' |].
      split; [exact (settles_trans _ _ _ Hrows Hrows2) | lia].
    + split; [exact Hrows | exact Hle].
Qed.

Lemma trigger_potential t w :
  List.NoDup (payment_ids (db (mem w))) ->
  let w' := snd (run env (trigger config t) w) in
  Forall2 settles (Database.payments (db (mem w))) (Database.payments (db (mem w')))
  /\ (grants_and_pending (db (mem w')) <= grants_and_pending (db (mem w)))%nat.
Proof.
  intros Hdup w'. subst w'. destruct t as [| ctx]; cbn [trigger].
  - unfold Payments.pollPendingPayments. rewrite run_bind.
    cbn [read sync run mem calls trace].
    replace {| mem := mem w; calls := calls w; trace := trace w |} with w
      by (destruct w; reflexivity).
    apply (poll_loop_potential _ []); [exact Hdup | reflexivity].
  - destruct (handleCheckPayment_effect config env ctx w)
      as [Hsame | (data & p & w1 & _ & Hfind & Hst & Hdb & Hrun)].
    + rewrite Hsame. split; [apply settles_refl | lia].
    + rewrite Hrun, <- Hdb.
      assert (Hin : In p (Database.getPendingPayments (db (mem w1)))).
      { apply getPendingPayments_status. rewrite Hdb. split; [| exact Hst].
        unfold Database.getPaymentByInvoiceId in Hfind.
        apply List.find_some in Hfind. tauto. }
      apply List.in_split in Hin. destruct Hin as (pre & rest & Hpend).
      destruct (activation_step pre p rest w1) as (Hrows & Hle & _);
        [rewrite Hdb; exact Hdup | exact Hpend |].
      split; [exact Hrows | exact Hle].
Qed.

Lemma in_turn_potential ts : forall w,
  List.NoDup (payment_ids (db (mem w))) ->
  Forall2 settles (Database.payments (db (mem w)))
    (Database.payments (db (mem (in_turn env config ts w))))
  /\ (grants_and_pending (db (mem (in_turn env config ts w)))
      <= grants_and_pending (db (mem w)))%nat.
Proof.
  induction ts as [| t ts IH]; intros w Hdup; cbn [in_turn].
  - split; [apply settles_refl | lia].
  - destruct (trigger_potential t w Hdup) as [Hrows Hle].
    destruct (IH (snd (run env (trigger config t) w))) as [Hrows2 Hle2];
      [exact (NoDup_settled _ _ Hrows Hdup) |].
    split; [exact (settles_trans _ _ _ Hrows Hrows2) | lia].
Qed.

End InTurn.

(** C2, as the code has it.  Each trigger checks the status once, on the
    row it reads at its start: the manual check on the row it fetched by
    invoice key, the poll through its query, which returns the rows
    whose status is pending and no others; neither reads the row again
    before it activates.  A manual check that finds the payment settled
    or absent changes nothing and sends no request; a poll tick that
    finds no pending payment does nothing; and an activation that
    inserts a subscription inserts exactly one and leaves the payment
    completed before it next suspends.  So when triggers run in turn,
    whichever they are and however many, in a store whose payment keys
    are distinct, every payment row stays as it is or turns from
    pending to completed, and each subscription they add takes one
    payment out of the pending ones: with one payment pending, they add
    at most one subscription. *)
Theorem activation_guarded_when_read (config : AppConfig) (env : Oracle) (w : World) :
  (forall ctx data fromId,
      Handlers.callbackData ctx = Some data ->
      Handlers.from ctx = Some fromId ->
      settled_or_absent (Handlers.remove_first "check:" data) (db (mem w)) ->
      let out := run env (Handlers.handleCheckPayment config ctx) w in
      db (mem (snd out)) = db (mem w) /\ fetches (new_events w (snd out)) = [])
  /\ run env (Payments.pollPendingPayments config) w
     = run env (for_of (Database.getPendingPayments (db (mem w)))
                  (Payments.poll_one config)) w
  /\ (Database.getPendingPayments (db (mem w)) = [] ->
      run env (Payments.pollPendingPayments config) w = (Ok tt, w))
  /\ (forall payment,
        let w' := snd (run env (Payments.activateSubscription config payment) w) in
        Database.subscriptions (db (mem w')) <> Database.subscriptions (db (mem w)) ->
        (exists sub,
            Database.subscriptions (db (mem w'))
            = Database.subscriptions (db (mem w)) ++ [sub])
        /\ (forall p, In p (Database.payments (db (mem w'))) ->
                      pay_id p = pay_id payment -> status p = completed))
  /\ (forall env2 ctx,
        let w1 := snd (run env (Handlers.handleCheckPayment config ctx) w) in
        let w2 := snd (run env2 (Handlers.handleCheckPayment config ctx) w1) in
        (length (Database.subscriptions (db (mem w2)))
         <= length (Database.subscriptions (db (mem w))) + 1)%nat)
  /\ (forall p,
        In p (Database.getPendingPayments (db (mem w)))
        <-> In p (Database.payments (db (mem w))) /\ status p = pending)
  /\ (forall ts,
        List.NoDup (payment_ids (db (mem w))) ->
        let w' := in_turn env config ts w in
        Forall2 settles (Database.payments (db (mem w))) (Database.payments (db (mem w')))
        /\ (length (Database.subscriptions (db (mem w')))
            + length (Database.getPendingPayments (db (mem w')))
            <= length (Database.subscriptions (db (mem w)))
               + length (Database.getPendingPayments (db (mem w))))%nat
        /\ (length (Database.getPendingPayments (db (mem w))) <= 1 ->
            length (Database.subscriptions (db (mem w')))
            <= length (Database.subscriptions (db (mem w))) + 1)%nat).
Proof.
  split; [| split; [| split; [| split; [| split; [| split]]]]].
  - intros ctx data fromId Hdata Hfrom Hstale out.
    destruct (handleCheckPayment_rejects config env ctx data fromId w Hdata Hfrom Hstale)
      as (Hdb & Hfetch & _).
    split; assumption.
  - unfold Payments.pollPendingPayments. rewrite run_bind.
    cbn [read sync run mem calls trace]. destruct w; reflexivity.
  - apply pollPendingPayments_idle.
  - intros payment. apply activateSubscription_completes.
  - intros env2 ctx. apply handleCheckPayment_twice.
  - intros p. apply getPendingPayments_status.
  - intros ts Hdup w'.
    destruct (in_turn_potential config env ts w Hdup) as [Hrows Hle].
    fold w' in Hrows, Hle. unfold grants_and_pending in Hle.
    split; [exact Hrows |]. split; [exact Hle | lia].
Qed.

Lemma activation_guarded_when_read_witness :
  (map status (Database.payments (db (mem after_poll))) = [completed]
   /\ length (Database.subscriptions (db (mem after_poll))) = 1%nat
   /\ db (mem (snd (run Scenario.all_well
                      (Handlers.handleCheckPayment Scenario.config check_paid) after_poll)))
      = db (mem after_poll)
   /\ fetches (new_events after_poll
                 (snd (run Scenario.all_well
                         (Handlers.handleCheckPayment Scenario.config check_paid)
                         after_poll)))
      = [])
  /\ (length (Database.subscriptions
                (db (mem (in_turn Scenario.all_well Scenario.config
                            [PollTick; ManualCheck check_paid; PollTick] w_paid))))
      <= length (Database.subscriptions (db (mem w_paid))) + 1)%nat.
Proof.
  split.
  - split; [vm_compute; reflexivity |]. split; [vm_compute; reflexivity |].
    destruct (activation_guarded_when_read Scenario.config Scenario.all_well after_poll)
      as (Hcheck & _).
    apply (Hcheck check_paid "check:pay_42_ru_month_deadbeef" 42).
    + reflexivity.
    + reflexivity.
    + vm_compute. discriminate.
  - destruct (activation_guarded_when_read Scenario.config Scenario.all_well w_paid)
      as (_ & _ & _ & _ & _ & _ & Hturn).
    apply (Hturn [PollTick; ManualCheck check_paid; PollTick]).
    + vm_compute. constructor; [intros [] | constructor].
    + vm_compute. lia.
Defined.

(** C2 as the specification words it does not hold: no trigger reads the
    payment again before activating, and when the manual check reads it
    while the poll is waiting for the gateway, both activate it: one
    payment, two subscriptions. *)
Lemma poll_and_check_overlapping_grant_twice :
  let out := interleave Scenario.all_well overlapping poll_and_check w_paid in
  map status (Database.payments (db (mem w_paid))) = [pending]
  /\ map finished (fst out) = [true; true]
  /\ map status (Database.payments (db (mem (snd out)))) = [completed]
  /\ map client_uuid (Database.subscriptions (db (mem (snd out))))
     = ["0123abcd-0000-4000-8000-000000000000"; "0123abcd-0000-4000-8000-000000000001"].
Proof. vm_compute. repeat split; reflexivity. Qed.

Example poll_then_check_grant_once :
  let out := interleave Scenario.all_well one_after_the_other poll_and_check w_paid in
  map finished (fst out) = [true; true]
  /\ map client_uuid (Database.subscriptions (db (mem (snd out))))
     = ["0123abcd-0000-4000-8000-000000000000"].
Proof. vm_compute. repeat split; reflexivity. Qed.

(* ================================================================= *)
(** * The sales gate of handleBuy *)

Lemma free_tariff_is_trial serverCode tariffId tariff :
  Tariffs.getTariff serverCode tariffId = Ok (Some tariff) ->
  price tariff <= 0 ->
  id tariff = "trial" /\ price tariff = 0.
Proof.
  unfold Tariffs.getTariff, Tariffs.getServerTariffs. intros Hget Hfree.
  destruct (String.eqb serverCode "ru");
    [| destruct (String.eqb serverCode "nl");
       [| destruct (existsb (String.eqb serverCode) Tariffs.inherited); discriminate]];
    injection Hget as Hget;
    cbn [find Tariffs.ruTariffs Tariffs.nlTariffs Tariffs.mk id] in Hget;
    repeat match type of Hget with
           | (if ?c then _ else _) = _ => destruct c
           end;
    inversion Hget; subst; cbn in Hfree |- *; try lia; split; reflexivity.
Qed.

Lemma getServerByCode_has_id serverCode server d :
  Database.getServerByCode serverCode d = Some server ->
  exists s, Database.getServerById (srv_id server) d = Some s.
Proof.
  unfold Database.getServerByCode, Database.getServerById. intros Hfind.
  apply find_some in Hfind. destruct Hfind as [Hin _].
  destruct (find (fun s => srv_id s =? srv_id server) (Database.servers d)) as [s |] eqn:Hid.
  - exists s. reflexivity.
  - exfalso. pose proof (find_none _ _ Hid server Hin) as Hne. cbn in Hne.
    rewrite Z.eqb_refl in Hne. discriminate.
Qed.

Section SalesGate.

Variable config : AppConfig.
Variable env : Oracle.

(** C10, as the code has it: with sales blocked, a request for a
    tariff that costs money is answered "sales are suspended" and
    nothing else happens: no payment row, no other call.  A request for
    a tariff of price 0, which is the trial, passes the gate.  For a
    registered user who has not used the trial, the payment row is
    inserted (pending, amount 0) and [activateSubscription] runs on it
    at once.  For a user who has used the trial the request is answered
    "trial already used" and no payment row is created; for a sender
    with no row in [users] the insert violates the foreign key, the
    handler throws and no payment row is created. *)
Theorem handleBuy_sales_gate ctx data fromId server tariff w :
  Handlers.callbackData ctx = Some data ->
  Handlers.from ctx = Some fromId ->
  Database.getServerByCode (Handlers.part 1 (Handlers.split_colon data)) (db (mem w))
    = Some server ->
  Tariffs.getTariff (Handlers.part 1 (Handlers.split_colon data))
    (Handlers.part 2 (Handlers.split_colon data)) = Ok (Some tariff) ->
  salesBlocked (mem w) = true ->
  (0 < price tariff ->
   let out := run env (Handlers.handleBuy config ctx) w in
   db (mem (snd out)) = db (mem w)
   /\ exists a,
       new_events w (snd out)
       = [Called (Telegram (AnswerCbQuery "Продажи временно приостановлены")) a])
  /\ (price tariff <= 0 ->
      forall user,
        Database.getUser fromId (db (mem w)) = Some user ->
        usr_trial_used user <> 1 ->
        exists payment d1,
          Database.createPayment (now_ms (mem w)) fromId "trial" (srv_id server) 0
            (trial_invoice fromId (now_ms (mem w))) "" (db (mem w)) = (Ok payment, d1)
          /\ status payment = pending
          /\ In payment (Database.payments d1)
          /\ run env (Handlers.handleBuy config ctx) w
             = run env (do Payments.activateSubscription config payment then
                        Handlers.answerCbQuery "Триал активирован!")
                 (with_db w d1))
  /\ (price tariff <= 0 ->
      forall user,
        Database.getUser fromId (db (mem w)) = Some user ->
        usr_trial_used user = 1 ->
        let out := run env (Handlers.handleBuy config ctx) w in
        db (mem (snd out)) = db (mem w)
        /\ exists a,
            new_events w (snd out)
            = [Called (Telegram (AnswerCbQuery "Триал уже использован")) a])
  /\ (price tariff <= 0 ->
      Database.getUser fromId (db (mem w)) = None ->
      let out := run env (Handlers.handleBuy config ctx) w in
      fst out = Err Database.fk_error
      /\ db (mem (snd out)) = db (mem w)
      /\ new_events w (snd out) = []).
Proof.
  intros Hdata Hfrom Hsrv Htar Hblocked.
  unfold Handlers.handleBuy. rewrite Hdata, Hfrom. cbv zeta.
  rewrite run_bind. cbn [read sync run mem calls trace]. rewrite Hsrv.
  rewrite run_bind, run_of_result, Htar.
  rewrite run_bind. cbn [read sync run mem calls trace]. rewrite Hblocked.
  cbn [andb]. split; [| split; [| split]].
  - (* a paid tariff *)
    intros Hpaid. apply Z.ltb_lt in Hpaid. rewrite Hpaid.
    unfold Handlers.answerCbQuery. rewrite run_bind. cbn [await run settle_call].
    match goal with
    | |- context [env ?n (Telegram ?c)] => destruct (env n (Telegram c)) as [[] | e] eqn:Ha
    end; cbn [of_result run snd mem trace]; (split; [reflexivity |]);
      eexists; unfold new_events; cbn [trace]; rewrite drop_app_length; reflexivity.
  - (* the trial *)
    intros Hfree user Huser Hunused.
    destruct (free_tariff_is_trial _ _ _ Htar Hfree) as [Hid Hprice].
    assert (Hgate : (0 <? price tariff) = false) by (apply Z.ltb_ge; lia).
    rewrite Hgate. rewrite run_bind. cbn [read sync run mem calls trace].
    rewrite Huser, Hid. cbn [String.eqb Ascii.eqb Bool.eqb andb].
    unfold Handlers.trial_used.
    assert (Hnot : (usr_trial_used user =? 1) = false) by (apply Z.eqb_neq; exact Hunused).
    rewrite Hnot. rewrite run_bind. cbn [read sync run mem calls trace].
    destruct (getServerByCode_has_id _ _ _ Hsrv) as [s Hs].
    unfold Database.createPayment, Database.fk_ok. rewrite Huser, Hs.
    eexists. eexists. split; [reflexivity |]. split; [reflexivity |].
    split; [cbn; apply in_or_app; right; left; reflexivity |].
    rewrite run_bind. unfold Handlers.createPayment. rewrite run_bind.
    cbn [sync run mem calls trace].
    unfold Database.createPayment, Database.fk_ok. rewrite Huser, Hs.
    cbn [of_result run]. reflexivity.
  - (* the trial, already used *)
    intros Hfree user Huser Hused.
    destruct (free_tariff_is_trial _ _ _ Htar Hfree) as [Hid Hprice].
    assert (Hgate : (0 <? price tariff) = false) by (apply Z.ltb_ge; lia).
    rewrite Hgate. rewrite run_bind. cbn [read sync run mem calls trace].
    rewrite Huser, Hid. cbn [String.eqb Ascii.eqb Bool.eqb andb].
    unfold Handlers.trial_used. rewrite Hused. cbn [Z.eqb Pos.eqb].
    unfold Handlers.answerCbQuery. rewrite run_bind. cbn [await run settle_call].
    match goal with
    | |- context [env ?n (Telegram ?c)] => destruct (env n (Telegram c)) as [[] | e] eqn:Ha
    end; cbn [of_result run snd mem trace]; (split; [reflexivity |]);
      eexists; unfold new_events; cbn [trace]; rewrite drop_app_length; reflexivity.
  - (* the trial, for a sender without a row *)
    intros Hfree Huser.
    destruct (free_tariff_is_trial _ _ _ Htar Hfree) as [Hid Hprice].
    assert (Hgate : (0 <? price tariff) = false) by (apply Z.ltb_ge; lia).
    rewrite Hgate. rewrite run_bind. cbn [read sync run mem calls trace].
    rewrite Huser, Hid. cbn [String.eqb Ascii.eqb Bool.eqb andb Handlers.trial_used].
    rewrite run_bind. cbn [read sync run mem calls trace].
    rewrite run_bind. unfold Handlers.createPayment. rewrite run_bind.
    cbn [sync run mem calls trace].
    unfold Database.createPayment, Database.fk_ok. rewrite Huser.
    cbn [andb of_result run fst snd mem set_db db trace].
    split; [reflexivity |]. split; [reflexivity |].
    unfold new_events. cbn [trace]. apply drop_all.
Qed.

End SalesGate.

Lemma handleBuy_sales_gate_witness :
  let blocked := {| mem := set_salesBlocked Scenario.mem0 true; calls := 0; trace := [] |} in
  let buy_month := {| Handlers.from := Some 42;
                      Handlers.callbackData := Some "buy:ru:month" |} in
  db (mem (snd (run Scenario.all_well (Handlers.handleBuy Scenario.config buy_month)
                  blocked)))
  = Scenario.db0
  /\ exists a,
      new_events blocked
        (snd (run Scenario.all_well (Handlers.handleBuy Scenario.config buy_month) blocked))
      = [Called (Telegram (AnswerCbQuery "Продажи временно приостановлены")) a].
Proof.
  intros blocked buy_month.
  destruct (handleBuy_sales_gate Scenario.config Scenario.all_well buy_month
              "buy:ru:month" 42 Scenario.srv_ru
              (Tariffs.mk "month" "30 дней — 150 руб" 150 30 3) blocked)
    as [Hpaid _]; try reflexivity.
  apply Hpaid. reflexivity.
Defined.

(** C10 as the claim words it does not hold for every request: with
    sales blocked, the trial request of a user who has used the trial
    creates no payment. *)
Lemma blocked_trial_request_without_payment :
  let blocked := {| mem := set_salesBlocked (mem after_trial) true;
                    calls := calls after_trial; trace := trace after_trial |} in
  let out := run Scenario.all_well (Handlers.handleBuy Scenario.config buy_trial) blocked in
  Database.payments (db (mem (snd out))) = Database.payments (db (mem after_trial))
  /\ map pay_id (Database.payments (db (mem (snd out)))) = [1]
  /\ new_events blocked (snd out)
     = [Called (Telegram (AnswerCbQuery "Триал уже использован")) (Ok tt)].
Proof. vm_compute. repeat split; reflexivity. Qed.

(** With sales blocked the trial is still handed out. *)
Example trial_passes_blocked_sales :
  let blocked := {| mem := set_salesBlocked Scenario.mem0 true; calls := 0; trace := [] |} in
  let out := run Scenario.all_well (Handlers.handleBuy Scenario.config buy_trial) blocked in
  fst out = Ok tt
  /\ map status (Database.payments (db (mem (snd out)))) = [completed]
  /\ map is_active (Database.subscriptions (db (mem (snd out)))) = [1].
Proof. vm_compute. repeat split; reflexivity. Qed.

(* ================================================================= *)
(** * Liveness probes *)

#[local] Set Warnings "-clear-no-such-hyp".

Lemma always_bind {A B} (Q : Result B -> Prop) (p : Async A) (q : A -> Async B) :
  always (fun r => match r with
                   | Ok a => always Q (q a)
                   | Err e => Q (Err e)
                   end) p ->
  always Q (bind p q).
Proof.
  induction p as [a | e | X f k IH | c k IH]; cbn; intros H.
  - exact H.
  - exact H.
  - intros x. apply IH, H.
  - intros a. apply IH, H.
Qed.

Lemma always_caught {A} (Q : Result A -> Prop) (p : Async A) (h : Error -> Async A) :
  (forall a, Q (Ok a)) -> (forall e, always Q (h e)) -> always Q (try_catch p h).
Proof.
  intros Hok Hh. induction p as [a | e | X f k IH | c k IH]; cbn.
  - apply Hok.
  - apply Hh.
  - intros x. apply IH.
  - intros a. apply IH.
Qed.

Lemma run_always {A} (Q : Result A -> Prop) env (p : Async A) w :
  always Q p -> Q (fst (run env p w)).
Proof.
  revert w. induction p as [a | e | X f k IH | c k IH]; intros w H; cbn.
  - exact H.
  - exact H.
  - destruct (f (mem w)) as [x m]. apply IH, H.
  - apply IH, H.
Qed.

(** ** Tasks, step by step *)

Lemma Steps_refl {X} (p : Async X) : Steps p [] p.
Proof. destruct p; cbn; left; split; reflexivity. Qed.

Lemma Steps_sync {X Y} (f : Mem -> Y * Mem) (k : Y -> Async X) y tr p' :
  Steps (k y) tr p' -> Steps (Sync f k) tr p'.
Proof. intros H. cbn. right. exists y. exact H. Qed.

Lemma Steps_await {X} c (k : Answer c -> Async X) a tr p' :
  Steps (k a) tr p' -> Steps (Await c k) (Called c a :: tr) p'.
Proof. intros H. cbn. right. exists a, tr. split; [reflexivity | exact H]. Qed.

Lemma Steps_trans {X} (p : Async X) :
  forall tr1 p' tr2 p'',
    Steps p tr1 p' -> Steps p' tr2 p'' -> Steps p (tr1 ++ tr2) p''.
Proof.
  induction p as [x | e | Y f k IH | c k IH]; intros tr1 p' tr2 p'' H1 H2; cbn in H1.
  - destruct H1 as [[-> ->] | []]. exact H2.
  - destruct H1 as [[-> ->] | []]. exact H2.
  - destruct H1 as [[-> ->] | [y H1]]; [exact H2 |].
    apply (Steps_sync f k y). eapply IH; eassumption.
  - destruct H1 as [[-> ->] | (a & tr' & -> & H1)]; [exact H2 |].
    cbn [app]. apply Steps_await. eapply IH; eassumption.
Qed.

Lemma Steps_always {X} (Q : Result X -> Prop) (p : Async X) :
  forall tr p', always Q p -> Steps p tr p' -> always Q p'.
Proof.
  induction p as [x | e | Y f k IH | c k IH]; intros tr p' HQ H; cbn in H.
  - destruct H as [[-> ->] | []]. exact HQ.
  - destruct H as [[-> ->] | []]. exact HQ.
  - destruct H as [[-> ->] | [y H]]; [exact HQ |]. eapply IH; [apply HQ | exact H].
  - destruct H as [[-> ->] | (a & tr' & -> & H)]; [exact HQ |].
    eapply IH; [apply HQ | exact H].
Qed.

Lemma advance_Steps {X} (p : Async X) m : Steps p [] (fst (advance p m)).
Proof.
  revert m. induction p as [x | e | Y f k IH | c k IH]; intros m; cbn [advance].
  - apply Steps_refl.
  - apply Steps_refl.
  - destruct (f m) as [y m'] eqn:Hf. apply (Steps_sync f k y). apply IH.
  - apply Steps_refl.
Qed.

Lemma run_Steps {X} env (p : Async X) :
  forall w, exists tr,
    trace (snd (run env p w)) = trace w ++ tr
    /\ Steps p tr (of_result (fst (run env p w))).
Proof.
  induction p as [x | e | Y f k IH | c k IH]; intros w; cbn [run].
  - exists []. rewrite app_nil_r. split; [reflexivity | apply Steps_refl].
  - exists []. rewrite app_nil_r. split; [reflexivity | apply Steps_refl].
  - destruct (f (mem w)) as [y m].
    destruct (IH y {| mem := m; calls := calls w; trace := trace w |}) as (tr & Ht & Hs).
    exists tr. split; [exact Ht |]. apply (Steps_sync f k y). exact Hs.
  - unfold settle_call.
    match goal with
    | |- context [run env (k ?a) ?w1] => destruct (IH a w1) as (tr & Ht & Hs)
    end.
    cbn [trace] in Ht. exists (Called c (env (calls w) c) :: tr). split.
    + rewrite Ht, <- app_assoc. reflexivity.
    + apply Steps_await. exact Hs.
Qed.

Lemma run_drive {X B} env (p : Async X) (cont : Async X -> Async B) :
  forall w,
    run env (drive p cont) w
    = run env (cont (fst (advance p (mem w))))
        {| mem := snd (advance p (mem w)); calls := calls w; trace := trace w |}.
Proof.
  induction p as [x | e | Y f k IH | c k IH]; intros w; cbn [drive advance fst snd].
  - destruct w; reflexivity.
  - destruct w; reflexivity.
  - cbn [run]. destruct (f (mem w)) as [y m]. rewrite IH. reflexivity.
  - destruct w; reflexivity.
Qed.

Lemma run_complete {X B} env (p : Async X) (cont : Result X -> Async B) :
  forall w,
    run env (complete p cont) w
    = run env (cont (fst (run env p w))) (snd (run env p w)).
Proof.
  induction p as [x | e | Y f k IH | c k IH]; intros w; cbn [complete run fst snd].
  - reflexivity.
  - reflexivity.
  - destruct (f (mem w)) as [y m]. apply IH.
  - destruct (settle_call env c w) as [a w1]. apply IH.
Qed.

Lemma advance_suspended {X} (p : Async X) m :
  suspended_or_finished p -> advance p m = (p, m).
Proof. destruct p; cbn; intros H; try reflexivity; contradiction. Qed.

(** ** The events of one probe among those of the pool *)

Lemma events_of_app i o1 e1 o2 e2 :
  length o1 = length e1 ->
  events_of i (o1 ++ o2) (e1 ++ e2) = events_of i o1 e1 ++ events_of i o2 e2.
Proof.
  revert e1. induction o1 as [| o o1 IH]; intros [| ev e1] Hlen; cbn in Hlen;
    try discriminate; [reflexivity |].
  cbn [app events_of]. rewrite IH by congruence.
  destruct (o =? i)%nat; reflexivity.
Qed.

Lemma events_of_own i evs : events_of i (repeat i (length evs)) evs = evs.
Proof.
  induction evs as [| ev evs IH]; [reflexivity |].
  cbn [length repeat events_of]. rewrite Nat.eqb_refl, IH. reflexivity.
Qed.

Lemma events_of_other i j evs : j <> i -> events_of i (repeat j (length evs)) evs = [].
Proof.
  intros Hne. induction evs as [| ev evs IH]; [reflexivity |].
  cbn [length repeat events_of].
  destruct (j =? i)%nat eqn:Heq; [apply Nat.eqb_eq in Heq; contradiction | exact IH].
Qed.

(** ** The pool of probes, one step after the other *)

Section PoolSteps.

Variable env : Oracle.

(** The tasks the pool started from, none of which can throw, and the
    trace at that time. *)
Variable ts0 : list (Async (string * bool)).
Variable before : list Event.
Hypothesis never_throw :
  forall i t0, ts0 !! i = Some t0 -> always (fun r => exists x, r = Ok x) t0.

Lemma grows_refl pool : grows pool pool.
Proof. split; intros j H; exact H. Qed.

Lemma grows_trans p1 p2 p3 : grows p1 p2 -> grows p2 p3 -> grows p1 p3.
Proof. intros [S12 D12] [S23 D23]. split; intros j H; [apply S23, S12, H | apply D23, D12, H]. Qed.

Lemma good_task owners evs pool w i t :
  Good ts0 before owners evs pool w -> fst pool !! i = Some t ->
  (i < length ts0)%nat /\ always (fun r => exists x, r = Ok x) t.
Proof.
  intros HG Ht.
  assert (Hi : (i < length ts0)%nat).
  { rewrite <- (good_length _ _ _ _ _ _ HG). apply lookup_lt_is_Some. eauto. }
  split; [exact Hi |].
  destruct (lookup_lt_is_Some_2 ts0 i Hi) as [t0 Ht0].
  destruct (good_steps _ _ _ _ _ _ HG i t0 Ht0) as (t' & Ht' & Hsteps).
  rewrite Ht in Ht'. inversion Ht'; subst t'.
  eapply Steps_always; [apply (never_throw i t0 Ht0) | exact Hsteps].
Qed.

(** The task [i] has moved on to [p'] by the events [tr], which are its
    own; [p'] is at an await or at its end and has not thrown. *)
Lemma good_store owners evs pool w i t p' tr w' :
  Good ts0 before owners evs pool w ->
  fst pool !! i = Some t ->
  (finished t = true -> p' = t) ->
  Steps t tr p' ->
  trace w' = trace w ++ tr ->
  (forall e, p' <> Throw e) ->
  Good ts0 before (owners ++ repeat i (length tr)) (evs ++ tr) (VpnManager.store_verdict i p' pool) w'
  /\ grows pool (VpnManager.store_verdict i p' pool)
  /\ stored i (VpnManager.store_verdict i p' pool).
Proof.
  intros HG Ht Hunfinished Hsteps Htrace Hthrow.
  destruct (good_task _ _ _ _ _ _ HG Ht) as [Hi _].
  assert (Hi' : (i < length (fst pool))%nat) by (rewrite (good_length _ _ _ _ _ _ HG); exact Hi).
  split; [| split].
  - split.
    + rewrite Htrace, (good_trace _ _ _ _ _ _ HG), app_assoc. reflexivity.
    + rewrite !length_app, repeat_length, (good_owners _ _ _ _ _ _ HG). reflexivity.
    + apply Forall_app. split; [exact (good_valid _ _ _ _ _ _ HG) |].
      apply Forall_forall. intros o Ho. apply list_elem_of_In, repeat_spec in Ho.
      subst o. exact Hi.
    + cbn [VpnManager.store_verdict fst]. rewrite length_insert. exact (good_length _ _ _ _ _ _ HG).
    + intros j t0 Ht0. cbn [VpnManager.store_verdict fst].
      rewrite (events_of_app j _ _ _ _ (good_owners _ _ _ _ _ _ HG)).
      destruct (good_steps _ _ _ _ _ _ HG j t0 Ht0) as (tj & Htj & Hstepsj).
      destruct (Nat.eq_dec j i) as [-> | Hne].
      * exists p'. split; [apply list_lookup_insert_eq; exact Hi' |].
        rewrite events_of_own. rewrite Ht in Htj. inversion Htj; subst tj.
        eapply Steps_trans; eassumption.
      * exists tj. split; [rewrite list_lookup_insert_ne by congruence; exact Htj |].
        rewrite events_of_other by congruence. rewrite app_nil_r. exact Hstepsj.
    + intros c b Hcb. cbn [VpnManager.store_verdict fst snd] in *.
      assert (Hold : snd pool !! c = Some b ->
                     exists j, <[i := p']> (fst pool) !! j = Some (Ret (c, b))).
      { intros Hin. destruct (good_from _ _ _ _ _ _ HG c b Hin) as (j & Hj).
        exists j. destruct (Nat.eq_dec j i) as [-> | Hne].
        - rewrite Ht in Hj. inversion Hj; subst t.
          rewrite (Hunfinished eq_refl). apply list_lookup_insert_eq. exact Hi'.
        - rewrite list_lookup_insert_ne by congruence. exact Hj. }
      destruct p' as [[c' b'] | e | Y f k | c0 k]; try (apply Hold; exact Hcb).
      destruct (decide (c' = c)) as [-> | Hne].
      * rewrite lookup_insert_eq in Hcb. inversion Hcb; subst b'.
        exists i. apply list_lookup_insert_eq. exact Hi'.
      * rewrite lookup_insert_ne in Hcb by exact Hne. apply Hold. exact Hcb.
  - split.
    + intros j Hj c b Hjcb. cbn [VpnManager.store_verdict fst snd] in *.
      assert (Hkeep : forall c0, is_Some (snd pool !! c0) ->
                is_Some (match p' with
                         | Ret (c1, b1) => <[c1 := b1]> (snd pool)
                         | _ => snd pool
                         end !! c0)).
      { intros c0 Hc0. destruct p' as [[c1 b1] | | |]; try exact Hc0.
        destruct (decide (c1 = c0)) as [-> | Hne];
          [rewrite lookup_insert_eq; eauto | rewrite lookup_insert_ne by exact Hne; exact Hc0]. }
      destruct (Nat.eq_dec j i) as [-> | Hne].
      * rewrite list_lookup_insert_eq in Hjcb by exact Hi'. inversion Hjcb; subst p'.
        rewrite lookup_insert_eq. eauto.
      * rewrite list_lookup_insert_ne in Hjcb by congruence.
        apply Hkeep. apply (Hj c b Hjcb).
    + intros j Hj t' Ht'. cbn [VpnManager.store_verdict fst] in Ht'.
      destruct (Nat.eq_dec j i) as [-> | Hne].
      * rewrite list_lookup_insert_eq in Ht' by exact Hi'. inversion Ht'; subst t'.
        pose proof (Hj t Ht) as Hfin. rewrite (Hunfinished Hfin). exact Hfin.
      * rewrite list_lookup_insert_ne in Ht' by congruence. apply (Hj t' Ht').
  - intros c b Hcb. cbn [VpnManager.store_verdict fst snd] in *.
    rewrite list_lookup_insert_eq in Hcb by exact Hi'. inversion Hcb; subst p'.
    rewrite lookup_insert_eq. eauto.
Qed.

Lemma settled_run i p' pool (cont : VpnManager.Pool -> Async (gmap string bool)) :
  (forall e, p' <> Throw e) ->
  VpnManager.settled i p' pool cont = cont (VpnManager.store_verdict i p' pool).
Proof. intros Hthrow. destruct p'; try reflexivity. contradiction (Hthrow e eq_refl). Qed.

Lemma not_thrown (p : Async (string * bool)) :
  always (fun r => exists x, r = Ok x) p -> forall e, p <> Throw e.
Proof. intros H e ->. cbn in H. destruct H as [x Hx]. discriminate. Qed.

Lemma start_probe_run i owners evs pool w (cont : VpnManager.Pool -> Async (gmap string bool)) :
  Good ts0 before owners evs pool w ->
  exists pool' w' o tr,
    run env (VpnManager.start_probe i pool cont) w = run env (cont pool') w'
    /\ Good ts0 before (owners ++ o) (evs ++ tr) pool' w'
    /\ grows pool pool'
    /\ stored i pool'
    /\ o = [] /\ (Forall suspended_or_finished (fst pool) -> pool' = (fst pool, snd pool') /\ w' = w).
Proof.
  intros HG. unfold VpnManager.start_probe.
  destruct (fst pool !! i) as [p |] eqn:Hp.
  - rewrite run_drive.
    destruct (good_task _ _ _ _ _ _ HG Hp) as [Hi Hp_ok].
    pose proof (advance_Steps p (mem w)) as Hsteps.
    pose proof (Steps_always _ _ _ _ Hp_ok Hsteps) as Hp'_ok.
    rewrite (settled_run _ _ _ _ (not_thrown _ Hp'_ok)).
    destruct (good_store owners evs pool w i p (fst (advance p (mem w))) []
                {| mem := snd (advance p (mem w)); calls := calls w; trace := trace w |}
                HG Hp) as (HG' & Hgrows & Hstored).
    + intros Hfin. destruct p; try discriminate; reflexivity.
    + exact Hsteps.
    + cbn [trace]. rewrite app_nil_r. reflexivity.
    + apply not_thrown, Hp'_ok.
    + eexists _, _, [], []. split; [reflexivity |]. split; [exact HG' |].
      split; [exact Hgrows |]. split; [exact Hstored |]. split; [reflexivity |].
      intros Hall.
      assert (Hsusp : suspended_or_finished p).
      { rewrite Forall_forall in Hall. apply Hall. eapply list_elem_of_lookup_2, Hp. }
      rewrite (advance_suspended p (mem w) Hsusp). unfold VpnManager.store_verdict.
      cbn [fst snd]. rewrite list_insert_id by exact Hp.
      split; [reflexivity |]. destruct w; reflexivity.
  - exists pool, w, [], []. split; [reflexivity |]. rewrite !app_nil_r.
    split; [exact HG |]. split; [apply grows_refl |].
    split; [intros c b Hcb; rewrite Hp in Hcb; discriminate |].
    split; [reflexivity |]. intros _. split; [destruct pool; reflexivity | reflexivity].
Qed.

Lemma resume_probe_run i owners evs pool w (cont : VpnManager.Pool -> Async (gmap string bool)) :
  Good ts0 before owners evs pool w ->
  exists pool' w' o tr,
    run env (VpnManager.resume_probe i pool cont) w = run env (cont pool') w'
    /\ Good ts0 before (owners ++ o) (evs ++ tr) pool' w'
    /\ grows pool pool'
    /\ (forall c k, fst pool !! i = Some (Await c k) ->
                    o = [i] /\ exists a, tr = [Called c a]).
Proof.
  intros HG. unfold VpnManager.resume_probe.
  destruct (fst pool !! i) as [p |] eqn:Hp.
  2:{ exists pool, w, [], []. split; [reflexivity |]. rewrite !app_nil_r.
      split; [exact HG |]. split; [apply grows_refl | discriminate]. }
  destruct (good_task _ _ _ _ _ _ HG Hp) as [Hi Hp_ok].
  destruct p as [x | e | Y f k | c k];
    try (exists pool, w, [], []; split; [reflexivity |]; rewrite !app_nil_r;
         split; [exact HG |]; split; [apply grows_refl | discriminate]).
  cbn [run]. unfold settle_call.
  set (a := env (calls w) c).
  set (w1 := {| mem := match c with
                       | Sleep ms => set_now (mem w) (now_ms (mem w) + ms)
                       | _ => mem w
                       end;
                calls := S (calls w); trace := trace w ++ [Called c a] |}).
  rewrite run_drive.
  assert (Hsteps : Steps (Await c k) [Called c a] (fst (advance (k a) (mem w1)))).
  { apply Steps_await, advance_Steps. }
  pose proof (Steps_always _ _ _ _ Hp_ok Hsteps) as Hp'_ok.
  rewrite (settled_run _ _ _ _ (not_thrown _ Hp'_ok)).
  destruct (good_store owners evs pool w i (Await c k) (fst (advance (k a) (mem w1)))
              [Called c a]
              {| mem := snd (advance (k a) (mem w1)); calls := calls w1; trace := trace w1 |}
              HG Hp) as (HG' & Hgrows & Hstored).
  - discriminate.
  - exact Hsteps.
  - reflexivity.
  - apply not_thrown, Hp'_ok.
  - eexists _, _, [i], [Called c a]. split; [reflexivity |]. split; [exact HG' |].
    split; [exact Hgrows |].
    intros c' k' Heq. split; [reflexivity |].
    inversion Heq; subst c'. exists a. reflexivity.
Qed.

Lemma finish_probe_run i owners evs pool w (cont : VpnManager.Pool -> Async (gmap string bool)) :
  Good ts0 before owners evs pool w ->
  exists pool' w' o tr,
    run env (VpnManager.finish_probe i pool cont) w = run env (cont pool') w'
    /\ Good ts0 before (owners ++ o) (evs ++ tr) pool' w'
    /\ grows pool pool'
    /\ done i pool'.
Proof.
  intros HG. unfold VpnManager.finish_probe.
  destruct (fst pool !! i) as [p |] eqn:Hp.
  2:{ exists pool, w, [], []. split; [reflexivity |]. rewrite !app_nil_r.
      split; [exact HG |]. split; [apply grows_refl |].
      intros t Ht. rewrite Hp in Ht. discriminate. }
  destruct (finished p) eqn:Hfin.
  { exists pool, w, [], []. split; [reflexivity |]. rewrite !app_nil_r.
    split; [exact HG |]. split; [apply grows_refl |].
    intros t Ht. rewrite Hp in Ht. inversion Ht; subst t. exact Hfin. }
  destruct (good_task _ _ _ _ _ _ HG Hp) as [Hi Hp_ok].
  rewrite run_complete.
  destruct (run_Steps env p w) as (tr & Htrace & Hsteps).
  pose proof (run_always _ env p w Hp_ok) as [x Hx].
  rewrite Hx in Hsteps |- *. cbn [of_result] in Hsteps |- *.
  rewrite settled_run by discriminate.
  destruct (good_store owners evs pool w i p (Ret x) tr (snd (run env p w)) HG Hp)
    as (HG' & Hgrows & Hstored).
  - rewrite Hfin. discriminate.
  - exact Hsteps.
  - exact Htrace.
  - discriminate.
  - eexists _, _, _, tr. split; [reflexivity |]. split; [exact HG' |].
    split; [exact Hgrows |].
    intros t Ht. cbn [VpnManager.store_verdict fst] in Ht.
    rewrite list_lookup_insert_eq in Ht.
    + inversion Ht. reflexivity.
    + rewrite (good_length _ _ _ _ _ _ HG). exact Hi.
Qed.

Lemma each_run
    (op : nat -> VpnManager.Pool -> (VpnManager.Pool -> Async (gmap string bool))
          -> Async (gmap string bool))
    (Est : nat -> VpnManager.Pool -> Prop) :
  (forall i owners evs pool w cont,
      Good ts0 before owners evs pool w ->
      exists pool' w' o tr,
        run env (op i pool cont) w = run env (cont pool') w'
        /\ Good ts0 before (owners ++ o) (evs ++ tr) pool' w'
        /\ grows pool pool'
        /\ Est i pool') ->
  (forall i p p', grows p p' -> Est i p -> Est i p') ->
  forall order owners evs pool w cont,
    Good ts0 before owners evs pool w ->
    exists pool' w' o tr,
      run env (VpnManager.each op order pool cont) w = run env (cont pool') w'
      /\ Good ts0 before (owners ++ o) (evs ++ tr) pool' w'
      /\ grows pool pool'
      /\ (forall i, In i order -> Est i pool').
Proof.
  intros Hop Hmono. induction order as [| i rest IH]; intros owners evs pool w cont HG.
  - exists pool, w, [], []. split; [reflexivity |]. rewrite !app_nil_r.
    split; [exact HG |]. split; [apply grows_refl |]. intros i [].
  - cbn [VpnManager.each].
    destruct (Hop i owners evs pool w
                (fun pool' => VpnManager.each op rest pool' cont) HG)
      as (pool1 & w1 & o1 & tr1 & Hrun1 & HG1 & Hgrows1 & Hest1).
    destruct (IH _ _ pool1 w1 cont HG1)
      as (pool2 & w2 & o2 & tr2 & Hrun2 & HG2 & Hgrows2 & Hest2).
    exists pool2, w2, (o1 ++ o2), (tr1 ++ tr2).
    split; [rewrite Hrun1; exact Hrun2 |].
    split; [rewrite !app_assoc; exact HG2 |].
    split; [eapply grows_trans; eassumption |].
    intros j [<- | Hj]; [eapply Hmono; eassumption | apply Hest2, Hj].
Qed.

Lemma start_all_run order :
  forall pool w (cont : VpnManager.Pool -> Async (gmap string bool)),
    Good ts0 before [] [] pool w ->
    Forall suspended_or_finished (fst pool) ->
    exists results',
      run env (VpnManager.each VpnManager.start_probe order pool cont) w
      = run env (cont (fst pool, results')) w
      /\ Good ts0 before [] [] (fst pool, results') w
      /\ grows pool (fst pool, results')
      /\ (forall i, In i order -> stored i (fst pool, results')).
Proof.
  induction order as [| i rest IH]; intros pool w cont HG Hsusp.
  - exists (snd pool). destruct pool as [tasks results]. cbn [fst snd VpnManager.each].
    split; [reflexivity |]. split; [exact HG |]. split; [apply grows_refl |]. intros i [].
  - cbn [VpnManager.each].
    destruct (start_probe_run i [] [] pool w
                (fun pool' => VpnManager.each VpnManager.start_probe rest pool' cont) HG)
      as (pool1 & w1 & o1 & tr1 & Hrun1 & HG1 & Hgrows1 & Hstored1 & -> & Hsame).
    destruct (Hsame Hsusp) as [Hpool1 ->].
    assert (Htr1 : tr1 = []).
    { pose proof (good_owners _ _ _ _ _ _ HG1) as Hlen. cbn in Hlen.
      destruct tr1; [reflexivity | discriminate]. }
    subst tr1. cbn [app] in HG1.
    assert (Htasks : fst pool1 = fst pool) by (rewrite Hpool1; reflexivity).
    destruct (IH pool1 w cont HG1) as (results2 & Hrun2 & HG2 & Hgrows2 & Hstored2).
    { rewrite Htasks. exact Hsusp. }
    rewrite Htasks in Hrun2, HG2, Hgrows2, Hstored2.
    exists results2. split; [rewrite Hrun1; exact Hrun2 |].
    split; [exact HG2 |]. split; [eapply grows_trans; eassumption |].
    intros j [<- | Hj]; [apply (proj1 Hgrows2), Hstored1 | apply Hstored2, Hj].
Qed.

End PoolSteps.

(** ** One probe *)

Lemma probe_course config srv tr c b :
  Steps (VpnManager.probe config srv) tr (Ret (c, b)) ->
  c = code srv
  /\ match VpnManager.getServerConfig config (code srv) with
     | Ok srv' => Probed (probe_request srv') tr b
     | Err _ => tr = [] /\ b = false
     end.
Proof.
  unfold VpnManager.probe, VpnManager.healthCheck, VpnManager.fetchWithRetry.
  destruct (VpnManager.getServerConfig config (code srv)) as [srv' | e0].
  - cbn. intros [[_ Heq] | (a & tr1 & -> & H)]; [discriminate |].
    destruct a as [e1 | r1]; cbn in H.
    + destruct H as [[_ Heq] | [[] H]]; [discriminate |].
      cbn in H. destruct H as [[_ Heq] | ([] & tr2 & -> & H)]; [discriminate |].
      cbn in H. destruct H as [[_ Heq] | (a & tr3 & -> & H)]; [discriminate |].
      destruct a as [e2 | r2]; cbn in H.
      * destruct H as [[-> Heq] | []]. inversion Heq; subst c b.
        split; [reflexivity | apply probed_down].
      * destruct H as [[-> Heq] | []]. inversion Heq; subst c b.
        split; [reflexivity | apply probed_on_retry].
    + destruct H as [[-> Heq] | []]. inversion Heq; subst c b.
      split; [reflexivity | apply probed_at_once].
  - cbn. intros [[-> Heq] | []]. inversion Heq; subst c b. repeat split; reflexivity.
Qed.

Lemma healthCheck_Steps config serverCode tr b :
  Steps (VpnManager.healthCheck config serverCode) tr (Ret b) ->
  match VpnManager.getServerConfig config serverCode with
  | Ok srv' => Probed (probe_request srv') tr b
  | Err _ => tr = [] /\ b = false
  end.
Proof.
  unfold VpnManager.healthCheck, VpnManager.fetchWithRetry.
  destruct (VpnManager.getServerConfig config serverCode) as [srv' | e0].
  - cbn. intros [[_ Heq] | (a & tr1 & -> & H)]; [discriminate |].
    destruct a as [e1 | r1]; cbn in H.
    + destruct H as [[_ Heq] | [[] H]]; [discriminate |].
      cbn in H. destruct H as [[_ Heq] | ([] & tr2 & -> & H)]; [discriminate |].
      cbn in H. destruct H as [[_ Heq] | (a & tr3 & -> & H)]; [discriminate |].
      destruct a as [e2 | r2]; cbn in H.
      * destruct H as [[-> Heq] | []]. inversion Heq; subst b. apply probed_down.
      * destruct H as [[-> Heq] | []]. inversion Heq; subst b. apply probed_on_retry.
    + destruct H as [[-> Heq] | []]. inversion Heq; subst b. apply probed_at_once.
  - cbn. intros [[-> Heq] | []]. inversion Heq; subst b. split; reflexivity.
Qed.

Section Probes.

Variable config : AppConfig.
Variable env : Oracle.

Lemma healthCheck_never_throws serverCode :
  always (fun r => exists b, r = Ok b) (VpnManager.healthCheck config serverCode).
Proof.
  unfold VpnManager.healthCheck. apply always_caught.
  - intros b. exists b. reflexivity.
  - intros e. cbn. exists false. reflexivity.
Qed.

Lemma probe_reports_its_endpoint srv :
  always (fun r => exists b, r = Ok (code srv, b)) (VpnManager.probe config srv).
Proof.
  unfold VpnManager.probe. apply always_bind.
  unfold VpnManager.healthCheck. apply always_caught.
  - intros b. cbn. exists b. reflexivity.
  - intros e. cbn. exists false. reflexivity.
Qed.

(** One probe alone: its calls and its verdict. *)
Lemma healthCheck_course serverCode w :
  let out := run env (VpnManager.healthCheck config serverCode) w in
  exists b,
    fst out = Ok b
    /\ match VpnManager.getServerConfig config serverCode with
       | Ok srv => Probed (probe_request srv) (new_events w (snd out)) b
       | Err _ => new_events w (snd out) = [] /\ b = false
       end.
Proof.
  intros out. subst out.
  destruct (run_always _ env _ w (healthCheck_never_throws serverCode)) as [b Hb].
  destruct (run_Steps env (VpnManager.healthCheck config serverCode) w) as (tr & Ht & Hs).
  rewrite Hb in Hs. cbn [of_result] in Hs. apply healthCheck_Steps in Hs.
  exists b. split; [exact Hb |]. unfold new_events. rewrite Ht, drop_app_length.
  exact Hs.
Qed.

Lemma getServerConfig_configured srv :
  In srv (servers config) ->
  exists srv', VpnManager.getServerConfig config (code srv) = Ok srv'.
Proof.
  intros Hin. unfold VpnManager.getServerConfig.
  destruct (find (fun s => String.eqb (code s) (code srv)) (servers config)) as [srv' |] eqn:Hfind.
  - exists srv'. reflexivity.
  - apply (find_none _ _ Hfind) in Hin. rewrite String.eqb_refl in Hin. discriminate.
Qed.

Lemma probe_suspended srv :
  In srv (servers config) ->
  exists srv' k,
    VpnManager.getServerConfig config (code srv) = Ok srv'
    /\ VpnManager.probe config srv = Await (Fetch (probe_request srv')) k.
Proof.
  intros Hin. destruct (getServerConfig_configured srv Hin) as [srv' Hcfg].
  exists srv'. unfold VpnManager.probe, VpnManager.healthCheck, VpnManager.fetchWithRetry.
  rewrite Hcfg. cbn. eexists. split; reflexivity.
Qed.

Lemma probes_never_throw i t0 :
  map (VpnManager.probe config) (servers config) !! i = Some t0 ->
  always (fun r => exists x, r = Ok x) t0.
Proof.
  intros Ht0. rewrite list_lookup_fmap in Ht0.
  destruct (servers config !! i) as [srv |]; [| discriminate].
  inversion Ht0; subst t0.
  pose proof (probe_reports_its_endpoint srv) as H.
  clear Ht0. induction (VpnManager.probe config srv) as [x | e | Y f k IH | c k IH]; cbn in *.
  - destruct H as [b ->]. eauto.
  - destruct H as [b Hb]. discriminate.
  - intros y. apply IH, H.
  - intros a. apply IH, H.
Qed.

Lemma probes_suspended :
  Forall suspended_or_finished (map (VpnManager.probe config) (servers config)).
Proof.
  apply Forall_forall. intros t Ht. apply list_elem_of_In, in_map_iff in Ht.
  destruct Ht as (srv & <- & Hin).
  destruct (probe_suspended srv Hin) as (srv' & k & _ & ->). exact I.
Qed.

Lemma resume_all_run schedule owners evs pool w
    (cont : VpnManager.Pool -> Async (gmap string bool)) :
  let ts0 := map (VpnManager.probe config) (servers config) in
  Good ts0 (trace w) owners evs pool w ->
  exists pool' w' o tr,
    run env (VpnManager.each VpnManager.resume_probe schedule pool cont) w
    = run env (cont pool') w'
    /\ Good ts0 (trace w) (owners ++ o) (evs ++ tr) pool' w'
    /\ grows pool pool'
    /\ (forall i rest c k,
          schedule = i :: rest -> fst pool !! i = Some (Await c k) ->
          exists o', o = i :: o').
Proof.
  intros ts0 HG.
  pose proof (each_run env ts0 (trace w)
                VpnManager.resume_probe (fun _ _ => True)) as Hall.
  assert (Hstep : forall i owners evs pool w0
                          (cont : VpnManager.Pool -> Async (gmap string bool)),
             Good ts0 (trace w) owners evs pool w0 ->
             exists pool' w' o tr,
               run env (VpnManager.resume_probe i pool cont) w0 = run env (cont pool') w'
               /\ Good ts0 (trace w) (owners ++ o) (evs ++ tr) pool' w'
               /\ grows pool pool' /\ True).
  { intros i owners0 evs0 pool0 w0 cont0 HG0.
    destruct (resume_probe_run env ts0 (trace w) probes_never_throw i owners0 evs0 pool0 w0
                cont0 HG0) as (pool' & w' & o & tr & Hrun & HG' & Hgrows & _).
    exists pool', w', o, tr.
    split; [exact Hrun |]. split; [exact HG' |]. split; [exact Hgrows | exact I]. }
  specialize (Hall Hstep (fun _ _ _ _ _ => I)).
  destruct schedule as [| i rest].
  - destruct (Hall [] owners evs pool w cont HG) as (pool' & w' & o & tr & Hrun & HG' & Hg & _).
    exists pool', w', o, tr.
    split; [exact Hrun |]. split; [exact HG' |]. split; [exact Hg | discriminate].
  - cbn [VpnManager.each].
    destruct (resume_probe_run env ts0 (trace w) probes_never_throw i owners evs pool w
                (fun pool' => VpnManager.each VpnManager.resume_probe rest pool' cont) HG)
      as (pool1 & w1 & o1 & tr1 & Hrun1 & HG1 & Hgrows1 & Hhead).
    destruct (Hall rest _ _ pool1 w1 cont HG1)
      as (pool2 & w2 & o2 & tr2 & Hrun2 & HG2 & Hgrows2 & _).
    exists pool2, w2, (o1 ++ o2), (tr1 ++ tr2).
    split; [rewrite Hrun1; exact Hrun2 |].
    split; [rewrite !app_assoc; exact HG2 |].
    split; [eapply grows_trans; eassumption |].
    intros j rest' c k Heq Hj. inversion Heq; subst j rest'.
    destruct (Hhead c k Hj) as [-> _]. exists o2. reflexivity.
Qed.


End Probes.

(** The probes of the other two endpoints are answered while the
    unreachable one is still being retried, and the map is the same
    whatever the order. *)
Example healthCheckAll_one_down :
  let urls schedule :=
    map (fun ro => url (fst ro))
      (fetches (trace (snd (run nl_down (VpnManager.healthCheckAll three_endpoints schedule)
                              Scenario.w0)))) in
  let verdicts schedule :=
    fst (run nl_down (VpnManager.healthCheckAll three_endpoints schedule) Scenario.w0) in
  urls [1; 2; 0]%nat
  = ["https://nl.example/"; "https://de.example/"; "https://ru.example/";
     "https://nl.example/"]
  /\ urls []
     = ["https://ru.example/"; "https://nl.example/"; "https://nl.example/";
        "https://de.example/"]
  /\ verdicts [1; 2; 0]%nat
     = Ok (<["ru" := true]> (<["nl" := false]> (<["de" := true]> ∅)))
  /\ verdicts [] = verdicts [1; 2; 0]%nat.
Proof. vm_compute. repeat split; reflexivity. Qed.

(** Not every outbound request goes through [fetchWithRetry] with its
    default budget: the gateway query is a single [fetch] without abort
    signal, and the liveness probe has a budget of two attempts. *)
Example other_requests_have_other_budgets :
  map (fun ro => signal_timeout (fst ro))
    (fetches (trace (snd (run Scenario.unreachable
                            (Payments.checkYooMoneyPayment Scenario.config "pay_1")
                            Scenario.w0))))
  = [None]
  /\ length (fetches (trace (snd (run Scenario.unreachable
                                    (VpnManager.healthCheck Scenario.config "ru")
                                    Scenario.w0))))
     = 2%nat.
Proof. vm_compute. split; reflexivity. Qed.

